(** * InputRecordingFile: the input-recording file of PCSX2-rr

    A shallow embedding of [pcsx2/Recording/InputRecordingFile.cpp]: the
    header of a recording, the store that owns the [FILE*] of the recording,
    and the positioned reads and writes that address one byte of one
    controller port in one frame.

    Conventions of the embedding.
    - A C integer is a [Z]; where the source computes with it the wrap-around
      of its type is written out ([wrapU], [wrapS]).  [int] and [uint] have
      32 bits, [long] and [unsigned long] have 32 or 64 bits ([long_width]).
    - An object in memory is the list of its bytes, least significant byte
      first (the targets of the emulator are little-endian); [fread] and
      [fwrite] move prefixes of such lists.
    - The C stream is a position into the bytes that the file system holds
      for a path, together with the data that were written to the stream and
      have not reached the file yet; every method takes the file system and
      the store and returns them with its result.
    - A stream is fully buffered: [fwrite] leaves its bytes in the buffer of
      the stream, and they reach the file when the stream is flushed, by
      [fflush], [fclose], and by [fseek] and [rewind], which write out what
      is unwritten before they move (also when [fseek] refuses the offset).
      The buffer is large enough for what the source writes between two
      flushes.  Another stream on the same file sees the bytes of the file,
      not the buffer; what a stream holds unwritten when the store drops it
      without closing it is no longer part of the state.
    - Console output ([inputRec::consoleLog]) is not part of the state.
    - A write to an open stream always completes: the file system has no
      quota.

    The overload of [SetEmulatorVersion] that formats the name and the
    version of the running emulator is left out: what it formats is
    declared outside this file. *)

From Stdlib Require Import ZArith List Lia.
From coqutil Require Import Byte Word.LittleEndianList.
From stdpp Require Import base gmap list strings.

Local Open Scope Z_scope.

(** ** Machine integers *)

Definition wrapU (bits : Z) (z : Z) : Z := z mod 2 ^ bits.

Definition wrapS (bits : Z) (z : Z) : Z :=
  (z + 2 ^ (bits - 1)) mod 2 ^ bits - 2 ^ (bits - 1).

(** The two widths [long] has on the platforms of the emulator: 4 bytes
    (Windows) and 8 bytes (Linux, macOS). *)
Inductive long_width := Long32 | Long64.

Definition sizeof_long (lw : long_width) : nat :=
  match lw with Long32 => 4%nat | Long64 => 8%nat end.

Definition long_bits (lw : long_width) : Z := 8 * Z.of_nat (sizeof_long lw).

(** ** Objects as bytes *)

Definition repr_int (size : nat) (v : Z) : list byte := le_split size v.

Definition unsigned_of_repr (bs : list byte) : Z := le_combine bs.

Definition signed_of_repr (bs : list byte) : Z :=
  wrapS (8 * Z.of_nat (length bs)) (le_combine bs).

Definition repr_bool (b : bool) : list byte :=
  [if b then Byte.x01 else Byte.x00].

Definition bool_of_repr (bs : list byte) : bool :=
  match bs with
  | b :: _ => negb (Byte.eqb b Byte.x00)
  | [] => false
  end.

(** What an object holds after [fread] stored [got] at its start: the bytes
    that arrived, then the bytes the read did not reach. *)
Definition overlay (old got : list byte) : list byte :=
  got ++ drop (length got) old.

(** ** The C stream *)

Module Stdio.

(** An open stream: the path it was opened on, its position, and the writes
    that are still in its buffer, oldest first, each with the position it
    was made at. *)
Record FILE := openFILE {
  f_path : string;
  f_pos : nat;
  f_unwritten : list (nat * list byte)
}.

(** A stream with nothing unwritten. *)
Definition mkFILE (path : string) (pos : nat) : FILE := openFILE path pos [].

Record FileSystem := mkFS {
  fs_files : gmap string (list byte);
  fs_denied : gset string
}.

Inductive fmode := WBplus | RBplus.

(** The bytes of a file after [bs] is written at [pos]; a gap between the
    end of the file and [pos] reads as zeros. *)
Definition pwrite (data : list byte) (pos : nat) (bs : list byte) : list byte :=
  take pos (data ++ replicate (pos - length data) Byte.x00)
  ++ bs ++ drop (pos + length bs) data.

(** The bytes the file system holds for a path. *)
Definition file_data (fs : FileSystem) (path : string) : list byte :=
  default [] (fs_files fs !! path).

(** The bytes of the file as the stream holds them: the bytes of the file
    with the unwritten data of the stream laid over them. *)
Definition stream_data (fs : FileSystem) (f : FILE) : list byte :=
  foldl (fun data w => pwrite data (fst w) (snd w))
        (file_data fs (f_path f)) (f_unwritten f).

(** The file system with [data] as the bytes of [path]. *)
Definition set_stream (fs : FileSystem) (path : string) (data : list byte)
  : FileSystem :=
  mkFS (<[path := data]> (fs_files fs)) (fs_denied fs).

(** [wxFopen]: a path in [fs_denied] cannot be opened or created; ["wb+"]
    creates or truncates, ["rb+"] needs the file to exist. *)
Definition wxFopen (fs : FileSystem) (path : string) (mode : fmode)
  : FileSystem * option FILE :=
  if decide (path ∈ fs_denied fs) then (fs, None)
  else match mode with
       | WBplus => (set_stream fs path [], Some (mkFILE path 0))
       | RBplus =>
           match fs_files fs !! path with
           | Some _ => (fs, Some (mkFILE path 0))
           | None => (fs, None)
           end
       end.

(** [fflush(f)]: what is unwritten goes to the file. *)
Definition fflush (fs : FileSystem) (f : FILE) : FileSystem * FILE :=
  (match f_unwritten f with
   | [] => fs
   | _ :: _ => set_stream fs (f_path f) (stream_data fs f)
   end,
   mkFILE (f_path f) (f_pos f)).

(** [fclose(f)]: the stream is flushed and is gone. *)
Definition fclose (fs : FileSystem) (f : FILE) : FileSystem :=
  fst (fflush fs f).

(** [fseek(f, offset, SEEK_SET)]: the stream is flushed; then 0 and the new
    position, or -1 and the old position for a negative offset. *)
Definition fseek (fs : FileSystem) (f : FILE) (offset : Z)
  : FileSystem * FILE * Z :=
  let '(fs1, f1) := fflush fs f in
  if offset <? 0 then (fs1, f1, -1)
  else (fs1, mkFILE (f_path f1) (Z.to_nat offset), 0).

Definition rewind (fs : FileSystem) (f : FILE) : FileSystem * FILE :=
  let '(fs1, f1) := fflush fs f in
  (fs1, mkFILE (f_path f1) 0).

(** [fread(buf, size, count, f)]: the bytes that arrive (at most
    [size * count], fewer at the end of the file) and the number of whole
    items among them.  Every [fread] of the source follows an [fseek], a
    [rewind] or another [fread] on its stream, where nothing is unwritten;
    the bytes are those of the stream. *)
Definition fread (fs : FileSystem) (f : FILE) (size count : nat)
  : FILE * list byte * nat :=
  let got := take (size * count) (drop (f_pos f) (stream_data fs f)) in
  (openFILE (f_path f) (f_pos f + length got) (f_unwritten f),
   got, (length got / size)%nat).

(** [fwrite(obj, size, count, f)]: the first [size * count] bytes of the
    object go to the buffer of the stream, for the current position. *)
Definition fwrite (f : FILE) (obj : list byte) (size count : nat)
  : FILE * nat :=
  let bs := take (size * count) obj in
  (openFILE (f_path f) (f_pos f + length bs) (f_unwritten f ++ [(f_pos f, bs)]),
   (length bs / size)%nat).

End Stdio.
Import Stdio.

(** ** Character arrays *)

(** [buf[i] = v] on an array: [None] stands for a store outside the array. *)
Definition poke (buf : list byte) (i : nat) (v : byte) : option (list byte) :=
  if decide (i < length buf)%nat then Some (<[i := v]> buf) else None.

(** [memset(buf, c, n)] on an array declared with [n] elements. *)
Definition memset (buf : list byte) (c : byte) (n : nat) : list byte :=
  replicate n c ++ drop n buf.

(** [strncpy(dst, src, n)], started at index [i]: [n] bytes are stored, the
    characters of [src] up to its terminator and NULs after it.  [src] is
    the C string without its terminator; a NUL inside it ends it. *)
Fixpoint strncpy (dst : list byte) (i : nat) (src : list byte) (n : nat)
  : option (list byte) :=
  match n with
  | O => Some dst
  | S n' =>
      let c := hd Byte.x00 src in
      match poke dst i c with
      | None => None
      | Some dst' =>
          strncpy dst' (S i) (if Byte.eqb c Byte.x00 then [] else tl src) n'
      end
  end.

(** [strcpy_safe<charCount>(output, pSrc)]. *)
Definition strcpy_safe (charCount : nat) (output : list byte) (pSrc : list byte)
  : option (list byte) :=
  match strncpy output 0 pSrc charCount with
  | None => None
  | Some out => poke out (charCount - 1) Byte.x00
  end.

(** [wxString::c_str()]. *)
Definition c_str (s : string) : list byte := String.list_byte_of_string s.

(** ** The declarations of InputRecordingFile.h *)

(** The constants and array sizes that [InputRecordingFile.h] declares; the
    header file is not among the sources, so they are parameters of the
    development. *)
Record Decls := mkDecls {
  lw : long_width;
  authorCap : nat;
  gameNameCap : nat;
  emuCap : nat;
  controllerInputBytes : nat;
  controllerPortsSupported : nat
}.

Record InputRecordingFileHeader := mkHeader {
  version : byte;
  author : list byte;
  gameName : list byte;
  emu : list byte
}.

(** Modelled from the spec: [PadData] is declared elsewhere; the spec calls
    it the input block, a fixed-width byte array that is read and written
    by index.  A [PadData] is the [list byte] of its controller bytes. *)
Definition UpdateControllerData (i : nat) (v : byte) (pd : list byte)
  : list byte :=
  <[i := v]> pd.

(** Modelled from the spec: the read side of the same absent class, the
    controller byte at an index of the input block. *)
Definition PollControllerData (pd : list byte) (i : nat) : byte :=
  nth i pd Byte.x00.

Record InputRecordingFile := mkStore {
  header : InputRecordingFileHeader;
  filename : string;
  recordingFile : option FILE;
  fromSavestate : bool;
  totalFrames : Z;
  undoCount : Z
}.

Definition set_header (h : InputRecordingFileHeader) (s : InputRecordingFile) :=
  mkStore h (filename s) (recordingFile s) (fromSavestate s)
          (totalFrames s) (undoCount s).
Definition set_filename (p : string) (s : InputRecordingFile) :=
  mkStore (header s) p (recordingFile s) (fromSavestate s)
          (totalFrames s) (undoCount s).
Definition set_recordingFile (f : option FILE) (s : InputRecordingFile) :=
  mkStore (header s) (filename s) f (fromSavestate s)
          (totalFrames s) (undoCount s).
Definition set_fromSavestate (b : bool) (s : InputRecordingFile) :=
  mkStore (header s) (filename s) (recordingFile s) b
          (totalFrames s) (undoCount s).
Definition set_totalFrames (n : Z) (s : InputRecordingFile) :=
  mkStore (header s) (filename s) (recordingFile s) (fromSavestate s)
          n (undoCount s).
Definition set_undoCount (n : Z) (s : InputRecordingFile) :=
  mkStore (header s) (filename s) (recordingFile s) (fromSavestate s)
          (totalFrames s) n.

Section Recording.

Context (D : Decls).

Definition LSZ : nat := sizeof_long (lw D).
Definition LB : Z := long_bits (lw D).

(** Modelled from the spec: the layout of [InputRecordingFileHeader], which
    is declared in the absent header file: the format version, then author,
    title and emulator identity as character arrays.  The version is taken
    as one unsigned byte. *)
Definition sizeof_header : nat :=
  (1 + authorCap D + gameNameCap D + emuCap D)%nat.

Definition repr_header (h : InputRecordingFileHeader) : list byte :=
  version h :: author h ++ gameName h ++ emu h.

Definition header_of_repr (bs : list byte) : InputRecordingFileHeader :=
  mkHeader (hd Byte.x00 bs)
           (take (authorCap D) (drop 1 bs))
           (take (gameNameCap D) (drop (1 + authorCap D) bs))
           (take (emuCap D) (drop (1 + authorCap D + gameNameCap D) bs)).

Definition header_wf (h : InputRecordingFileHeader) : Prop :=
  length (author h) = authorCap D /\
  length (gameName h) = gameNameCap D /\
  length (emu h) = emuCap D.

(** Modelled from the spec: the offsets of the counters and the size of the
    header block, constants of the absent header file; the file holds the
    header, the 4-byte frame count, the 4-byte undo count and the 1-byte
    flag, and the frame records after them. *)
Definition seekpointTotalFrames : Z := Z.of_nat sizeof_header.
Definition seekpointUndoCount : Z := Z.of_nat sizeof_header + 4.
Definition headerSize : Z := Z.of_nat sizeof_header + 4 + 4.
Definition inputBytesPerFrame : Z :=
  Z.of_nat (controllerInputBytes D) * Z.of_nat (controllerPortsSupported D).

(** *** InputRecordingFileHeader *)

Definition Init (h : InputRecordingFileHeader) : InputRecordingFileHeader :=
  let a := memset (author h) Byte.x00 (authorCap D) in
  let g := memset (gameName h) Byte.x00 (gameNameCap D) in
  mkHeader (version h) a g (emu h).

Definition SetEmulatorVersion (h : InputRecordingFileHeader) (v : string)
  : option InputRecordingFileHeader :=
  match strcpy_safe (emuCap D) (emu h) (c_str v) with
  | Some e => Some (mkHeader (version h) (author h) (gameName h) e)
  | None => None
  end.

Definition SetAuthor (h : InputRecordingFileHeader) (_author : string)
  : option InputRecordingFileHeader :=
  match strcpy_safe (authorCap D) (author h) (c_str _author) with
  | Some a => Some (mkHeader (version h) a (gameName h) (emu h))
  | None => None
  end.

Definition SetGameName (h : InputRecordingFileHeader) (_gameName : string)
  : option InputRecordingFileHeader :=
  match strcpy_safe (gameNameCap D) (gameName h) (c_str _gameName) with
  | Some g => Some (mkHeader (version h) (author h) g (emu h))
  | None => None
  end.

(** *** InputRecordingFile *)

Definition Close (fs : FileSystem) (s : InputRecordingFile)
  : FileSystem * InputRecordingFile * bool :=
  match recordingFile s with
  | None => (fs, s, false)
  | Some f =>
      (fclose fs f, set_filename "" (set_recordingFile None s), true)
  end.

Definition IsFileOpen (s : InputRecordingFile) : bool :=
  match recordingFile s with Some _ => true | None => false end.

Definition IncrementUndoCount (fs : FileSystem) (s : InputRecordingFile)
  : FileSystem * InputRecordingFile :=
  let s1 := set_undoCount (wrapU LB (undoCount s + 1)) s in
  match recordingFile s1 with
  | None => (fs, s1)
  | Some f =>
      let '(fs1, f1, _) := fseek fs f seekpointUndoCount in
      let '(f2, _) := fwrite f1 (repr_int LSZ (undoCount s1)) 4 1 in
      (fs1, set_recordingFile (Some f2) s1)
  end.

Definition verifyRecordingFileHeader (fs : FileSystem) (s : InputRecordingFile)
  : FileSystem * InputRecordingFile * bool :=
  match recordingFile s with
  | None => (fs, s, false)
  | Some f =>
      let '(fs0, f0) := rewind fs f in
      let '(f1, got, n) := fread fs0 f0 sizeof_header 1 in
      let s1 := set_recordingFile (Some f1)
                  (set_header (header_of_repr
                                 (overlay (repr_header (header s)) got)) s) in
      if negb (n =? 1)%nat then (fs0, s1, false) else
      let '(f2, got, n) := fread fs0 f1 4 1 in
      let s2 := set_recordingFile (Some f2)
                  (set_totalFrames
                     (signed_of_repr
                        (overlay (repr_int LSZ (totalFrames s1)) got)) s1) in
      if negb (n =? 1)%nat then (fs0, s2, false) else
      let '(f3, got, n) := fread fs0 f2 4 1 in
      let s3 := set_recordingFile (Some f3)
                  (set_undoCount
                     (unsigned_of_repr
                        (overlay (repr_int LSZ (undoCount s2)) got)) s2) in
      if negb (n =? 1)%nat then (fs0, s3, false) else
      let '(f4, got, n) := fread fs0 f3 1 1 in
      let s4 := set_recordingFile (Some f4)
                  (set_fromSavestate
                     (bool_of_repr
                        (overlay (repr_bool (fromSavestate s3)) got)) s3) in
      if negb (n =? 1)%nat then (fs0, s4, false) else
      if negb (Byte.eqb (version (header s4)) Byte.x01) then (fs0, s4, false)
      else (fs0, s4, true)
  end.

Definition open (fs : FileSystem) (s : InputRecordingFile) (path : string)
  (newRecording : bool) : FileSystem * InputRecordingFile * bool :=
  if newRecording then
    let '(fs1, h) := wxFopen fs path WBplus in
    let s1 := set_recordingFile h s in
    match h with
    | Some _ =>
        let s2 := set_filename path s1 in
        let s3 := set_totalFrames 0 s2 in
        let s4 := set_undoCount 0 s3 in
        (fs1, set_header (Init (header s4)) s4, true)
    | None => (fs1, s1, false)
    end
  else
    let '(fs1, h) := wxFopen fs path RBplus in
    let s1 := set_recordingFile h s in
    match h with
    | Some _ =>
        let '(fs2, s2, ok) := verifyRecordingFileHeader fs1 s1 in
        if ok then (fs2, set_filename path s2, true)
        else
          let '(fs3, s3, _) := Close fs2 s2 in
          (fs3, s3, false)
    | None => (fs1, s1, false)
    end.

Definition OpenNew (fs : FileSystem) (s : InputRecordingFile) (path : string)
  (fromSavestate : bool) : FileSystem * InputRecordingFile * bool :=
  let '(fs1, s1, ok) := open fs s path true in
  if negb ok then (fs1, s1, false)
  else (fs1, set_fromSavestate fromSavestate s1, true).

Definition OpenExisting (fs : FileSystem) (s : InputRecordingFile)
  (path : string) : FileSystem * InputRecordingFile * bool :=
  open fs s path false.

(** [getRecordingBlockSeekPoint]; [sizeof(bool)] is 1. *)
Definition getRecordingBlockSeekPoint (frame : Z) : Z :=
  wrapS LB (headerSize + 1 + frame * inputBytesPerFrame).

(** The conversion of a [uint] or [int] argument to the [const long&]
    parameter of [getRecordingBlockSeekPoint]. *)
Definition to_long (z : Z) : Z := wrapS LB z.

(** The local [seek] of [ReadKeyBuffer]; the product of the [int] constant
    and the [uint] port is a [uint], the sum is stored in a [long]. *)
Definition ReadKeyBuffer_seek (frame port bufIndex : Z) : Z :=
  wrapS LB (getRecordingBlockSeekPoint (to_long frame)
            + wrapU 32 (Z.of_nat (controllerInputBytes D) * port)
            + bufIndex).

Definition ReadKeyBuffer (fs : FileSystem) (s : InputRecordingFile)
  (result : byte) (frame port bufIndex : Z)
  : FileSystem * InputRecordingFile * byte * bool :=
  match recordingFile s with
  | None => (fs, s, result, false)
  | Some f =>
      let seek := ReadKeyBuffer_seek frame port bufIndex in
      let '(fs1, f1, rc) := fseek fs f seek in
      if negb (rc =? 0)
      then (fs1, set_recordingFile (Some f1) s, result, false)
      else
        let '(f2, got, n) := fread fs1 f1 1 1 in
        let result' := hd result (overlay [result] got) in
        if negb (n =? 1)%nat
        then (fs1, set_recordingFile (Some f2) s, result', false)
        else (fs1, set_recordingFile (Some f2) s, result', true)
  end.

(** The local [seek] of the loop of [BulkReadPadData]. *)
Definition BulkReadPadData_seek (frame port : Z) : Z :=
  wrapS LB (getRecordingBlockSeekPoint (to_long frame)
            + wrapU 32 (Z.of_nat (controllerInputBytes D) * port)).

(** One turn of the loop of [BulkReadPadData]: the position is set (the
    result of [fseek] is not looked at), one block is read into [padBytes],
    and the frame enters the map when the count of [fread] is not zero.
    [std::map::insert] keeps an entry that is already there. *)
Definition bulk_step (port : Z) (frame : Z)
  (st : FileSystem * FILE * list byte * gmap Z (list byte))
  : FileSystem * FILE * list byte * gmap Z (list byte) :=
  let '(fs, f, padBytes, data) := st in
  let seek := BulkReadPadData_seek frame port in
  let '(fs1, f1, _) := fseek fs f seek in
  let '(f2, got, n) := fread fs1 f1 1 (controllerInputBytes D) in
  let padBytes' := overlay padBytes got in
  if negb (n =? 0)%nat then
    let frameData :=
      foldl (fun pd i => UpdateControllerData i (nth i padBytes' Byte.x00) pd)
            (replicate (controllerInputBytes D) Byte.x00)
            (seq 0 (controllerInputBytes D)) in
    let key := wrapU 32 frame in
    (fs1, f2, padBytes',
     match data !! key with
     | Some _ => data
     | None => <[key := frameData]> data
     end)
  else (fs1, f2, padBytes', data).

Fixpoint bulk_loop (port : Z) (count : nat) (frame : Z)
  (st : FileSystem * FILE * list byte * gmap Z (list byte))
  : FileSystem * FILE * list byte * gmap Z (list byte) :=
  match count with
  | O => st
  | S count' => bulk_loop port count' (frame + 1) (bulk_step port frame st)
  end.

(** [BulkReadPadData].  [padBytes0] is what the local array [padBytes] holds
    before the first read (it has no initialiser), of
    [controllerInputBytes] bytes.  The counter of the loop is an [int]; when
    [frameEnd] is beyond [INT_MAX] the counter cannot reach it and the
    function has no result ([None]). *)
Definition BulkReadPadData (fs : FileSystem) (s : InputRecordingFile)
  (padBytes0 : list byte) (frameStart frameEnd port : Z)
  : option (FileSystem * InputRecordingFile * gmap Z (list byte)) :=
  match recordingFile s with
  | None => Some (fs, s, ∅)
  | Some f =>
      let frameStart := if frameStart <? 0 then 0 else frameStart in
      let frame0 := wrapS 32 frameStart in
      if 2 ^ 31 - 1 <? frameEnd then None
      else
        let '(fs', f', _, data) :=
          bulk_loop port (Z.to_nat (frameEnd - frame0)) frame0
                    (fs, f, padBytes0, ∅) in
        Some (fs', set_recordingFile (Some f') s, data)
  end.

Definition SetTotalFrames (fs : FileSystem) (s : InputRecordingFile) (frame : Z)
  : FileSystem * InputRecordingFile :=
  match recordingFile s with
  | None => (fs, s)
  | Some f =>
      if frame <=? totalFrames s then (fs, s)
      else
        let s1 := set_totalFrames frame s in
        let '(fs1, f1, _) := fseek fs f seekpointTotalFrames in
        let '(f2, _) := fwrite f1 (repr_int LSZ (totalFrames s1)) 4 1 in
        (fs1, set_recordingFile (Some f2) s1)
  end.

Definition WriteHeader (fs : FileSystem) (s : InputRecordingFile)
  : FileSystem * InputRecordingFile * bool :=
  match recordingFile s with
  | None => (fs, s, false)
  | Some f =>
      let '(fs0, f0) := rewind fs f in
      let '(f1, n) := fwrite f0 (repr_header (header s)) sizeof_header 1 in
      if negb (n =? 1)%nat then (fs0, set_recordingFile (Some f1) s, false) else
      let '(f2, n) := fwrite f1 (repr_int LSZ (totalFrames s)) 4 1 in
      if negb (n =? 1)%nat then (fs0, set_recordingFile (Some f2) s, false) else
      let '(f3, n) := fwrite f2 (repr_int LSZ (undoCount s)) 4 1 in
      if negb (n =? 1)%nat then (fs0, set_recordingFile (Some f3) s, false) else
      let '(f4, n) := fwrite f3 (repr_bool (fromSavestate s)) 1 1 in
      if negb (n =? 1)%nat then (fs0, set_recordingFile (Some f4) s, false) else
      let '(fs5, f5) := fflush fs0 f4 in
      (fs5, set_recordingFile (Some f5) s, true)
  end.

(** The local [seek] of [WriteKeyBuffer]; the block size is the literal 18
    here. *)
Definition WriteKeyBuffer_seek (frame port bufIndex : Z) : Z :=
  wrapS LB (getRecordingBlockSeekPoint (to_long frame)
            + wrapU 32 (18 * port) + bufIndex).

Definition WriteKeyBuffer (fs : FileSystem) (s : InputRecordingFile)
  (frame port bufIndex : Z) (buf : byte)
  : FileSystem * InputRecordingFile * bool :=
  match recordingFile s with
  | None => (fs, s, false)
  | Some f =>
      let seek := WriteKeyBuffer_seek frame port bufIndex in
      let '(fs1, f1, rc) := fseek fs f seek in
      if negb (rc =? 0) then (fs1, set_recordingFile (Some f1) s, false)
      else
        let '(f2, n) := fwrite f1 [buf] 1 1 in
        if negb (n =? 1)%nat then (fs1, set_recordingFile (Some f2) s, false)
        else
          let '(fs3, f3) := fflush fs1 f2 in
          (fs3, set_recordingFile (Some f3) s, true)
  end.

(** The loop of [WriteFrame] at index [i] with [count] turns to go: the
    first byte that [WriteKeyBuffer] refuses ends it. *)
Fixpoint WriteFrame_loop (fs : FileSystem) (s : InputRecordingFile)
  (frame port : Z) (padData : list byte) (i count : nat)
  : FileSystem * InputRecordingFile * bool :=
  match count with
  | O => (fs, s, true)
  | S count' =>
      let '(fs1, s1, ok) :=
        WriteKeyBuffer fs s frame port (Z.of_nat i)
                       (PollControllerData padData i) in
      if negb ok then (fs1, s1, ok)
      else WriteFrame_loop fs1 s1 frame port padData (S i) count'
  end.

(** [WriteFrame].  The index of the loop is a [u16] compared with the [int]
    constant: with a constant above 65535 the index wraps to 0 before it
    reaches it, and the loop ends only at a byte that is refused; when no
    byte of the first 65536 is, the function has no result ([None]). *)
Definition WriteFrame (fs : FileSystem) (s : InputRecordingFile)
  (frame port : Z) (padData : list byte)
  : option (FileSystem * InputRecordingFile * bool) :=
  match recordingFile s with
  | None => Some (fs, s, false)
  | Some _ =>
      if Z.of_nat (controllerInputBytes D) <=? 65535 then
        Some (WriteFrame_loop fs s frame port padData 0 (controllerInputBytes D))
      else
        let r := WriteFrame_loop fs s frame port padData 0 (Z.to_nat 65536) in
        if snd r then None else Some r
  end.

(** [FromSaveState] and the other getters. *)
Definition FromSaveState (s : InputRecordingFile) : bool := fromSavestate s.
Definition GetFilename (s : InputRecordingFile) : string := filename s.
Definition GetHeader (s : InputRecordingFile) : InputRecordingFileHeader :=
  header s.
Definition GetTotalFrames (s : InputRecordingFile) : Z := totalFrames s.
Definition GetUndoCount (s : InputRecordingFile) : Z := undoCount s.

End Recording.

(** ** Statements of the specification *)

(** The characters of a C string: what precedes the first NUL. *)
Fixpoint c_prefix (src : list byte) : list byte :=
  match src with
  | [] => []
  | c :: t => if Byte.eqb c Byte.x00 then [] else c :: c_prefix t
  end.

(** What [strncpy] leaves in the [n] cells it stores to. *)
Definition cfield (n : nat) (src : list byte) : list byte :=
  take n (c_prefix src) ++ replicate (n - length (c_prefix src)) Byte.x00.

(** Copy with truncation and forced termination, in the words of the
    specification: the characters that fit before the last cell, and NULs
    from there to the end of the field. *)
Definition truncate_and_terminate (cap : nat) (src : list byte) : list byte :=
  let kept := take (cap - 1) (c_prefix src) in
  kept ++ replicate (cap - length kept) Byte.x00.

(** What the C++ types of the absent declarations guarantee: an array has
    at least one element. *)
Definition arrays_nonempty (D : Decls) : Prop :=
  (0 < authorCap D)%nat /\ (0 < gameNameCap D)%nat /\ (0 < emuCap D)%nat.

(** And [inputBytesPerFrame] is declared an [int]. *)
Definition decls_wf (D : Decls) : Prop :=
  arrays_nonempty D /\ inputBytesPerFrame D < 2 ^ 31.

(** A valid address: a [uint] frame whose record lies within the range of
    [long], a port of the recording, an index into the block of the port. *)
Definition valid_triple (D : Decls) (frame port bufIndex : Z) : Prop :=
  0 <= frame < 2 ^ 32 /\
  0 <= port < Z.of_nat (controllerPortsSupported D) /\
  0 <= bufIndex < Z.of_nat (controllerInputBytes D) /\
  headerSize D + 1 + (frame + 1) * inputBytesPerFrame D < 2 ^ (LB D - 1).

(** The offset of the specification:
    [frameRecordOffset(frame) + port * controllerInputBytes + byteIndex]. *)
Definition frameRecordOffset (D : Decls) (frame : Z) : Z :=
  headerSize D + 1 + frame * inputBytesPerFrame D.

Definition byteOffset (D : Decls) (frame port bufIndex : Z) : Z :=
  frameRecordOffset D frame + port * Z.of_nat (controllerInputBytes D) + bufIndex.

(** Every field of a header is zero. *)
Definition header_zeroed (D : Decls) (h : InputRecordingFileHeader) : Prop :=
  version h = Byte.x00 /\
  author h = replicate (authorCap D) Byte.x00 /\
  gameName h = replicate (gameNameCap D) Byte.x00 /\
  emu h = replicate (emuCap D) Byte.x00.

(** The bytes of the header block as [WriteHeader] lays them out. *)
Definition header_block (D : Decls) (s : InputRecordingFile) : list byte :=
  repr_header (header s) ++ repr_int 4 (totalFrames s)
  ++ repr_int 4 (undoCount s) ++ repr_bool (fromSavestate s).

(** The in-memory header and counters are the ones the stream of the open
    store holds: the bytes of the stream start with the header block of the
    store.  Part of them may still be unwritten. *)
Definition stream_synced (D : Decls) (fs : FileSystem) (s : InputRecordingFile)
  : Prop :=
  exists (f : FILE) (rest : list byte),
    recordingFile s = Some f /\
    header_wf D (header s) /\
    stream_data fs f = header_block D s ++ rest.

(** The in-memory header and counters are the ones the file holds: the
    stream of the open store has nothing unwritten and the file starts with
    the header block of the store. *)
Definition file_synced (D : Decls) (fs : FileSystem) (s : InputRecordingFile)
  : Prop :=
  exists (f : FILE) (rest : list byte),
    recordingFile s = Some f /\
    f_unwritten f = [] /\
    header_wf D (header s) /\
    file_data fs (f_path f) = header_block D s ++ rest.

(** [fs'] is [fs] once the stream [f] is flushed: the file of the stream
    holds the bytes the stream held, no other file has changed, and nothing
    has changed at all when the stream had nothing unwritten. *)
Definition flushed (fs : FileSystem) (f : FILE) (fs' : FileSystem) : Prop :=
  file_data fs' (f_path f) = stream_data fs f /\
  (forall p, p <> f_path f -> fs_files fs' !! p = fs_files fs !! p) /\
  fs_denied fs' = fs_denied fs /\
  (f_unwritten f = [] -> fs' = fs).

(** The store after [verifyRecordingFileHeader] has read a whole header
    block from [data] through the handle on [path]. *)
Definition loaded_store (D : Decls) (data : list byte) (path : string)
  (s : InputRecordingFile) : InputRecordingFile :=
  let hs := sizeof_header D in
  mkStore (header_of_repr D (take hs data))
          (filename s)
          (Some (mkFILE path (hs + 9)))
          (bool_of_repr (take 1 (drop (hs + 8) data)))
          (signed_of_repr (take 4 (drop hs data)
                           ++ drop 4 (repr_int (LSZ D) (totalFrames s))))
          (unsigned_of_repr (take 4 (drop (hs + 4) data)
                             ++ drop 4 (repr_int (LSZ D) (undoCount s)))).

(** A positioned read of the whole block of [port] in [frame] succeeds. *)
Definition full_block_readable (D : Decls) (data : list byte) (frame port : Z)
  : Prop :=
  0 <= BulkReadPadData_seek D frame port /\
  (Z.to_nat (BulkReadPadData_seek D frame port) + controllerInputBytes D
   <= length data)%nat.

(** The block of [port] in [frame] as the file holds it. *)
Definition block_at (D : Decls) (data : list byte) (frame port : Z)
  : list byte :=
  take (controllerInputBytes D)
       (drop (Z.to_nat (BulkReadPadData_seek D frame port)) data).

(** A caller that reports frame after frame. *)
Definition SetTotalFrames_each (D : Decls) (fs : FileSystem)
  (s : InputRecordingFile) (frames : list Z) : FileSystem * InputRecordingFile :=
  foldl (fun st frame => SetTotalFrames D (fst st) (snd st) frame) (fs, s) frames.

(** A caller that undoes [n] times. *)
Definition IncrementUndoCount_times (D : Decls) (n : nat) (fs : FileSystem)
  (s : InputRecordingFile) : FileSystem * InputRecordingFile :=
  Nat.iter n (fun st => IncrementUndoCount D (fst st) (snd st)) (fs, s).

(** The characters a reader of a text field sees. *)
Definition field_text (field : list byte) : list byte := c_prefix field.

(** ** Sample data *)

Definition decls64 : Decls := mkDecls Long64 255 255 50 18 2.

Definition sample_header : InputRecordingFileHeader :=
  mkHeader Byte.x01
           (c_str "tas" ++ replicate 252 Byte.x00)
           (c_str "game" ++ replicate 251 Byte.x00)
           (c_str "PCSX2-1.7.0" ++ replicate 39 Byte.x00).

Definition rec_path : string := "rec.p2m2".
Definition locked_path : string := "/locked/rec.p2m2".

Definition closed_store : InputRecordingFile :=
  mkStore sample_header "" None false 0 0.

Definition sample_fs : FileSystem := mkFS ∅ {[locked_path]}.

(** A recording that has just been created at ["rec.p2m2"] and stamped. *)
Definition fresh_recording : FileSystem * InputRecordingFile :=
  let '(fs1, s1, _) := OpenNew decls64 sample_fs closed_store rec_path true in
  let '(fs2, s2, _) := WriteHeader decls64 fs1 s1 in
  (fs2, s2).

(** The recording after the first five bytes of frame 0, port 0 have been
    written one by one: the file ends in the middle of the block. *)
Definition partial_recording : FileSystem * InputRecordingFile :=
  let '(fs0, s0) := fresh_recording in
  let '(fs1, s1, _) := WriteKeyBuffer decls64 fs0 s0 0 0 0 Byte.x01 in
  let '(fs2, s2, _) := WriteKeyBuffer decls64 fs1 s1 0 0 1 Byte.x02 in
  let '(fs3, s3, _) := WriteKeyBuffer decls64 fs2 s2 0 0 2 Byte.x03 in
  let '(fs4, s4, _) := WriteKeyBuffer decls64 fs3 s3 0 0 3 Byte.x04 in
  let '(fs5, s5, _) := WriteKeyBuffer decls64 fs4 s4 0 0 4 Byte.x05 in
  (fs5, s5).


(** A recording with a counter beyond four bytes. *)
Definition long_recording : FileSystem * InputRecordingFile :=
  let '(fs0, s0) := fresh_recording in
  SetTotalFrames decls64 fs0 s0 (2 ^ 32 + 7).

(** A block of 18 controller bytes. *)
Definition sample_pad : list byte := c_str "0123456789abcdefgh".

(** The fresh recording after the block of port 0 in frame 1 has been
    written: frame 0 is a gap, port 1 of frame 1 is not there yet. *)
Definition framed_recording : FileSystem * InputRecordingFile :=
  let '(fs0, s0) := fresh_recording in
  match WriteFrame decls64 fs0 s0 1 0 sample_pad with
  | Some (fs1, s1, _) => (fs1, s1)
  | None => (fs0, s0)
  end.

(** * Proofs *)

(** ** Machine integers *)

Lemma wrapS_small bits z :
  0 < bits -> - 2 ^ (bits - 1) <= z < 2 ^ (bits - 1) -> wrapS bits z = z.
Proof.
  intros Hb Hz. unfold wrapS.
  assert (E : 2 ^ bits = 2 * 2 ^ (bits - 1)).
  { replace bits with (Z.succ (bits - 1)) at 1 by lia.
    rewrite Z.pow_succ_r by lia. reflexivity. }
  rewrite Z.mod_small by lia. lia.
Qed.

Lemma wrapU_small bits z : 0 <= z < 2 ^ bits -> wrapU bits z = z.
Proof. intros. unfold wrapU. apply Z.mod_small. assumption. Qed.

Lemma LB_cases D : LB D = 32 \/ LB D = 64.
Proof. unfold LB, long_bits. destruct (lw D); simpl; auto. Qed.

Lemma LB_pos D : 0 < LB D.
Proof. destruct (LB_cases D) as [-> | ->]; lia. Qed.

Lemma pow_LB_ge D : 2 ^ 31 <= 2 ^ (LB D - 1).
Proof. destruct (LB_cases D) as [-> | ->]; simpl; lia. Qed.

(** ** Files as byte lists *)

Lemma pwrite_length data pos bs :
  length (pwrite data pos bs) = (length data `max` (pos + length bs))%nat.
Proof.
  unfold pwrite. rewrite !length_app, length_take, length_app,
    length_replicate, length_drop. lia.
Qed.

Lemma pwrite_prefix data pos bs :
  take pos (pwrite data pos bs)
  = take pos (data ++ replicate (pos - length data) Byte.x00).
Proof.
  unfold pwrite. rewrite take_app_le.
  - apply take_idemp.
  - rewrite length_take, length_app, length_replicate. lia.
Qed.

Lemma pwrite_read data pos bs :
  take (length bs) (drop pos (pwrite data pos bs)) = bs.
Proof.
  unfold pwrite. rewrite drop_app_length'.
  - apply take_app_length.
  - rewrite length_take, length_app, length_replicate. lia.
Qed.

Lemma pwrite_lookup_lt data pos bs (i : nat) :
  (i < pos)%nat -> (i < length data)%nat -> pwrite data pos bs !! i = data !! i.
Proof.
  intros Hi Hl. unfold pwrite.
  rewrite lookup_app_l.
  - rewrite lookup_take_lt by lia. apply lookup_app_l. lia.
  - rewrite length_take, length_app, length_replicate. lia.
Qed.

Lemma pwrite_lookup_ge data pos bs (i : nat) :
  (pos + length bs <= i)%nat -> pwrite data pos bs !! i = data !! i.
Proof.
  intros Hi. unfold pwrite.
  assert (Hp : length (take pos (data ++ replicate (pos - length data) Byte.x00))
               = pos).
  { rewrite length_take, length_app, length_replicate. lia. }
  rewrite lookup_app_r by lia. rewrite Hp.
  rewrite lookup_app_r by lia.
  rewrite lookup_drop. f_equal. lia.
Qed.

Lemma pwrite_inside pre old post new :
  length new = length old ->
  pwrite (pre ++ old ++ post) (length pre) new = pre ++ new ++ post.
Proof.
  intros Hl. unfold pwrite.
  rewrite length_app.
  replace (length pre - (length pre + length (old ++ post)))%nat with 0%nat by lia.
  simpl. rewrite app_nil_r, take_app_length.
  rewrite Hl, drop_app_add, drop_app_length. reflexivity.
Qed.

Lemma pwrite_0 data bs : pwrite data 0 bs = bs ++ drop (length bs) data.
Proof. unfold pwrite. rewrite take_0. reflexivity. Qed.

(** ** Character arrays *)

Lemma cfield_length n src : length (cfield n src) = n.
Proof.
  unfold cfield. rewrite length_app, length_take, length_replicate. lia.
Qed.

Lemma cfield_step n src :
  cfield (S n) src
  = hd Byte.x00 src
    :: cfield n (if Byte.eqb (hd Byte.x00 src) Byte.x00 then [] else tl src).
Proof.
  unfold cfield. destruct src as [| c t]; simpl.
  - rewrite take_nil. simpl. rewrite Nat.sub_0_r. reflexivity.
  - destruct (Byte.eqb c Byte.x00) eqn:E; simpl.
    + apply Byte.byte_dec_bl in E. subst c.
      rewrite take_nil. simpl. rewrite Nat.sub_0_r. reflexivity.
    + reflexivity.
Qed.

Lemma strncpy_spec n : forall dst i src,
  (i + n <= length dst)%nat ->
  strncpy dst i src n = Some (take i dst ++ cfield n src ++ drop (i + n) dst).
Proof.
  induction n as [| n IH]; intros dst i src Hlen.
  - cbn [strncpy]. rewrite Nat.add_0_r. unfold cfield.
    rewrite take_0. simpl. rewrite take_drop. reflexivity.
  - cbn [strncpy]. unfold poke.
    destruct (decide (i < length dst)%nat) as [Hi | Hi]; [| lia].
    rewrite IH by (rewrite length_insert; lia).
    f_equal. rewrite cfield_step.
    rewrite take_insert_lt by lia.
    rewrite drop_insert_lt by lia.
    rewrite (take_S_r dst i (default Byte.x00 (dst !! i))).
    + rewrite insert_app_r_alt by (rewrite length_take; lia).
      rewrite length_take.
      replace (i - i `min` length dst)%nat with 0%nat by lia.
      simpl. rewrite <- app_assoc. simpl.
      replace (i + S n)%nat with (S (i + n)) by lia. reflexivity.
    + destruct (lookup_lt_is_Some_2 dst i Hi) as [x Hx]. rewrite Hx. reflexivity.
Qed.

Lemma strcpy_safe_spec cap output src :
  (0 < cap)%nat -> length output = cap ->
  strcpy_safe cap output src = Some (truncate_and_terminate cap src).
Proof.
  intros Hcap Hlen. unfold strcpy_safe.
  rewrite strncpy_spec by lia.
  rewrite take_0, Nat.add_0_l, drop_ge by lia. simpl. rewrite app_nil_r.
  unfold poke. rewrite cfield_length.
  destruct (decide (cap - 1 < cap)%nat) as [_ | ?]; [| lia].
  f_equal. unfold truncate_and_terminate.
  rewrite insert_take_drop by (rewrite cfield_length; lia).
  rewrite (drop_ge (cfield cap src)) by (rewrite cfield_length; lia).
  unfold cfield. set (p := c_prefix src).
  rewrite take_app, take_take, length_take, take_replicate.
  replace ((cap - 1) `min` cap)%nat with (cap - 1)%nat by lia.
  rewrite <- app_assoc. f_equal.
  rewrite length_take.
  change [Byte.x00] with (replicate 1 Byte.x00).
  rewrite <- replicate_add. f_equal. lia.
Qed.

Lemma truncate_and_terminate_length cap src :
  (0 < cap)%nat -> length (truncate_and_terminate cap src) = cap.
Proof.
  intros. unfold truncate_and_terminate.
  rewrite length_app, length_replicate, length_take. lia.
Qed.

Lemma truncate_and_terminate_last cap src :
  (0 < cap)%nat -> last (truncate_and_terminate cap src) = Some Byte.x00.
Proof.
  intros Hcap. unfold truncate_and_terminate.
  set (kept := take (cap - 1) (c_prefix src)).
  assert (Hk : (length kept <= cap - 1)%nat).
  { unfold kept. rewrite length_take. lia. }
  replace (cap - length kept)%nat with (S (cap - 1 - length kept)) by lia.
  rewrite replicate_S_end, app_assoc. apply last_snoc.
Qed.

Lemma truncate_and_terminate_chars cap src (i : nat) :
  (i < cap - 1)%nat -> (i < length (c_prefix src))%nat ->
  truncate_and_terminate cap src !! i = c_prefix src !! i.
Proof.
  intros Hi Hl. unfold truncate_and_terminate.
  rewrite lookup_app_l by (rewrite length_take; lia).
  apply lookup_take_lt. lia.
Qed.

(** ** Integers as bytes *)

Lemma take_le_split (k : nat) : forall (n : nat) v,
  (k <= n)%nat -> take k (le_split n v) = le_split k v.
Proof.
  induction k as [| k IH]; intros n v Hk.
  - reflexivity.
  - destruct n as [| n]; [lia |].
    change (le_split (S n) v) with (byte.of_Z v :: le_split n (Z.shiftr v 8)).
    change (le_split (S k) v) with (byte.of_Z v :: le_split k (Z.shiftr v 8)).
    simpl. f_equal. apply IH. lia.
Qed.

Lemma take4_repr_long D v : take (4 * 1) (repr_int (LSZ D) v) = repr_int 4 v.
Proof.
  unfold repr_int, LSZ. apply take_le_split. destruct (lw D); simpl; lia.
Qed.

Lemma repr_int_length n v : length (repr_int n v) = n.
Proof. apply length_le_split. Qed.

(** ** The stream operations *)

Lemma file_data_set_stream fs path data :
  file_data (set_stream fs path data) path = data.
Proof. unfold file_data, set_stream. simpl. rewrite lookup_insert_eq. reflexivity. Qed.

Lemma stream_data_set_stream fs path data f :
  f_path f = path -> f_unwritten f = [] ->
  stream_data (set_stream fs path data) f = data.
Proof.
  intros <- Hu. unfold stream_data. rewrite Hu. cbn [foldl].
  apply file_data_set_stream.
Qed.

Lemma stream_data_written fs f :
  f_unwritten f = [] -> stream_data fs f = file_data fs (f_path f).
Proof. intros Hu. unfold stream_data. rewrite Hu. reflexivity. Qed.

Lemma set_stream_twice fs path a b :
  set_stream (set_stream fs path a) path b = set_stream fs path b.
Proof. unfold set_stream. simpl. rewrite insert_insert_eq. reflexivity. Qed.

Lemma set_stream_other fs path data p :
  p <> path -> fs_files (set_stream fs path data) !! p = fs_files fs !! p.
Proof. intros H. unfold set_stream. simpl. apply lookup_insert_ne. congruence. Qed.

(** *** Flushing *)

Lemma fflush_handle fs f : snd (fflush fs f) = mkFILE (f_path f) (f_pos f).
Proof. reflexivity. Qed.

(** After a flush the file holds the bytes of the stream. *)
Lemma file_data_fclose fs f :
  file_data (fclose fs f) (f_path f) = stream_data fs f.
Proof.
  unfold fclose, fflush. cbn [fst]. destruct (f_unwritten f) eqn:Hu.
  - symmetry. apply stream_data_written. exact Hu.
  - apply file_data_set_stream.
Qed.

Lemma stream_data_fclose fs f g :
  f_path g = f_path f -> f_unwritten g = [] ->
  stream_data (fclose fs f) g = stream_data fs f.
Proof.
  intros Hp Hu. rewrite stream_data_written by exact Hu. rewrite Hp.
  apply file_data_fclose.
Qed.

Lemma fclose_written fs f : f_unwritten f = [] -> fclose fs f = fs.
Proof. intros Hu. unfold fclose, fflush. rewrite Hu. reflexivity. Qed.

Lemma fclose_denied fs f : fs_denied (fclose fs f) = fs_denied fs.
Proof. unfold fclose, fflush. destruct (f_unwritten f); reflexivity. Qed.

Lemma fclose_other fs f p :
  p <> f_path f -> fs_files (fclose fs f) !! p = fs_files fs !! p.
Proof.
  intros Hp. unfold fclose, fflush. cbn [fst].
  destruct (f_unwritten f); [reflexivity |]. apply set_stream_other. exact Hp.
Qed.

Lemma set_stream_fclose fs f data :
  set_stream (fclose fs f) (f_path f) data = set_stream fs (f_path f) data.
Proof.
  unfold fclose, fflush. cbn [fst].
  destruct (f_unwritten f); [reflexivity |]. apply set_stream_twice.
Qed.

Lemma fflush_fclose fs f : fflush fs f = (fclose fs f, mkFILE (f_path f) (f_pos f)).
Proof. reflexivity. Qed.

Lemma fseek_nonneg fs f off :
  0 <= off -> fseek fs f off = (fclose fs f, mkFILE (f_path f) (Z.to_nat off), 0).
Proof.
  intros H. unfold fseek. rewrite fflush_fclose.
  destruct (Z.ltb_spec off 0); [lia | reflexivity].
Qed.

Lemma fseek_neg fs f off :
  off < 0 -> fseek fs f off = (fclose fs f, mkFILE (f_path f) (f_pos f), -1).
Proof.
  intros H. unfold fseek. rewrite fflush_fclose.
  destruct (Z.ltb_spec off 0); [reflexivity | lia].
Qed.

Lemma rewind_fclose fs f : rewind fs f = (fclose fs f, mkFILE (f_path f) 0).
Proof. reflexivity. Qed.

(** A whole object written at the current position. *)
Lemma fwrite_whole f obj size :
  (0 < size)%nat -> take (size * 1) obj = take size obj ->
  length (take size obj) = size ->
  fwrite f obj size 1 =
    (openFILE (f_path f) (f_pos f + size)
              (f_unwritten f ++ [(f_pos f, take size obj)]),
     1%nat).
Proof.
  intros Hs Ht Hl. unfold fwrite. rewrite Ht, Hl, Nat.div_same by lia.
  reflexivity.
Qed.

Lemma fwrite_long D f v :
  fwrite f (repr_int (LSZ D) v) 4 1 =
    (openFILE (f_path f) (f_pos f + 4)
              (f_unwritten f ++ [(f_pos f, repr_int 4 v)]),
     1%nat).
Proof.
  unfold fwrite. rewrite take4_repr_long, repr_int_length. reflexivity.
Qed.

(** The bytes of a stream with one more write in its buffer. *)
Lemma stream_data_snoc fs path pos ws w pos' :
  stream_data fs (openFILE path pos' (ws ++ [w]))
  = pwrite (stream_data fs (openFILE path pos ws)) (fst w) (snd w).
Proof.
  unfold stream_data. cbn [f_path f_unwritten]. rewrite foldl_snoc. reflexivity.
Qed.

(** Reading [size] bytes as one item. *)
Lemma fread_item fs f size :
  (0 < size)%nat ->
  fread fs f size 1 =
    (openFILE (f_path f)
              (f_pos f + length (take size (drop (f_pos f) (stream_data fs f))))
              (f_unwritten f),
     take size (drop (f_pos f) (stream_data fs f)),
     if decide (f_pos f + size <= length (stream_data fs f))%nat
     then 1%nat else 0%nat).
Proof.
  intros Hs. unfold fread. rewrite Nat.mul_1_r. f_equal.
  rewrite length_take, length_drop.
  destruct (decide (f_pos f + size <= length (stream_data fs f))%nat).
  - replace (size `min` (length (stream_data fs f) - f_pos f))%nat with size by lia.
    apply Nat.div_same. lia.
  - apply Nat.div_small. lia.
Qed.

(** ** SetTotalFrames *)

Lemma SetTotalFrames_closed D fs s frame :
  recordingFile s = None -> SetTotalFrames D fs s frame = (fs, s).
Proof. intros H. unfold SetTotalFrames. rewrite H. reflexivity. Qed.

Lemma SetTotalFrames_not_greater D fs s frame :
  frame <= totalFrames s -> SetTotalFrames D fs s frame = (fs, s).
Proof.
  intros H. unfold SetTotalFrames. destruct (recordingFile s); [| reflexivity].
  destruct (Z.leb_spec frame (totalFrames s)); [reflexivity | lia].
Qed.

(** The count is written to the stream and stays in its buffer; what was
    unwritten before the call has reached the file. *)
Lemma SetTotalFrames_greater D fs s f frame :
  recordingFile s = Some f -> totalFrames s < frame ->
  SetTotalFrames D fs s frame =
    (fclose fs f,
     set_recordingFile
       (Some (openFILE (f_path f) (sizeof_header D + 4)
                       [(sizeof_header D, repr_int 4 frame)]))
       (set_totalFrames frame s)).
Proof.
  intros Hf Hlt. unfold SetTotalFrames. rewrite Hf.
  destruct (Z.leb_spec frame (totalFrames s)); [lia |].
  unfold seekpointTotalFrames. rewrite fseek_nonneg by lia.
  rewrite fwrite_long. cbn [f_path f_pos f_unwritten mkFILE totalFrames set_totalFrames app].
  rewrite Nat2Z.id. reflexivity.
Qed.

(** The bytes of a stream that was flushed and then written to once. *)
Lemma stream_data_one_write fs f pos' pos bs :
  stream_data (fclose fs f) (openFILE (f_path f) pos' [(pos, bs)])
  = pwrite (stream_data fs f) pos bs.
Proof.
  unfold stream_data at 1. cbn [f_path f_unwritten foldl fst snd].
  rewrite file_data_fclose. reflexivity.
Qed.

(** ** IncrementUndoCount *)

Lemma IncrementUndoCount_closed D fs s :
  recordingFile s = None ->
  IncrementUndoCount D fs s
  = (fs, set_undoCount (wrapU (LB D) (undoCount s + 1)) s).
Proof.
  intros H. unfold IncrementUndoCount. cbn [recordingFile set_undoCount].
  rewrite H. reflexivity.
Qed.

Lemma IncrementUndoCount_open D fs s f :
  recordingFile s = Some f ->
  IncrementUndoCount D fs s =
    (fclose fs f,
     set_recordingFile
       (Some (openFILE (f_path f) (sizeof_header D + 4 + 4)
                       [((sizeof_header D + 4)%nat,
                         repr_int 4 (wrapU (LB D) (undoCount s + 1)))]))
       (set_undoCount (wrapU (LB D) (undoCount s + 1)) s)).
Proof.
  intros Hf. unfold IncrementUndoCount. cbn [recordingFile set_undoCount].
  rewrite Hf. unfold seekpointUndoCount.
  rewrite fseek_nonneg by lia. rewrite fwrite_long.
  cbn [f_path f_pos f_unwritten mkFILE undoCount app].
  replace (Z.to_nat (Z.of_nat (sizeof_header D) + 4)) with (sizeof_header D + 4)%nat
    by lia.
  reflexivity.
Qed.

(** ** The header block *)

(** Writing at the end of a known prefix. *)
Lemma pwrite_after pre rest bs :
  pwrite (pre ++ rest) (length pre) bs = pre ++ bs ++ drop (length bs) rest.
Proof.
  unfold pwrite. rewrite length_app.
  replace (length pre - (length pre + length rest))%nat with 0%nat by lia.
  simpl. rewrite app_nil_r, take_app_length, drop_app_add. reflexivity.
Qed.

Lemma repr_header_length D h :
  header_wf D h -> length (repr_header h) = sizeof_header D.
Proof.
  intros (Ha & Hg & He). unfold repr_header, sizeof_header.
  simpl. rewrite !length_app. lia.
Qed.

Lemma header_block_length D s :
  header_wf D (header s) -> length (header_block D s) = (sizeof_header D + 9)%nat.
Proof.
  intros Hwf. unfold header_block.
  rewrite !length_app, (repr_header_length D) by assumption.
  rewrite !repr_int_length. simpl. lia.
Qed.

Lemma sizeof_header_pos D : (0 < sizeof_header D)%nat.
Proof. unfold sizeof_header. lia. Qed.

(** ** WriteHeader *)

Lemma WriteHeader_closed D fs s :
  recordingFile s = None -> WriteHeader D fs s = (fs, s, false).
Proof. intros H. unfold WriteHeader. rewrite H. reflexivity. Qed.

(** The four objects of the header block written one after the other from
    the start of a file. *)
Lemma header_block_written D s data :
  header_wf D (header s) ->
  pwrite (pwrite (pwrite (pwrite data 0 (repr_header (header s)))
                          (0 + sizeof_header D) (repr_int 4 (totalFrames s)))
                 (0 + sizeof_header D + 4) (repr_int 4 (undoCount s)))
         (0 + sizeof_header D + 4 + 4) (repr_bool (fromSavestate s))
  = header_block D s ++ drop (sizeof_header D + 9) data.
Proof.
  intros Hwf.
  pose proof (repr_header_length D _ Hwf) as HL.
  set (H := repr_header (header s)) in *.
  set (T := repr_int 4 (totalFrames s)).
  set (U := repr_int 4 (undoCount s)).
  set (B := repr_bool (fromSavestate s)).
  assert (HT : length T = 4%nat) by apply repr_int_length.
  assert (HU : length U = 4%nat) by apply repr_int_length.
  rewrite pwrite_0, HL.
  replace (0 + sizeof_header D)%nat with (length H) by lia.
  rewrite pwrite_after, HT.
  replace (length H + 4)%nat with (length (H ++ T)) by (rewrite length_app; lia).
  rewrite (app_assoc H T), pwrite_after, HU.
  replace (length (H ++ T) + 4)%nat with (length ((H ++ T) ++ U))
    by (rewrite !length_app; lia).
  rewrite (app_assoc (H ++ T) U), pwrite_after.
  change (length B) with 1%nat.
  rewrite !drop_drop.
  replace (sizeof_header D + 4 + 4 + 1)%nat with (sizeof_header D + 9)%nat by lia.
  unfold header_block. fold H T U B. rewrite <- !app_assoc. reflexivity.
Qed.

Lemma WriteHeader_open D fs s f :
  recordingFile s = Some f -> header_wf D (header s) ->
  WriteHeader D fs s =
    (set_stream fs (f_path f)
       (header_block D s ++ drop (sizeof_header D + 9) (stream_data fs f)),
     set_recordingFile (Some (mkFILE (f_path f) (sizeof_header D + 9))) s,
     true).
Proof.
  intros Hf Hwf. unfold WriteHeader. rewrite Hf.
  pose proof (repr_header_length D _ Hwf) as HL.
  pose proof (sizeof_header_pos D) as Hpos.
  rewrite rewind_fclose.
  rewrite (fwrite_whole _ (repr_header (header s)) (sizeof_header D))
    by (rewrite ?Nat.mul_1_r, ?take_ge by lia; first [lia | reflexivity]).
  rewrite take_ge by lia.
  cbn [Nat.eqb negb mkFILE f_path f_pos f_unwritten app].
  rewrite fwrite_long.
  cbn [Nat.eqb negb f_path f_pos f_unwritten app].
  rewrite fwrite_long.
  cbn [Nat.eqb negb f_path f_pos f_unwritten app].
  rewrite (fwrite_whole _ (repr_bool (fromSavestate s)) 1)
    by (first [lia | reflexivity]).
  cbn [Nat.eqb negb f_path f_pos f_unwritten app].
  change (take 1 (repr_bool (fromSavestate s))) with (repr_bool (fromSavestate s)).
  unfold fflush. cbn [f_path f_pos f_unwritten].
  unfold stream_data. cbn [f_path f_unwritten foldl fst snd].
  rewrite file_data_fclose.
  rewrite header_block_written by exact Hwf.
  rewrite set_stream_fclose.
  replace (0 + sizeof_header D + 4 + 4 + 1)%nat with (sizeof_header D + 9)%nat
    by lia.
  reflexivity.
Qed.

(** ** verifyRecordingFileHeader *)

Lemma header_of_repr_app D got rest :
  length got = sizeof_header D ->
  header_of_repr D (got ++ rest) = header_of_repr D got.
Proof.
  intros Hl. unfold header_of_repr, sizeof_header in *.
  destruct got as [| v got]; [simpl in Hl; lia |].
  simpl in Hl. cbn [hd app drop skipn].
  rewrite !drop_0. f_equal.
  - rewrite take_app_le by lia. reflexivity.
  - change (1 + authorCap D)%nat with (S (authorCap D)). cbn [drop skipn].
    rewrite drop_app_le by lia. rewrite take_app_le; [reflexivity |].
    rewrite length_drop. lia.
  - change (1 + authorCap D + gameNameCap D)%nat
      with (S (authorCap D + gameNameCap D)). cbn [drop skipn].
    rewrite drop_app_le by lia. rewrite take_app_le; [reflexivity |].
    rewrite length_drop. lia.
Qed.

Lemma header_of_repr_header D h :
  header_wf D h -> header_of_repr D (repr_header h) = h.
Proof.
  intros (Ha & Hg & He). destruct h as [v a g e]. simpl in *.
  unfold header_of_repr, repr_header. cbn [version author gameName emu hd].
  change (1 + authorCap D)%nat with (S (authorCap D)).
  change (1 + authorCap D + gameNameCap D)%nat
    with (S (authorCap D + gameNameCap D)).
  cbn [drop skipn]. rewrite drop_0.
  f_equal.
  - apply take_app_length'. lia.
  - rewrite drop_app_length' by lia. apply take_app_length'. lia.
  - change (S (authorCap D) + gameNameCap D)%nat
      with (S (authorCap D + gameNameCap D)).
    cbn [drop skipn]. rewrite drop_app_ge by lia.
    replace (authorCap D + gameNameCap D - length a)%nat with (length g) by lia.
    rewrite drop_app_length. apply take_ge. lia.
Qed.

Lemma fread_at fs f size data :
  stream_data fs f = data -> f_unwritten f = [] -> (0 < size)%nat ->
  (f_pos f + size <= length data)%nat ->
  fread fs f size 1 =
    (mkFILE (f_path f) (f_pos f + size), take size (drop (f_pos f) data), 1%nat).
Proof.
  intros Hd Hu Hs Hl. rewrite fread_item by assumption. rewrite Hd, Hu.
  destruct (decide (f_pos f + size <= length data)%nat); [| lia].
  rewrite length_take, length_drop.
  replace (size `min` (length data - f_pos f))%nat with size by lia.
  reflexivity.
Qed.

Lemma fread_short fs f size data :
  stream_data fs f = data -> (0 < size)%nat ->
  (length data < f_pos f + size)%nat ->
  exists f' got, fread fs f size 1 = (f', got, 0%nat) /\ f_path f' = f_path f.
Proof.
  intros Hd Hs Hl. rewrite fread_item by assumption. rewrite Hd.
  destruct (decide (f_pos f + size <= length data)%nat); [lia |].
  eexists _, _. split; reflexivity.
Qed.

Lemma overlay_full old got :
  (length old <= length got)%nat -> overlay old got = got.
Proof.
  intros H. unfold overlay. rewrite drop_ge by lia. apply app_nil_r.
Qed.

Lemma bool_of_repr_overlay b got :
  length got = 1%nat -> bool_of_repr (overlay (repr_bool b) got) = bool_of_repr got.
Proof.
  intros H. rewrite overlay_full; [reflexivity |]. simpl. lia.
Qed.

Lemma verify_closed D fs s :
  recordingFile s = None -> verifyRecordingFileHeader D fs s = (fs, s, false).
Proof. intros H. unfold verifyRecordingFileHeader. rewrite H. reflexivity. Qed.

Lemma verify_success D fs s f :
  recordingFile s = Some f ->
  (sizeof_header D + 9 <= length (stream_data fs f))%nat ->
  verifyRecordingFileHeader D fs s
  = (fclose fs f,
     loaded_store D (stream_data fs f) (f_path f) s,
     Byte.eqb (hd Byte.x00 (stream_data fs f)) Byte.x01).
Proof.
  intros Hf Hlen. unfold verifyRecordingFileHeader. rewrite Hf.
  pose proof (sizeof_header_pos D) as Hpos.
  rewrite rewind_fclose.
  assert (Hsd : forall n, stream_data (fclose fs f) (mkFILE (f_path f) n)
                          = stream_data fs f)
    by (intros n; apply stream_data_fclose; reflexivity).
  set (data := stream_data fs f) in *.
  set (hs := sizeof_header D) in *.
  set (fs0 := fclose fs f) in *.
  rewrite (fread_at fs0 (mkFILE (f_path f) 0) hs data)
    by (first [apply Hsd | reflexivity | cbn [mkFILE f_pos]; lia]).
  cbn [Nat.eqb negb mkFILE f_path f_pos].
  rewrite (fread_at fs0 (mkFILE (f_path f) (0 + hs)) 4 data)
    by (first [apply Hsd | reflexivity | cbn [mkFILE f_pos]; lia]).
  cbn [Nat.eqb negb mkFILE f_path f_pos].
  rewrite (fread_at fs0 (mkFILE (f_path f) (0 + hs + 4)) 4 data)
    by (first [apply Hsd | reflexivity | cbn [mkFILE f_pos]; lia]).
  cbn [Nat.eqb negb mkFILE f_path f_pos].
  rewrite (fread_at fs0 (mkFILE (f_path f) (0 + hs + 4 + 4)) 1 data)
    by (first [apply Hsd | reflexivity | cbn [mkFILE f_pos]; lia]).
  cbn [Nat.eqb negb mkFILE f_path f_pos].
  assert (H1 : length (take hs (drop 0 data)) = hs).
  { rewrite length_take, length_drop. lia. }
  assert (Hh : header_of_repr D (overlay (repr_header (header s))
                                         (take hs (drop 0 data)))
               = header_of_repr D (take hs data)).
  { unfold overlay. rewrite header_of_repr_app by exact H1.
    rewrite drop_0. reflexivity. }
  assert (Hv : version (header_of_repr D (take hs data)) = hd Byte.x00 data).
  { unfold header_of_repr. cbn [version].
    destruct data as [| b d]; [reflexivity |].
    destruct hs; [lia | reflexivity]. }
  unfold set_recordingFile, set_fromSavestate, set_undoCount, set_totalFrames,
    set_header.
  cbn [header filename recordingFile fromSavestate totalFrames undoCount].
  rewrite Hh, Hv.
  assert (E : forall A (x y : A) (b : bool),
             (if negb b then (fs0, x, false) else (fs0, y, true))
             = (fs0, if b then y else x, b)).
  { intros A x y []; reflexivity. }
  rewrite E. clear E.
  assert (Hstore :
    forall X : InputRecordingFile,
      X = loaded_store D data (f_path f) s ->
      (fs0, (if Byte.eqb (hd Byte.x00 data) Byte.x01 then X else X),
       Byte.eqb (hd Byte.x00 data) Byte.x01)
      = (fs0, loaded_store D data (f_path f) s,
         Byte.eqb (hd Byte.x00 data) Byte.x01)).
  { intros X ->. destruct (Byte.eqb _ _); reflexivity. }
  apply Hstore.
  unfold loaded_store. fold hs.
  rewrite bool_of_repr_overlay
    by (rewrite length_take, length_drop; lia).
  unfold overlay.
  rewrite !length_take, !length_drop.
  replace (4 `min` (length data - (0 + hs)))%nat with 4%nat by lia.
  replace (4 `min` (length data - (0 + hs + 4)))%nat with 4%nat by lia.
  replace (0 + hs)%nat with hs by lia.
  replace (hs + 4 + 4)%nat with (hs + 8)%nat by lia.
  replace (hs + 8 + 1)%nat with (hs + 9)%nat by lia.
  reflexivity.
Qed.

Ltac split_fread :=
  match goal with
  | |- context [fread ?fs ?f ?a ?b] => destruct (fread fs f a b) as [[? ?] ?]
  end.

(** Whatever it reads, the validation keeps the stream, with nothing
    unwritten, and gives the file system with the stream flushed. *)
Lemma verify_keeps_open D fs s f :
  recordingFile s = Some f ->
  fst (fst (verifyRecordingFileHeader D fs s)) = fclose fs f /\
  exists f', recordingFile (snd (fst (verifyRecordingFileHeader D fs s)))
             = Some f' /\
             f_unwritten f' = [] /\ f_path f' = f_path f.
Proof.
  intros Hf. unfold verifyRecordingFileHeader. rewrite Hf.
  rewrite rewind_fclose. unfold fread. cbn [mkFILE f_path f_pos f_unwritten].
  repeat match goal with
         | |- context [if negb ?b then _ else _] => destruct (negb b)
         end;
    (split; [reflexivity | eexists; split; [reflexivity | split; reflexivity]]).
Qed.

Lemma verify_short D fs s f :
  recordingFile s = Some f ->
  (length (stream_data fs f) < sizeof_header D + 9)%nat ->
  snd (verifyRecordingFileHeader D fs s) = false.
Proof.
  intros Hf Hlen. unfold verifyRecordingFileHeader. rewrite Hf.
  pose proof (sizeof_header_pos D) as Hpos.
  rewrite rewind_fclose.
  assert (Hsd : forall n, stream_data (fclose fs f) (mkFILE (f_path f) n)
                          = stream_data fs f)
    by (intros n; apply stream_data_fclose; reflexivity).
  set (data := stream_data fs f) in *.
  set (hs := sizeof_header D) in *.
  set (fs0 := fclose fs f) in *.
  destruct (decide (hs <= length data)%nat) as [H1 | H1].
  2: { destruct (fread_short fs0 (mkFILE (f_path f) 0) hs data)
         as (f' & got & -> & _);
       [apply Hsd | lia | cbn [mkFILE f_pos]; lia |]. reflexivity. }
  rewrite (fread_at fs0 (mkFILE (f_path f) 0) hs data)
    by (first [apply Hsd | reflexivity | cbn [mkFILE f_pos]; lia]).
  cbn [Nat.eqb negb mkFILE f_path f_pos].
  destruct (decide (hs + 4 <= length data)%nat) as [H2 | H2].
  2: { destruct (fread_short fs0 (mkFILE (f_path f) (0 + hs)) 4 data)
         as (f' & got & -> & _);
       [apply Hsd | lia | cbn [mkFILE f_pos]; lia |]. reflexivity. }
  rewrite (fread_at fs0 (mkFILE (f_path f) (0 + hs)) 4 data)
    by (first [apply Hsd | reflexivity | cbn [mkFILE f_pos]; lia]).
  cbn [Nat.eqb negb mkFILE f_path f_pos].
  destruct (decide (hs + 8 <= length data)%nat) as [H3 | H3].
  2: { destruct (fread_short fs0 (mkFILE (f_path f) (0 + hs + 4)) 4 data)
         as (f' & got & -> & _);
       [apply Hsd | lia | cbn [mkFILE f_pos]; lia |]. reflexivity. }
  rewrite (fread_at fs0 (mkFILE (f_path f) (0 + hs + 4)) 4 data)
    by (first [apply Hsd | reflexivity | cbn [mkFILE f_pos]; lia]).
  cbn [Nat.eqb negb mkFILE f_path f_pos].
  destruct (fread_short fs0 (mkFILE (f_path f) (0 + hs + 4 + 4)) 1 data)
    as (f' & got & -> & _);
    [apply Hsd | lia | cbn [mkFILE f_pos]; lia |]. reflexivity.
Qed.

(** ** open *)

Lemma wxFopen_denied fs path mode :
  path ∈ fs_denied fs -> wxFopen fs path mode = (fs, None).
Proof.
  intros H. unfold wxFopen. destruct (decide (path ∈ fs_denied fs)); [| contradiction].
  reflexivity.
Qed.

Lemma wxFopen_none_write fs path :
  snd (wxFopen fs path WBplus) = None -> wxFopen fs path WBplus = (fs, None).
Proof.
  unfold wxFopen. destruct (decide (path ∈ fs_denied fs)); [reflexivity |].
  discriminate.
Qed.

Lemma wxFopen_existing fs path data :
  path ∉ fs_denied fs -> fs_files fs !! path = Some data ->
  wxFopen fs path RBplus = (fs, Some (mkFILE path 0)).
Proof.
  intros Hd Hf. unfold wxFopen.
  destruct (decide (path ∈ fs_denied fs)); [contradiction |].
  rewrite Hf. reflexivity.
Qed.

Lemma file_data_lookup fs path data :
  fs_files fs !! path = Some data -> file_data fs path = data.
Proof. intros H. unfold file_data. rewrite H. reflexivity. Qed.

Lemma stream_data_lookup fs path pos data :
  fs_files fs !! path = Some data -> stream_data fs (mkFILE path pos) = data.
Proof. apply file_data_lookup. Qed.

Lemma OpenExisting_valid D fs s path data :
  path ∉ fs_denied fs -> fs_files fs !! path = Some data ->
  (sizeof_header D + 9 <= length data)%nat ->
  hd Byte.x00 data = Byte.x01 ->
  OpenExisting D fs s path
  = (fs, set_filename path (loaded_store D data path s), true).
Proof.
  intros Hd Hf Hlen Hv. unfold OpenExisting, open.
  rewrite (wxFopen_existing fs path data) by assumption.
  rewrite (verify_success D fs _ (mkFILE path 0)).
  2: reflexivity.
  2: { rewrite (stream_data_lookup fs path 0 data) by assumption. exact Hlen. }
  rewrite (stream_data_lookup fs path 0 data) by assumption.
  rewrite Hv. reflexivity.
Qed.

Lemma OpenExisting_invalid D fs s path data :
  path ∉ fs_denied fs -> fs_files fs !! path = Some data ->
  ((length data < sizeof_header D + 9)%nat \/ hd Byte.x00 data <> Byte.x01) ->
  exists s', OpenExisting D fs s path = (fs, s', false) /\
             recordingFile s' = None /\ filename s' = ""%string.
Proof.
  intros Hd Hf Hbad. unfold OpenExisting, open.
  rewrite (wxFopen_existing fs path data) by assumption.
  set (s1 := set_recordingFile (Some (mkFILE path 0)) s).
  assert (Hs1 : recordingFile s1 = Some (mkFILE path 0)) by reflexivity.
  destruct (verify_keeps_open D fs s1 _ Hs1) as (Hfs & f' & Hopen & Hu & _).
  assert (Hfalse : snd (verifyRecordingFileHeader D fs s1) = false).
  { destruct (decide (sizeof_header D + 9 <= length data)%nat) as [Hl | Hl].
    - rewrite (verify_success D fs s1 (mkFILE path 0) Hs1)
        by (rewrite (stream_data_lookup fs path 0 data) by assumption; exact Hl).
      cbn [snd]. rewrite (stream_data_lookup fs path 0 data) by assumption.
      destruct Hbad as [Hbad | Hbad]; [lia |].
      destruct (Byte.eqb (hd Byte.x00 data) Byte.x01) eqn:E; [| reflexivity].
      apply Byte.byte_dec_bl in E. contradiction.
    - apply (verify_short D fs s1 (mkFILE path 0) Hs1).
      rewrite (stream_data_lookup fs path 0 data) by assumption. lia. }
  destruct (verifyRecordingFileHeader D fs s1) as [[fs2 s2] ok].
  cbn [fst snd] in *. subst ok. subst fs2.
  unfold Close. rewrite Hopen.
  rewrite (fclose_written _ f') by exact Hu.
  eexists. split; [reflexivity |]. split; reflexivity.
Qed.

(** ** Counters as four bytes *)

Lemma wrapS_congr bits z : 0 < bits -> exists k, wrapS bits z = z + k * 2 ^ bits.
Proof.
  intros Hb. unfold wrapS.
  exists (- ((z + 2 ^ (bits - 1)) / 2 ^ bits)).
  assert (0 < 2 ^ bits) by (apply Z.pow_pos_nonneg; lia).
  pose proof (Z.div_mod (z + 2 ^ (bits - 1)) (2 ^ bits)). lia.
Qed.

Lemma wrapS_mod32 bits z :
  32 <= bits -> wrapS bits z mod 2 ^ 32 = z mod 2 ^ 32.
Proof.
  intros Hb. destruct (wrapS_congr bits z) as [k ->]; [lia |].
  replace bits with (32 + (bits - 32)) by lia.
  rewrite Z.pow_add_r by lia.
  rewrite Z.mul_assoc, (Z.mul_comm (k * 2 ^ 32)), Z.mul_assoc.
  apply Z.mod_add. lia.
Qed.

Lemma le_combine_low4 (lo hi : list byte) :
  length lo = 4%nat -> le_combine (lo ++ hi) mod 2 ^ 32 = le_combine lo.
Proof.
  intros Hl. change (2 ^ 32) with (2 ^ (8 * Z.of_nat 4)).
  rewrite <- le_combine_firstn.
  change (firstn 4 (lo ++ hi)) with (take 4 (lo ++ hi)).
  rewrite take_app_length' by (symmetry; exact Hl). reflexivity.
Qed.

Lemma le_combine_repr4 v : le_combine (repr_int 4 v) = v mod 2 ^ 32.
Proof. unfold repr_int. rewrite le_combine_split. reflexivity. Qed.

Lemma signed_low4 hi v :
  (4 + length hi = 4 \/ 4 + length hi = 8)%nat ->
  signed_of_repr (repr_int 4 v ++ hi) mod 2 ^ 32 = v mod 2 ^ 32.
Proof.
  intros Hl. unfold signed_of_repr.
  rewrite wrapS_mod32.
  - rewrite le_combine_low4 by apply repr_int_length. apply le_combine_repr4.
  - rewrite length_app, repr_int_length. lia.
Qed.

Lemma unsigned_low4 hi v :
  unsigned_of_repr (repr_int 4 v ++ hi) mod 2 ^ 32 = v mod 2 ^ 32.
Proof.
  unfold unsigned_of_repr.
  rewrite le_combine_low4 by apply repr_int_length. apply le_combine_repr4.
Qed.

Lemma repr_int_zero n : repr_int n 0 = List.repeat Byte.x00 n.
Proof.
  unfold repr_int. induction n as [| n IH]; [reflexivity |].
  change (le_split (S n) 0) with (byte.of_Z 0 :: le_split n (Z.shiftr 0 8)).
  rewrite Z.shiftr_0_l, IH. reflexivity.
Qed.

Lemma drop4_repr_small D old :
  0 <= old < 2 ^ 32 ->
  drop 4 (repr_int (LSZ D) old) = List.repeat Byte.x00 (LSZ D - 4).
Proof.
  intros Ho. unfold repr_int.
  change (drop 4 (le_split (LSZ D) old)) with (skipn 4 (le_split (LSZ D) old)).
  rewrite skipn_le_split by (unfold LSZ; destruct (lw D); simpl; lia).
  replace (Z.shiftr old (8 * Z.of_nat 4)) with 0.
  - apply repr_int_zero.
  - rewrite Z.shiftr_div_pow2 by lia. symmetry. apply Z.div_small.
    change (2 ^ (8 * Z.of_nat 4)) with (2 ^ 32). lia.
Qed.

Lemma unsigned_fresh D v old :
  0 <= old < 2 ^ 32 ->
  unsigned_of_repr (repr_int 4 v ++ drop 4 (repr_int (LSZ D) old)) = v mod 2 ^ 32.
Proof.
  intros Ho. unfold unsigned_of_repr. rewrite drop4_repr_small by exact Ho.
  rewrite le_combine_app_0. apply le_combine_repr4.
Qed.

Lemma drop4_repr_long_length D v : length (drop 4 (repr_int (LSZ D) v)) = (LSZ D - 4)%nat.
Proof. rewrite length_drop, repr_int_length. reflexivity. Qed.

Lemma signed_fresh D v old :
  0 <= old < 2 ^ 32 ->
  signed_of_repr (repr_int 4 v ++ drop 4 (repr_int (LSZ D) old))
  = wrapS (LB D) (v mod 2 ^ 32).
Proof.
  intros Ho. unfold signed_of_repr.
  rewrite length_app, repr_int_length, drop4_repr_long_length.
  rewrite drop4_repr_small by exact Ho.
  rewrite le_combine_app_0, le_combine_repr4.
  f_equal. unfold LB, long_bits, LSZ. destruct (lw D); reflexivity.
Qed.

(** The low four bytes of one value under the upper bytes of another. *)
Lemma lor_shiftl_add x y n :
  0 <= n -> 0 <= x < 2 ^ n -> Z.lor x (Z.shiftl y n) = x + 2 ^ n * y.
Proof.
  intros Hn Hx.
  replace (2 ^ n * y) with (Z.shiftl y n)
    by (rewrite Z.shiftl_mul_pow2 by exact Hn; lia).
  rewrite <- (Z.add_lor_land x (Z.shiftl y n)).
  replace (Z.land x (Z.shiftl y n)) with 0.
  - lia.
  - symmetry. apply Z.bits_inj'. intros i Hi.
    rewrite Z.land_spec, Z.bits_0.
    destruct (Z.lt_ge_cases i n) as [Hlt | Hge].
    + rewrite Z.shiftl_spec_low by exact Hlt. apply andb_false_r.
    + rewrite <- (Z.mod_small x (2 ^ n)) by exact Hx.
      rewrite Z.mod_pow2_bits_high by lia. reflexivity.
Qed.

Lemma le_combine_low_high D a b :
  le_combine (repr_int 4 a ++ drop 4 (repr_int (LSZ D) b))
  = a mod 2 ^ 32 + 2 ^ 32 * ((b / 2 ^ 32) mod 2 ^ (LB D - 32)).
Proof.
  rewrite le_combine_app, repr_int_length.
  change (Z.of_nat 4 * 8) with 32.
  rewrite le_combine_repr4.
  rewrite lor_shiftl_add by (first [lia | apply Z.mod_pos_bound; lia]).
  f_equal. f_equal. unfold repr_int.
  change (drop 4 (le_split (LSZ D) b)) with (skipn 4 (le_split (LSZ D) b)).
  rewrite skipn_le_split by (unfold LSZ; destruct (lw D); simpl; lia).
  rewrite le_combine_split.
  change (8 * Z.of_nat 4) with 32.
  rewrite Z.shiftr_div_pow2 by lia.
  f_equal. f_equal. unfold LB, long_bits, LSZ. destruct (lw D); reflexivity.
Qed.

Lemma low_high_congr D a q :
  exists k, a + 2 ^ 32 * (q mod 2 ^ (LB D - 32))
            = a + 2 ^ 32 * q + k * 2 ^ LB D.
Proof.
  exists (- (q / 2 ^ (LB D - 32))).
  destruct (LB_cases D) as [-> | ->].
  - change (2 ^ (32 - 32)) with 1. rewrite Z.mod_1_r, Z.div_1_r. lia.
  - change (2 ^ (64 - 32)) with (2 ^ 32).
    change (2 ^ 64) with (2 ^ 32 * 2 ^ 32).
    pose proof (Z.div_mod q (2 ^ 32) ltac:(lia)). lia.
Qed.

(** What a counter holds after four bytes of the file were read into it:
    the low four bytes of the value in the file under the upper bytes it
    held. *)
Lemma reload_unsigned D a b :
  unsigned_of_repr (repr_int 4 a ++ drop 4 (repr_int (LSZ D) b))
  = wrapU (LB D) (a mod 2 ^ 32 + 2 ^ 32 * (b / 2 ^ 32)).
Proof.
  unfold unsigned_of_repr. rewrite le_combine_low_high.
  destruct (low_high_congr D (a mod 2 ^ 32) (b / 2 ^ 32)) as [k Hk].
  assert (Hr : wrapU (LB D) (a mod 2 ^ 32 + 2 ^ 32 * (b / 2 ^ 32))
               = wrapU (LB D) (a mod 2 ^ 32
                               + 2 ^ 32 * ((b / 2 ^ 32) mod 2 ^ (LB D - 32)))).
  { rewrite Hk. unfold wrapU. symmetry. apply Z.mod_add.
    pose proof (LB_pos D). apply Z.pow_nonzero; lia. }
  rewrite Hr. symmetry. apply wrapU_small.
  pose proof (Z.mod_pos_bound a (2 ^ 32) ltac:(lia)) as Ha.
  destruct (LB_cases D) as [-> | ->].
  - change (2 ^ (32 - 32)) with 1. rewrite Z.mod_1_r. lia.
  - change (2 ^ (64 - 32)) with (2 ^ 32).
    pose proof (Z.mod_pos_bound (b / 2 ^ 32) (2 ^ 32) ltac:(lia)) as Hq.
    change (2 ^ 64) with (2 ^ 32 * 2 ^ 32). nia.
Qed.

Lemma reload_signed D a b :
  signed_of_repr (repr_int 4 a ++ drop 4 (repr_int (LSZ D) b))
  = wrapS (LB D) (a mod 2 ^ 32 + 2 ^ 32 * (b / 2 ^ 32)).
Proof.
  unfold signed_of_repr.
  rewrite length_app, repr_int_length, drop4_repr_long_length.
  replace (8 * Z.of_nat (4 + (LSZ D - 4))) with (LB D)
    by (unfold LB, long_bits, LSZ; destruct (lw D); reflexivity).
  rewrite le_combine_low_high.
  destruct (low_high_congr D (a mod 2 ^ 32) (b / 2 ^ 32)) as [k ->].
  unfold wrapS. f_equal.
  replace (a mod 2 ^ 32 + 2 ^ 32 * (b / 2 ^ 32) + k * 2 ^ LB D + 2 ^ (LB D - 1))
    with (a mod 2 ^ 32 + 2 ^ 32 * (b / 2 ^ 32) + 2 ^ (LB D - 1) + k * 2 ^ LB D)
    by lia.
  apply Z.mod_add. pose proof (LB_pos D). apply Z.pow_nonzero; lia.
Qed.

(** ** The header block in a file *)

Lemma bool_of_repr_bool b : bool_of_repr (repr_bool b) = b.
Proof. destruct b; reflexivity. Qed.

Section Block.
Context (D : Decls) (w : InputRecordingFile) (rest : list byte).
Hypothesis Hwf : header_wf D (header w).

Let data := header_block D w ++ rest.

Lemma block_header : take (sizeof_header D) data = repr_header (header w).
Proof.
  unfold data, header_block. rewrite <- app_assoc.
  apply take_app_length'. symmetry. apply repr_header_length. exact Hwf.
Qed.

Lemma block_totalFrames :
  take 4 (drop (sizeof_header D) data) = repr_int 4 (totalFrames w).
Proof.
  unfold data, header_block. rewrite <- app_assoc.
  rewrite drop_app_length' by (symmetry; apply repr_header_length; exact Hwf).
  rewrite <- app_assoc. apply take_app_length'. symmetry. apply repr_int_length.
Qed.

Lemma block_undoCount :
  take 4 (drop (sizeof_header D + 4) data) = repr_int 4 (undoCount w).
Proof.
  unfold data, header_block. rewrite <- app_assoc.
  rewrite <- (repr_header_length D (header w) Hwf).
  rewrite drop_app_add, <- app_assoc.
  rewrite drop_app_length' by (symmetry; apply repr_int_length).
  rewrite <- app_assoc. apply take_app_length'. symmetry. apply repr_int_length.
Qed.

Lemma block_fromSavestate :
  take 1 (drop (sizeof_header D + 8) data) = repr_bool (fromSavestate w).
Proof.
  unfold data, header_block. rewrite <- app_assoc.
  rewrite <- (repr_header_length D (header w) Hwf).
  rewrite drop_app_add, <- app_assoc.
  change 8%nat with (length (repr_int 4 (totalFrames w)) + 4)%nat.
  rewrite drop_app_add, <- app_assoc.
  rewrite drop_app_length' by (symmetry; apply repr_int_length).
  reflexivity.
Qed.

Lemma block_length : (sizeof_header D + 9 <= length data)%nat.
Proof.
  unfold data. rewrite length_app, header_block_length by exact Hwf. lia.
Qed.

Lemma block_version : hd Byte.x00 data = version (header w).
Proof. reflexivity. Qed.

Lemma loaded_block path r :
  loaded_store D data path r
  = mkStore (header w) (filename r)
      (Some (mkFILE path (sizeof_header D + 9)))
      (fromSavestate w)
      (signed_of_repr (repr_int 4 (totalFrames w)
                       ++ drop 4 (repr_int (LSZ D) (totalFrames r))))
      (unsigned_of_repr (repr_int 4 (undoCount w)
                         ++ drop 4 (repr_int (LSZ D) (undoCount r)))).
Proof.
  unfold loaded_store.
  rewrite block_header, block_totalFrames, block_undoCount,
    block_fromSavestate.
  rewrite header_of_repr_header by exact Hwf.
  rewrite bool_of_repr_bool. reflexivity.
Qed.
End Block.

(** ** A field of a file *)


(** ** The in-memory state and the file stay together *)

Lemma file_synced_stream D fs s : file_synced D fs s -> stream_synced D fs s.
Proof.
  intros (f & rest & Hf & Hu & Hwf & Hd). exists f, rest.
  split; [exact Hf |]. split; [exact Hwf |].
  rewrite stream_data_written by exact Hu. exact Hd.
Qed.

Lemma WriteHeader_synced D fs s f :
  recordingFile s = Some f -> header_wf D (header s) ->
  exists fs' s',
    WriteHeader D fs s = (fs', s', true) /\ file_synced D fs' s' /\
    header s' = header s /\ totalFrames s' = totalFrames s /\
    undoCount s' = undoCount s /\ fromSavestate s' = fromSavestate s /\
    (exists f', recordingFile s' = Some f' /\ f_path f' = f_path f) /\
    fs_denied fs' = fs_denied fs.
Proof.
  intros Hf Hwf. rewrite (WriteHeader_open D fs s f) by assumption.
  eexists _, _. split; [reflexivity |]. split.
  - eexists _, _. split; [reflexivity |]. split; [reflexivity |].
    split; [exact Hwf |].
    cbn [mkFILE f_path]. rewrite file_data_set_stream. reflexivity.
  - repeat (split; [reflexivity |]). split; [| reflexivity].
    eexists. split; reflexivity.
Qed.

Lemma SetTotalFrames_synced D fs s frame :
  stream_synced D fs s ->
  stream_synced D (fst (SetTotalFrames D fs s frame))
                  (snd (SetTotalFrames D fs s frame)).
Proof.
  intros (f & rest & Hf & Hwf & Hd).
  destruct (Z.le_gt_cases frame (totalFrames s)) as [Hle | Hgt].
  - rewrite SetTotalFrames_not_greater by assumption.
    exists f, rest. auto.
  - rewrite (SetTotalFrames_greater D fs s f) by assumption. cbn [fst snd].
    eexists _, rest. split; [reflexivity |]. split; [exact Hwf |].
    rewrite stream_data_one_write.
    rewrite Hd. unfold header_block.
    cbn [header totalFrames undoCount fromSavestate set_recordingFile
         set_totalFrames].
    rewrite <- (repr_header_length D (header s) Hwf), <- !app_assoc.
    rewrite (pwrite_inside (repr_header (header s)) (repr_int 4 (totalFrames s)))
      by (rewrite !repr_int_length; reflexivity).
    reflexivity.
Qed.

Lemma IncrementUndoCount_synced D fs s :
  stream_synced D fs s ->
  stream_synced D (fst (IncrementUndoCount D fs s))
                  (snd (IncrementUndoCount D fs s)).
Proof.
  intros (f & rest & Hf & Hwf & Hd).
  rewrite (IncrementUndoCount_open D fs s f) by assumption. cbn [fst snd].
  eexists _, rest. split; [reflexivity |]. split; [exact Hwf |].
  rewrite stream_data_one_write.
  rewrite Hd. unfold header_block.
  cbn [header totalFrames undoCount fromSavestate set_recordingFile
       set_undoCount].
  rewrite <- !app_assoc.
  replace (sizeof_header D + 4)%nat
    with (length (repr_header (header s) ++ repr_int 4 (totalFrames s)))
    by (rewrite length_app, repr_int_length,
          (repr_header_length D (header s) Hwf); reflexivity).
  rewrite (app_assoc (repr_header (header s)) (repr_int 4 (totalFrames s))).
  rewrite (pwrite_inside _ (repr_int 4 (undoCount s)))
    by (rewrite !repr_int_length; reflexivity).
  rewrite <- !app_assoc. reflexivity.
Qed.

(** A file that holds a header block is there. *)
Lemma block_lookup D fs path w rest :
  header_wf D (header w) ->
  file_data fs path = header_block D w ++ rest ->
  fs_files fs !! path = Some (header_block D w ++ rest).
Proof.
  intros Hwf Hd. unfold file_data in Hd.
  destruct (fs_files fs !! path) as [d |] eqn:E.
  - simpl in Hd. rewrite Hd. reflexivity.
  - apply (f_equal length) in Hd.
    rewrite length_app, header_block_length in Hd by exact Hwf.
    change (length (default [] None)) with 0%nat in Hd. lia.
Qed.

Lemma synced_lookup D fs s f :
  file_synced D fs s -> recordingFile s = Some f ->
  exists rest, fs_files fs !! f_path f = Some (header_block D s ++ rest)
               /\ header_wf D (header s).
Proof.
  intros (f0 & rest & Hf0 & Hu & Hwf & Hd) Hf.
  rewrite Hf in Hf0. injection Hf0 as <-.
  exists rest. split; [| exact Hwf].
  apply block_lookup; assumption.
Qed.

(** A store opens a file that holds the header block of [w]. *)
Lemma reopen_block D fs w path rest r :
  header_wf D (header w) ->
  fs_files fs !! path = Some (header_block D w ++ rest) ->
  version (header w) = Byte.x01 -> path ∉ fs_denied fs ->
  OpenExisting D fs r path
  = (fs,
     mkStore (header w) path
       (Some (mkFILE path (sizeof_header D + 9)))
       (fromSavestate w)
       (signed_of_repr (repr_int 4 (totalFrames w)
                        ++ drop 4 (repr_int (LSZ D) (totalFrames r))))
       (unsigned_of_repr (repr_int 4 (undoCount w)
                          ++ drop 4 (repr_int (LSZ D) (undoCount r)))),
     true).
Proof.
  intros Hwf Hl Hv Hd.
  rewrite (OpenExisting_valid D fs r path _ Hd Hl).
  - rewrite loaded_block by exact Hwf. reflexivity.
  - apply block_length. exact Hwf.
  - rewrite block_version. exact Hv.
Qed.

Lemma reopen_synced D fs s f r :
  file_synced D fs s -> recordingFile s = Some f ->
  version (header s) = Byte.x01 -> f_path f ∉ fs_denied fs ->
  OpenExisting D fs r (f_path f)
  = (fs,
     mkStore (header s) (f_path f)
       (Some (mkFILE (f_path f) (sizeof_header D + 9)))
       (fromSavestate s)
       (signed_of_repr (repr_int 4 (totalFrames s)
                        ++ drop 4 (repr_int (LSZ D) (totalFrames r))))
       (unsigned_of_repr (repr_int 4 (undoCount s)
                          ++ drop 4 (repr_int (LSZ D) (undoCount r)))),
     true).
Proof.
  intros Hs Hf Hv Hd.
  destruct (synced_lookup D fs s f Hs Hf) as (rest & Hl & Hwf).
  apply (reopen_block D fs s (f_path f) rest r); assumption.
Qed.

(** ** Flushed file systems *)

Lemma fclose_flushed fs f : flushed fs f (fclose fs f).
Proof.
  split; [apply file_data_fclose |].
  split; [intros p Hp; apply fclose_other; exact Hp |].
  split; [apply fclose_denied | apply fclose_written].
Qed.

(** ** Close *)

Lemma Close_closed fs s : recordingFile s = None -> Close fs s = (fs, s, false).
Proof. intros H. unfold Close. rewrite H. reflexivity. Qed.

Lemma Close_open fs s f :
  recordingFile s = Some f ->
  Close fs s = (fclose fs f, set_filename "" (set_recordingFile None s), true).
Proof. intros H. unfold Close. rewrite H. reflexivity. Qed.

(** After [Close] the file holds the header block that the stream held. *)
Lemma Close_block D fs s f :
  stream_synced D fs s -> recordingFile s = Some f ->
  exists rest,
    fs_files (fst (fst (Close fs s))) !! f_path f
    = Some (header_block D s ++ rest).
Proof.
  intros (f0 & rest & Hf0 & Hwf & Hd) Hf.
  rewrite Hf in Hf0. injection Hf0 as <-.
  rewrite (Close_open fs s f Hf). cbn [fst].
  exists rest. apply block_lookup; [exact Hwf |].
  rewrite file_data_fclose. exact Hd.
Qed.

(** ** Init and OpenNew *)

Lemma memset_whole buf c n : (length buf <= n)%nat -> memset buf c n = replicate n c.
Proof. intros H. unfold memset. rewrite drop_ge by lia. apply app_nil_r. Qed.

Lemma OpenNew_success D fs s path b fs' s' :
  OpenNew D fs s path b = (fs', s', true) -> header s' = Init D (header s).
Proof.
  unfold OpenNew, open.
  destruct (wxFopen fs path WBplus) as [fs1 [f |]]; cbn; intros [= <- <-];
    reflexivity.
Qed.

(** ** Bulk reads *)

(** One turn of the loop flushes the stream and leaves nothing unwritten. *)
Lemma bulk_step_stream D port frame fs f pb (data : gmap Z (list byte)) :
  exists f' pb' data',
    bulk_step D port frame (fs, f, pb, data) = (fclose fs f, f', pb', data') /\
    f_path f' = f_path f /\ f_unwritten f' = [].
Proof.
  unfold bulk_step, fseek. rewrite fflush_fclose.
  destruct (BulkReadPadData_seek D frame port <? 0); unfold fread;
    cbn [mkFILE f_path f_pos f_unwritten];
    destruct (negb _); eexists _, _, _;
      (split; [reflexivity | split; reflexivity]).
Qed.

Lemma bulk_loop_stream D port n : forall frame fs f pb (data : gmap Z (list byte)),
  exists f' pb' data',
    bulk_loop D port n frame (fs, f, pb, data)
    = (match n with O => fs | S _ => fclose fs f end, f', pb', data') /\
    f_path f' = f_path f /\
    (f_unwritten f = [] -> f_unwritten f' = []) /\
    ((0 < n)%nat -> f_unwritten f' = []).
Proof.
  induction n as [| n IH]; intros frame fs f pb data.
  - exists f, pb, data. split; [reflexivity |]. split; [reflexivity |].
    split; [auto | lia].
  - cbn [bulk_loop].
    destruct (bulk_step_stream D port frame fs f pb data)
      as (f1 & pb1 & data1 & -> & Hp1 & Hu1).
    destruct (IH (frame + 1) (fclose fs f) f1 pb1 data1)
      as (f' & pb' & data' & E & Hp' & Hk & _).
    exists f', pb', data'. split.
    + rewrite E. destruct n; [reflexivity |].
      rewrite (fclose_written _ f1) by exact Hu1. reflexivity.
    + split; [congruence |]. split; intros _; apply Hk; exact Hu1.
Qed.

Lemma bulk_step_empty D port frame fs f pb :
  stream_data fs f = [] ->
  exists f', bulk_step D port frame (fs, f, pb, ∅) = (fclose fs f, f', pb, ∅)
             /\ f_path f' = f_path f /\ f_unwritten f' = []
             /\ stream_data (fclose fs f) f' = [].
Proof.
  intros He. unfold bulk_step, fseek. rewrite fflush_fclose.
  assert (Hsd : forall n, stream_data (fclose fs f) (openFILE (f_path f) n []) = [])
    by (intros n; rewrite stream_data_fclose by reflexivity; exact He).
  destruct (BulkReadPadData_seek D frame port <? 0); unfold fread, mkFILE;
    cbn [f_path f_pos f_unwritten];
    rewrite Hsd, drop_nil, take_nil; cbn;
    (eexists; split; [reflexivity |]; split; [reflexivity |];
     split; [reflexivity | apply Hsd]).
Qed.

Lemma bulk_loop_empty D port n : forall frame fs f pb,
  stream_data fs f = [] ->
  exists fs' f', bulk_loop D port n frame (fs, f, pb, ∅) = (fs', f', pb, ∅)
                 /\ f_path f' = f_path f.
Proof.
  induction n as [| n IH]; intros frame fs f pb He.
  - exists fs, f. split; reflexivity.
  - cbn [bulk_loop].
    destruct (bulk_step_empty D port frame fs f pb He) as (f1 & -> & Hp & _ & He1).
    destruct (IH (frame + 1) (fclose fs f) f1 pb He1) as (fs2 & f2 & E & Hp2).
    exists fs2, f2. split; [exact E | congruence].
Qed.

(** ** Single bytes *)

Lemma seek_write_read D frame port bufIndex :
  controllerInputBytes D = 18%nat ->
  WriteKeyBuffer_seek D frame port bufIndex = ReadKeyBuffer_seek D frame port bufIndex.
Proof.
  intros Hcib. unfold WriteKeyBuffer_seek, ReadKeyBuffer_seek.
  rewrite Hcib. reflexivity.
Qed.

Lemma ReadKeyBuffer_seek_exact D frame port bufIndex :
  decls_wf D -> valid_triple D frame port bufIndex ->
  ReadKeyBuffer_seek D frame port bufIndex = byteOffset D frame port bufIndex /\
  0 <= byteOffset D frame port bufIndex
  < frameRecordOffset D frame + inputBytesPerFrame D.
Proof.
  intros (_ & Hint) (Hfr & Hport & Hidx & Hmax).
  pose proof (LB_pos D) as HLB. pose proof (pow_LB_ge D) as Hpow.
  unfold ReadKeyBuffer_seek, byteOffset, frameRecordOffset,
    getRecordingBlockSeekPoint, to_long.
  unfold inputBytesPerFrame, headerSize in *.
  set (hs := Z.of_nat (sizeof_header D)) in *.
  set (ports := Z.of_nat (controllerPortsSupported D)) in *.
  set (cib := Z.of_nat (controllerInputBytes D)) in *.
  set (M := 2 ^ (LB D - 1)) in *.
  assert (Hhs : 0 <= hs) by (unfold hs; lia).
  assert (Hcib : 0 < cib) by lia.
  assert (Hpp : cib * port + cib <= cib * ports) by nia.
  assert (Hfp : 0 <= frame * (cib * ports)) by nia.
  assert (Hfr' : frame < M) by nia.
  assert (Hcp : 0 <= cib * port < 2 ^ 32) by nia.
  rewrite (wrapS_small (LB D) frame) by lia.
  rewrite (wrapS_small (LB D) (hs + 4 + 4 + 1 + frame * (cib * ports)))
    by (fold M; nia).
  rewrite (wrapU_small 32 (cib * port)) by exact Hcp.
  rewrite (wrapS_small (LB D)) by (fold M; nia).
  split; [lia |]. nia.
Qed.

Lemma WriteKeyBuffer_closed D fs s frame port bufIndex buf :
  recordingFile s = None ->
  WriteKeyBuffer D fs s frame port bufIndex buf = (fs, s, false).
Proof. intros H. unfold WriteKeyBuffer. rewrite H. reflexivity. Qed.

(** A refused offset: the stream is flushed and stays where it was. *)
Lemma WriteKeyBuffer_negative D fs s f frame port bufIndex buf :
  recordingFile s = Some f -> WriteKeyBuffer_seek D frame port bufIndex < 0 ->
  WriteKeyBuffer D fs s frame port bufIndex buf
  = (fclose fs f, set_recordingFile (Some (mkFILE (f_path f) (f_pos f))) s,
     false).
Proof.
  intros Hf Hn. unfold WriteKeyBuffer. rewrite Hf.
  rewrite fseek_neg by exact Hn. reflexivity.
Qed.

Lemma WriteKeyBuffer_at D fs s f frame port bufIndex buf :
  recordingFile s = Some f -> 0 <= WriteKeyBuffer_seek D frame port bufIndex ->
  WriteKeyBuffer D fs s frame port bufIndex buf =
    (set_stream fs (f_path f)
       (pwrite (stream_data fs f)
               (Z.to_nat (WriteKeyBuffer_seek D frame port bufIndex)) [buf]),
     set_recordingFile
       (Some (mkFILE (f_path f)
                (Z.to_nat (WriteKeyBuffer_seek D frame port bufIndex) + 1))) s,
     true).
Proof.
  intros Hf Hs. unfold WriteKeyBuffer. rewrite Hf.
  rewrite fseek_nonneg by exact Hs.
  unfold fwrite, fflush.
  cbn [mkFILE f_path f_pos f_unwritten app take length Nat.mul Nat.add
       Nat.div Nat.eqb negb].
  change (1 / 1)%nat with 1%nat. cbn [Nat.eqb negb].
  rewrite stream_data_one_write, set_stream_fclose. reflexivity.
Qed.

Lemma WriteKeyBuffer_true D fs s frame port bufIndex buf fs1 s1 :
  WriteKeyBuffer D fs s frame port bufIndex buf = (fs1, s1, true) ->
  exists f, recordingFile s = Some f /\
            0 <= WriteKeyBuffer_seek D frame port bufIndex.
Proof.
  unfold WriteKeyBuffer. destruct (recordingFile s) as [f |]; [| discriminate].
  intros H. exists f. split; [reflexivity |].
  destruct (Z.lt_ge_cases (WriteKeyBuffer_seek D frame port bufIndex) 0) as [Hn | Hp];
    [| exact Hp].
  rewrite fseek_neg in H by exact Hn. discriminate H.
Qed.

Lemma ReadKeyBuffer_closed D fs s result frame port bufIndex :
  recordingFile s = None ->
  ReadKeyBuffer D fs s result frame port bufIndex = (fs, s, result, false).
Proof. intros H. unfold ReadKeyBuffer. rewrite H. reflexivity. Qed.

Lemma ReadKeyBuffer_negative D fs s f result frame port bufIndex :
  recordingFile s = Some f -> ReadKeyBuffer_seek D frame port bufIndex < 0 ->
  ReadKeyBuffer D fs s result frame port bufIndex
  = (fclose fs f, set_recordingFile (Some (mkFILE (f_path f) (f_pos f))) s,
     result, false).
Proof.
  intros Hf Hn. unfold ReadKeyBuffer. rewrite Hf.
  rewrite fseek_neg by exact Hn. reflexivity.
Qed.

Lemma ReadKeyBuffer_at D fs s f result frame port bufIndex b :
  recordingFile s = Some f -> 0 <= ReadKeyBuffer_seek D frame port bufIndex ->
  stream_data fs f !! Z.to_nat (ReadKeyBuffer_seek D frame port bufIndex) = Some b ->
  ReadKeyBuffer D fs s result frame port bufIndex =
    (fclose fs f,
     set_recordingFile
       (Some (mkFILE (f_path f)
                (Z.to_nat (ReadKeyBuffer_seek D frame port bufIndex) + 1))) s,
     b, true).
Proof.
  intros Hf Hs Hb. unfold ReadKeyBuffer. rewrite Hf.
  rewrite fseek_nonneg by exact Hs.
  set (pos := Z.to_nat (ReadKeyBuffer_seek D frame port bufIndex)) in *.
  pose proof (lookup_lt_Some _ _ _ Hb) as Hlt.
  rewrite (fread_at (fclose fs f) (mkFILE (f_path f) pos) 1 (stream_data fs f))
    by (first [apply stream_data_fclose; reflexivity | reflexivity
              | cbn [mkFILE f_pos]; lia]).
  cbn [Nat.eqb negb mkFILE f_path f_pos].
  rewrite (take_S_r _ 0 b) by (rewrite lookup_drop, Nat.add_0_r; exact Hb).
  reflexivity.
Qed.

Lemma ReadKeyBuffer_past_end D fs s f result frame port bufIndex :
  recordingFile s = Some f -> 0 <= ReadKeyBuffer_seek D frame port bufIndex ->
  stream_data fs f !! Z.to_nat (ReadKeyBuffer_seek D frame port bufIndex) = None ->
  ReadKeyBuffer D fs s result frame port bufIndex =
    (fclose fs f,
     set_recordingFile
       (Some (mkFILE (f_path f)
                (Z.to_nat (ReadKeyBuffer_seek D frame port bufIndex)))) s,
     result, false).
Proof.
  intros Hf Hs Hnone. unfold ReadKeyBuffer. rewrite Hf.
  rewrite fseek_nonneg by exact Hs.
  apply lookup_ge_None in Hnone.
  unfold fread.
  rewrite (stream_data_fclose fs f (mkFILE (f_path f) _)) by reflexivity.
  cbn [mkFILE f_path f_pos f_unwritten].
  rewrite drop_ge by exact Hnone. rewrite take_nil. cbn.
  rewrite Nat.add_0_r. reflexivity.
Qed.

Lemma pwrite_lookup_written data pos b : pwrite data pos [b] !! pos = Some b.
Proof.
  pose proof (pwrite_read data pos [b]) as E.
  apply (f_equal (fun l => l !! 0%nat)) in E.
  rewrite lookup_take_lt, lookup_drop, Nat.add_0_r in E by (simpl; lia).
  exact E.
Qed.

(** *** The entries of a bulk read *)

Lemma bulk_step_data D port frame fs f pb (data : gmap Z (list byte)) :
  exists f' pb' v,
    bulk_step D port frame (fs, f, pb, data) = (fclose fs f, f', pb', data) \/
    (data !! wrapU 32 frame = None /\
     bulk_step D port frame (fs, f, pb, data)
     = (fclose fs f, f', pb', <[wrapU 32 frame := v]> data)).
Proof.
  unfold bulk_step.
  assert (Hfs : fst (fst (fseek fs f (BulkReadPadData_seek D frame port)))
                = fclose fs f).
  { unfold fseek. rewrite fflush_fclose.
    destruct (BulkReadPadData_seek D frame port <? 0); reflexivity. }
  destruct (fseek fs f (BulkReadPadData_seek D frame port)) as [[fs1 f1] rc].
  cbn [fst] in Hfs. subst fs1.
  destruct (fread (fclose fs f) f1 1 (controllerInputBytes D)) as [[f2 got] n].
  destruct (negb (n =? 0)%nat).
  - destruct (data !! wrapU 32 frame) eqn:E'.
    + eexists _, _, []. left. reflexivity.
    + eexists _, _, _. right. split; [reflexivity | reflexivity].
  - eexists _, _, []. left. reflexivity.
Qed.

Lemma bulk_loop_entries D port n : forall frame fs f pb (data : gmap Z (list byte)),
  exists fs' f' pb' data',
    bulk_loop D port n frame (fs, f, pb, data) = (fs', f', pb', data') /\
    (size data' <= size data + n)%nat /\
    (forall k, is_Some (data' !! k) ->
               is_Some (data !! k) \/
               exists x, frame <= x < frame + Z.of_nat n /\ k = wrapU 32 x).
Proof.
  induction n as [| n IH]; intros frame fs f pb data.
  - exists fs, f, pb, data. split; [reflexivity |]. split; [lia | auto].
  - cbn [bulk_loop].
    destruct (bulk_step_data D port frame fs f pb data)
      as (f1 & pb1 & v & [-> | [Hnone ->]]).
    + destruct (IH (frame + 1) (fclose fs f) f1 pb1 data)
        as (fs' & f' & pb' & data' & -> & Hs & Hk).
      exists fs', f', pb', data'. split; [reflexivity |]. split; [lia |].
      intros k H. destruct (Hk k H) as [? | (x & Hx & ->)]; [auto |].
      right. exists x. split; [lia | reflexivity].
    + destruct (IH (frame + 1) (fclose fs f) f1 pb1 (<[wrapU 32 frame := v]> data))
        as (fs' & f' & pb' & data' & -> & Hs & Hk).
      exists fs', f', pb', data'. split; [reflexivity |].
      rewrite map_size_insert_None in Hs by exact Hnone.
      split; [lia |].
      intros k H. destruct (Hk k H) as [Hin | (x & Hx & ->)].
      * destruct (decide (wrapU 32 frame = k)) as [<- | Hne].
        -- right. exists frame. split; [lia | reflexivity].
        -- rewrite lookup_insert_ne in Hin by exact Hne. auto.
      * right. exists x. split; [lia | reflexivity].
Qed.

(** ** The sample data *)

Lemma sample_header_wf : header_wf decls64 sample_header.
Proof. repeat split. Qed.

Lemma decls64_arrays : arrays_nonempty decls64.
Proof. unfold arrays_nonempty. simpl. repeat split; lia. Qed.

Lemma decls64_wf : decls_wf decls64.
Proof. split; [exact decls64_arrays | vm_compute; reflexivity]. Qed.

Lemma valid_triple_sample : valid_triple decls64 3 1 4.
Proof. unfold valid_triple. vm_compute. intuition congruence. Qed.

Lemma fresh_recording_lookup :
  fs_files (fst fresh_recording) !! rec_path
  = Some (header_block decls64 (snd fresh_recording)).
Proof. vm_compute. reflexivity. Qed.

Lemma long_recording_synced :
  stream_synced decls64 (fst long_recording) (snd long_recording).
Proof.
  exists (openFILE rec_path 565 [(561%nat, repr_int 4 (2 ^ 32 + 7))]), [].
  split; [vm_compute; reflexivity |].
  split; [exact sample_header_wf |]. vm_compute. reflexivity.
Qed.

Lemma fresh_recording_synced :
  file_synced decls64 (fst fresh_recording) (snd fresh_recording).
Proof.
  exists (mkFILE rec_path 570), []. split; [vm_compute; reflexivity |].
  split; [reflexivity |]. split; [exact sample_header_wf |].
  vm_compute. reflexivity.
Qed.

(** * The claims *)

(** ** C1: write and read of one byte *)

(** C1: with the block size 18 that [WriteKeyBuffer] multiplies the port by,
    [WriteKeyBuffer] and [ReadKeyBuffer] compute the same offset for every
    triple, and a byte that [WriteKeyBuffer] reports written is the byte
    that [ReadKeyBuffer] then returns from the same triple; for a valid
    triple the common offset is the one of the specification,
    [frameRecordOffset frame + port * controllerInputBytes + byteIndex],
    and the write on an open store does succeed. *)
Theorem C1_write_then_read_same_byte D :
  controllerInputBytes D = 18%nat ->
  (forall frame port bufIndex,
      WriteKeyBuffer_seek D frame port bufIndex
      = ReadKeyBuffer_seek D frame port bufIndex) /\
  (forall fs s frame port bufIndex buf result fs1 s1,
      WriteKeyBuffer D fs s frame port bufIndex buf = (fs1, s1, true) ->
      exists s2, ReadKeyBuffer D fs1 s1 result frame port bufIndex
                 = (fs1, s2, buf, true)) /\
  (forall frame port bufIndex,
      decls_wf D -> valid_triple D frame port bufIndex ->
      WriteKeyBuffer_seek D frame port bufIndex
      = byteOffset D frame port bufIndex /\
      ReadKeyBuffer_seek D frame port bufIndex
      = byteOffset D frame port bufIndex /\
      forall fs s f buf,
        recordingFile s = Some f ->
        exists fs1 s1,
          WriteKeyBuffer D fs s frame port bufIndex buf = (fs1, s1, true)).
Proof.
  intros Hcib. split; [| split].
  - intros. apply seek_write_read. exact Hcib.
  - intros fs s frame port bufIndex buf result fs1 s1 Hw.
    destruct (WriteKeyBuffer_true _ _ _ _ _ _ _ _ _ Hw) as (f & Hf & Hpos).
    rewrite (WriteKeyBuffer_at D fs s f) in Hw by assumption.
    injection Hw as <- <-.
    rewrite (seek_write_read D frame port bufIndex Hcib) in *.
    rewrite (ReadKeyBuffer_at D _ _ (mkFILE (f_path f)
               (Z.to_nat (ReadKeyBuffer_seek D frame port bufIndex) + 1))
               result frame port bufIndex buf).
    + eexists. reflexivity.
    + reflexivity.
    + exact Hpos.
    + rewrite stream_data_set_stream by reflexivity.
      apply pwrite_lookup_written.
  - intros frame port bufIndex Hwf Hv.
    destruct (ReadKeyBuffer_seek_exact D frame port bufIndex Hwf Hv)
      as (Hr & Hpos & _).
    pose proof (seek_write_read D frame port bufIndex Hcib) as Hw.
    split; [congruence |]. split; [exact Hr |].
    intros fs s f buf Hf.
    rewrite (WriteKeyBuffer_at D fs s f) by (first [exact Hf | lia]).
    eexists _, _. reflexivity.
Qed.

(** C1 at frame 3, port 1, index 4 of the sample recording: both offsets are
    700, and the byte written there is read back. *)
Lemma C1_write_then_read_witness :
  controllerInputBytes decls64 = 18%nat /\
  WriteKeyBuffer_seek decls64 3 1 4 = 700 /\
  ReadKeyBuffer_seek decls64 3 1 4 = 700 /\
  exists fs2 s2,
    ReadKeyBuffer decls64
      (fst (fst (WriteKeyBuffer decls64 (fst fresh_recording)
                   (snd fresh_recording) 3 1 4 Byte.x2a)))
      (snd (fst (WriteKeyBuffer decls64 (fst fresh_recording)
                   (snd fresh_recording) 3 1 4 Byte.x2a)))
      Byte.x00 3 1 4
    = (fs2, s2, Byte.x2a, true).
Proof.
  split; [reflexivity |].
  destruct (C1_write_then_read_same_byte decls64 eq_refl) as (_ & Hrt & Hex).
  destruct (Hex 3 1 4 decls64_wf valid_triple_sample) as (Hw & Hr & Hok).
  split; [exact Hw |]. split; [exact Hr |].
  destruct (Hok (fst fresh_recording) (snd fresh_recording)
              (mkFILE rec_path 570) Byte.x2a ltac:(vm_compute; reflexivity))
    as (fs1 & s1 & E).
  rewrite E. cbn [fst snd]. exists fs1.
  exact (Hrt _ _ _ _ _ _ Byte.x00 _ _ E).
Defined.

(** ** C2: bulk read *)

(** C2: the recording whose file ends five bytes into the block of frame 0,
    port 0.  The block cannot be read in full, and [BulkReadPadData] still
    returns an entry for frame 0: the five bytes of the file followed by
    what the buffer held before. *)
Theorem C2_BulkReadPadData_keeps_partial_block :
  length (stream_data (fst partial_recording) (mkFILE rec_path 0)) = 575%nat /\
  ~ full_block_readable decls64
      (stream_data (fst partial_recording) (mkFILE rec_path 0)) 0 0 /\
  exists s' data,
    BulkReadPadData decls64 (fst partial_recording) (snd partial_recording)
                    (replicate 18 Byte.xff) 0 1 0
    = Some (fst partial_recording, s', data) /\
    data !! 0 = Some ([Byte.x01; Byte.x02; Byte.x03; Byte.x04; Byte.x05]
                      ++ replicate 13 Byte.xff).
Proof.
  split; [vm_compute; reflexivity |]. split.
  - intros [_ H].
    assert (E : (Z.to_nat (BulkReadPadData_seek decls64 0 0)
                 + controllerInputBytes decls64
                 <=? length (stream_data (fst partial_recording)
                               (mkFILE rec_path 0)))%nat = false)
      by (vm_compute; reflexivity).
    apply Nat.leb_gt in E. lia.
  - eexists _, _. split; [vm_compute; reflexivity |].
    vm_compute. reflexivity.
Qed.

(** ** C3: validation on open *)

(** C3: [OpenExisting] on a file that can be opened succeeds exactly when the
    file holds a whole header block (header, two 4-byte counters, flag) and
    its version byte is 1; a failed validation leaves the store closed with
    its path cleared; a success leaves it open on the path and, when the
    block is the one [WriteHeader] lays out for a store [w], with the header
    and flag of [w] and with counters that agree with those of [w] in their
    low four bytes.  [WriteHeader] writes exactly that block at the start of
    the file, and the file holds it when [WriteHeader] returns. *)
Theorem C3_OpenExisting_validates_header D fs s path data :
  path ∉ fs_denied fs -> fs_files fs !! path = Some data ->
  exists s' ok,
    OpenExisting D fs s path = (fs, s', ok) /\
    (ok = true <->
     (sizeof_header D + 9 <= length data)%nat /\ hd Byte.x00 data = Byte.x01) /\
    (ok = false ->
     IsFileOpen s' = false /\ recordingFile s' = None /\ filename s' = ""%string) /\
    (ok = true ->
     IsFileOpen s' = true /\ filename s' = path /\
     forall w rest,
       header_wf D (header w) -> data = header_block D w ++ rest ->
       header s' = header w /\
       totalFrames s' mod 2 ^ 32 = totalFrames w mod 2 ^ 32 /\
       undoCount s' mod 2 ^ 32 = undoCount w mod 2 ^ 32 /\
       fromSavestate s' = fromSavestate w) /\
    (forall fs0 w f,
       recordingFile w = Some f -> header_wf D (header w) ->
       exists fs1 w1 rest,
         WriteHeader D fs0 w = (fs1, w1, true) /\
         file_data fs1 (f_path f) = header_block D w ++ rest).
Proof.
  intros Hd Hf.
  assert (Hw : forall fs0 w f,
             recordingFile w = Some f -> header_wf D (header w) ->
             exists fs1 w1 rest,
               WriteHeader D fs0 w = (fs1, w1, true) /\
               file_data fs1 (f_path f) = header_block D w ++ rest).
  { intros fs0 w f Hwf Hwwf.
    rewrite (WriteHeader_open D fs0 w f) by assumption.
    eexists _, _, _. split; [reflexivity |].
    rewrite file_data_set_stream. reflexivity. }
  destruct (decide (sizeof_header D + 9 <= length data)%nat) as [Hl | Hl];
    [destruct (Byte.byte_eq_dec (hd Byte.x00 data) Byte.x01) as [Hv | Hv] |].
  - rewrite (OpenExisting_valid D fs s path data) by assumption.
    eexists _, _. split; [reflexivity |].
    split; [tauto |]. split; [discriminate |]. split; [| exact Hw].
    intros _. split; [reflexivity |]. split; [reflexivity |].
    intros w rest Hwf ->. rewrite loaded_block by exact Hwf.
    cbn [set_filename header totalFrames undoCount fromSavestate].
    split; [reflexivity |]. split; [| split; [| reflexivity]].
    + apply signed_low4. rewrite drop4_repr_long_length.
      unfold LSZ. destruct (lw D); simpl; lia.
    + apply unsigned_low4.
  - destruct (OpenExisting_invalid D fs s path data Hd Hf) as (s' & -> & Hc & Hn);
      [right; exact Hv |].
    eexists _, _. split; [reflexivity |].
    split; [split; [discriminate | tauto] |].
    split; [| split; [discriminate | exact Hw]].
    intros _. unfold IsFileOpen. rewrite Hc. auto.
  - destruct (OpenExisting_invalid D fs s path data Hd Hf) as (s' & -> & Hc & Hn);
      [left; lia |].
    eexists _, _. split; [reflexivity |].
    split; [split; [discriminate | tauto] |].
    split; [| split; [discriminate | exact Hw]].
    intros _. unfold IsFileOpen. rewrite Hc. auto.
Qed.

(** C3 on the sample recording: the stamped file validates and the flag set
    at creation is loaded. *)
Lemma C3_OpenExisting_witness :
(rec_path ∉ fs_denied (fst fresh_recording)) /\
  fs_files (fst fresh_recording) !! rec_path
  = Some (header_block decls64 (snd fresh_recording)) /\
  exists s',
    OpenExisting decls64 (fst fresh_recording) closed_store rec_path
    = (fst fresh_recording, s', true) /\
    fromSavestate s' = true.
Proof.
  assert (Hd : rec_path ∉ fs_denied (fst fresh_recording)).
  { vm_compute. intros H. discriminate H. }
  split; [exact Hd |]. split; [exact fresh_recording_lookup |].
  destruct (C3_OpenExisting_validates_header decls64 (fst fresh_recording)
              closed_store rec_path _ Hd fresh_recording_lookup)
    as (s' & ok & E & Hiff & _ & Hok & _).
  assert (Hy : ok = true).
  { apply Hiff. split; [vm_compute; lia | reflexivity]. }
  subst ok. exists s'. split; [exact E |].
  destruct (Hok eq_refl) as (_ & _ & Hrt).
  destruct (Hrt (snd fresh_recording) [] sample_header_wf) as (_ & _ & _ & Hb).
  - rewrite app_nil_r. reflexivity.
  - rewrite Hb. reflexivity.
Defined.

(** ** C4: Init *)

(** C4, the claim as stated fails: after [Init] the header still carries the
    version 1 and the emulator identity it had. *)
Lemma C4_Init_keeps_version_and_emu :
  version (Init decls64 sample_header) = Byte.x01 /\
  emu (Init decls64 sample_header)
  = c_str "PCSX2-1.7.0" ++ replicate 39 Byte.x00 /\
  ~ header_zeroed decls64 (Init decls64 sample_header).
Proof.
  split; [reflexivity |]. split; [reflexivity |].
  intros (Hv & _). discriminate Hv.
Qed.

(** C4 as amended: [Init] zero-fills the author and title fields and leaves
    the format version and the emulator identity as they were; after a
    successful [OpenNew] the header is the [Init] of the header the store
    had. *)
Theorem C4_Init_zeroes_author_and_title D h :
  header_wf D h ->
  author (Init D h) = replicate (authorCap D) Byte.x00 /\
  gameName (Init D h) = replicate (gameNameCap D) Byte.x00 /\
  version (Init D h) = version h /\
  emu (Init D h) = emu h /\
  header_wf D (Init D h) /\
  (forall fs s path b fs' s',
      header s = h -> OpenNew D fs s path b = (fs', s', true) ->
      header s' = Init D h).
Proof.
  intros (Ha & Hg & He). unfold Init. cbn [author gameName version emu].
  rewrite !memset_whole by lia.
  split; [reflexivity |]. split; [reflexivity |].
  split; [reflexivity |]. split; [reflexivity |]. split.
  - unfold header_wf. cbn [author gameName emu].
    rewrite !length_replicate. auto.
  - intros fs s path b fs' s' <- H. apply OpenNew_success in H. rewrite H.
    unfold Init. rewrite !memset_whole by lia. reflexivity.
Qed.

(** C4 as amended, on the sample header. *)
Lemma C4_Init_witness :
  header_wf decls64 sample_header /\
  author (Init decls64 sample_header) = replicate 255 Byte.x00 /\
  emu (Init decls64 sample_header) = emu sample_header.
Proof.
  split; [exact sample_header_wf |].
  pose proof (C4_Init_zeroes_author_and_title decls64 sample_header
                sample_header_wf) as (Ha & _ & _ & He & _).
  split; [exact Ha | exact He].
Defined.

(** ** C5: failure of OpenNew *)

(** C5, the claim as stated fails: a store that is open on one recording
    loses its file handle when [OpenNew] fails on another path. *)
Lemma C5_OpenNew_failure_drops_handle :
  snd (wxFopen (fst fresh_recording) locked_path WBplus) = None /\
  recordingFile (snd fresh_recording) = Some (mkFILE rec_path 570) /\
  exists s',
    OpenNew decls64 (fst fresh_recording) (snd fresh_recording)
            locked_path false
    = (fst fresh_recording, s', false) /\
    recordingFile s' = None.
Proof.
  split; [vm_compute; reflexivity |]. split; [vm_compute; reflexivity |].
  eexists. split; [vm_compute; reflexivity | reflexivity].
Qed.

(** C5 as amended: when the file cannot be created, [OpenNew] returns
    failure with the file system, the header, the counters, the flag and the
    stored path as they were, and with a null file handle; so the whole
    store is unchanged when it was closed before the call. *)
Theorem C5_OpenNew_failure D fs s path b :
  snd (wxFopen fs path WBplus) = None ->
  exists s',
    OpenNew D fs s path b = (fs, s', false) /\
    header s' = header s /\ totalFrames s' = totalFrames s /\
    undoCount s' = undoCount s /\ fromSavestate s' = fromSavestate s /\
    filename s' = filename s /\ recordingFile s' = None /\
    (recordingFile s = None -> s' = s).
Proof.
  intros H. apply wxFopen_none_write in H.
  unfold OpenNew, open. rewrite H. cbn.
  eexists. split; [reflexivity |].
  repeat (split; [reflexivity |]).
  intros Hn. destruct s; cbn in *. subst. reflexivity.
Qed.

(** C5 as amended, on a closed store and a path that cannot be created: the
    store comes back unchanged. *)
Lemma C5_OpenNew_failure_witness :
  snd (wxFopen sample_fs locked_path WBplus) = None /\
  exists s',
    OpenNew decls64 sample_fs closed_store locked_path true
    = (sample_fs, s', false) /\ s' = closed_store.
Proof.
  assert (H : snd (wxFopen sample_fs locked_path WBplus) = None)
    by (vm_compute; reflexivity).
  split; [exact H |].
  destruct (C5_OpenNew_failure decls64 sample_fs closed_store
              locked_path true H)
    as (s' & E & _ & _ & _ & _ & _ & _ & Hsame).
  exists s'. split; [exact E | apply Hsame; reflexivity].
Defined.

(** ** C6: SetTotalFrames *)



(** ** C7: the text setters *)

(** C7: on a header whose arrays have their declared sizes, each setter
    returns a header (no store leaves the array) whose field is the
    truncated and terminated copy of the text, of the declared size and
    with a NUL in its last cell; the other fields are unchanged. *)
Theorem C7_setters_truncate_and_terminate D h text :
  arrays_nonempty D -> header_wf D h ->
  exists a g e,
    SetAuthor D h text = Some (mkHeader (version h) a (gameName h) (emu h)) /\
    SetGameName D h text = Some (mkHeader (version h) (author h) g (emu h)) /\
    SetEmulatorVersion D h text
    = Some (mkHeader (version h) (author h) (gameName h) e) /\
    a = truncate_and_terminate (authorCap D) (c_str text) /\
    g = truncate_and_terminate (gameNameCap D) (c_str text) /\
    e = truncate_and_terminate (emuCap D) (c_str text) /\
    length a = authorCap D /\ length g = gameNameCap D /\ length e = emuCap D /\
    last a = Some Byte.x00 /\ last g = Some Byte.x00 /\ last e = Some Byte.x00.
Proof.
  intros (Hca & Hcg & Hce) (Ha & Hg & He).
  exists (truncate_and_terminate (authorCap D) (c_str text)),
         (truncate_and_terminate (gameNameCap D) (c_str text)),
         (truncate_and_terminate (emuCap D) (c_str text)).
  unfold SetAuthor, SetGameName, SetEmulatorVersion.
  rewrite !strcpy_safe_spec by assumption.
  rewrite !truncate_and_terminate_length by assumption.
  rewrite !truncate_and_terminate_last by assumption.
  repeat split.
Qed.

(** C7 with a text of 60 characters and an identity field of 50: the first
    49 characters and a NUL. *)
Lemma C7_setters_witness :
  arrays_nonempty decls64 /\ header_wf decls64 sample_header /\
  SetEmulatorVersion decls64 sample_header
    "PCSX2-1.7.0-dev-20210101-a-very-long-build-identifier-x86_64"
  = Some (mkHeader Byte.x01 (author sample_header) (gameName sample_header)
            (c_str "PCSX2-1.7.0-dev-20210101-a-very-long-build-identi"
             ++ [Byte.x00])).
Proof.
  split; [exact decls64_arrays |]. split; [exact sample_header_wf |].
  destruct (C7_setters_truncate_and_terminate decls64 sample_header
              "PCSX2-1.7.0-dev-20210101-a-very-long-build-identifier-x86_64"
              decls64_arrays sample_header_wf)
    as (a & g & e & _ & _ & E & _ & _ & -> & _).
  exact E.
Defined.

(** ** C8: IncrementUndoCount *)



(** ** C9: the width of the persisted counters *)

(** C9, the claim as stated fails: with an 8-byte [long], a store that holds
    the frame count 2^32 + 7, is closed and opens its file again has the
    frame count 2^32 + 7 once more; the four bytes read from the file
    replace the low half of the counter and the upper half stays. *)
Lemma C9_reopen_keeps_upper_bytes :
  totalFrames (snd long_recording) = 2 ^ 32 + 7 /\
  exists fs1 s1 r',
    Close (fst long_recording) (snd long_recording) = (fs1, s1, true) /\
    OpenExisting decls64 fs1 s1 rec_path = (fs1, r', true) /\
    totalFrames r' = 2 ^ 32 + 7.
Proof.
  split; [vm_compute; reflexivity |].
  eexists _, _, _. split; [vm_compute; reflexivity |].
  split; vm_compute; reflexivity.
Qed.

(** C9 as amended: the counters travel through the file as four bytes
    each.  On a store whose stream holds its header block, the four bytes at
    each counter's offset decode to the counter modulo 2^32, and
    [WriteHeader], [SetTotalFrames] and [IncrementUndoCount] keep it so.
    Once the stream is flushed by [Close], a store [r] that opens the file
    has in each counter the low four bytes of the value written under the
    upper bytes that [r] held before: a store whose counters are below 2^32
    (a newly constructed one has them at zero) reloads each counter modulo
    2^32, so with an 8-byte [long] a counter of 2^32 or more does not come
    back to it, and a store whose counter has the upper bytes of the value
    written gets the whole value back. *)
Theorem C9_counters_persist_as_four_bytes D fs s f r :
  stream_synced D fs s -> recordingFile s = Some f ->
  version (header s) = Byte.x01 -> f_path f ∉ fs_denied fs ->
  unsigned_of_repr (take 4 (drop (sizeof_header D) (stream_data fs f)))
  = totalFrames s mod 2 ^ 32 /\
  unsigned_of_repr (take 4 (drop (sizeof_header D + 4) (stream_data fs f)))
  = undoCount s mod 2 ^ 32 /\
  (exists fs' s', WriteHeader D fs s = (fs', s', true) /\ file_synced D fs' s') /\
  (forall frame,
      stream_synced D (fst (SetTotalFrames D fs s frame))
                      (snd (SetTotalFrames D fs s frame))) /\
  stream_synced D (fst (IncrementUndoCount D fs s))
                  (snd (IncrementUndoCount D fs s)) /\
  exists fs1 s1 r',
    Close fs s = (fs1, s1, true) /\
    OpenExisting D fs1 r (f_path f) = (fs1, r', true) /\
    totalFrames r'
    = wrapS (LB D) (totalFrames s mod 2 ^ 32 + 2 ^ 32 * (totalFrames r / 2 ^ 32)) /\
    undoCount r'
    = wrapU (LB D) (undoCount s mod 2 ^ 32 + 2 ^ 32 * (undoCount r / 2 ^ 32)) /\
    (0 <= totalFrames r < 2 ^ 32 ->
     totalFrames r' = wrapS (LB D) (totalFrames s mod 2 ^ 32)) /\
    (0 <= undoCount r < 2 ^ 32 -> undoCount r' = undoCount s mod 2 ^ 32) /\
    (lw D = Long64 ->
     (0 <= totalFrames r < 2 ^ 32 ->
      totalFrames r' = totalFrames s mod 2 ^ 32 /\
      (2 ^ 32 <= totalFrames s -> totalFrames r' <> totalFrames s)) /\
     (0 <= undoCount r < 2 ^ 32 -> 2 ^ 32 <= undoCount s ->
      undoCount r' <> undoCount s) /\
     (- 2 ^ 63 <= totalFrames s < 2 ^ 63 ->
      totalFrames r / 2 ^ 32 = totalFrames s / 2 ^ 32 ->
      totalFrames r' = totalFrames s) /\
     (0 <= undoCount s < 2 ^ 64 ->
      undoCount r / 2 ^ 32 = undoCount s / 2 ^ 32 ->
      undoCount r' = undoCount s)).
Proof.
  intros Hs Hf Hv Hd.
  pose proof Hs as (f0 & rest & Hf0 & Hwf & Hdata).
  rewrite Hf in Hf0. injection Hf0 as <-.
  split; [| split; [| split; [| split; [| split]]]].
  - rewrite Hdata, block_totalFrames by exact Hwf. apply le_combine_repr4.
  - rewrite Hdata, block_undoCount by exact Hwf. apply le_combine_repr4.
  - destruct (WriteHeader_synced D fs s f Hf Hwf) as (fs' & s' & E & Hs' & _).
    exists fs', s'. split; assumption.
  - intros frame. apply SetTotalFrames_synced. exact Hs.
  - apply IncrementUndoCount_synced. exact Hs.
  - destruct (Close_block D fs s f Hs Hf) as (rest1 & Hl).
    rewrite (Close_open fs s f Hf) in *. cbn [fst] in Hl.
    eexists _, _, _. split; [reflexivity |].
    rewrite (reopen_block D (fclose fs f) s (f_path f) rest1 r Hwf Hl Hv)
      by (rewrite fclose_denied; exact Hd).
    split; [reflexivity |]. cbn [totalFrames undoCount].
    rewrite reload_signed, reload_unsigned.
    split; [reflexivity |]. split; [reflexivity |].
    assert (Hb : 0 <= totalFrames s mod 2 ^ 32 < 2 ^ 32)
      by (apply Z.mod_pos_bound; lia).
    assert (Hb' : 0 <= undoCount s mod 2 ^ 32 < 2 ^ 32)
      by (apply Z.mod_pos_bound; lia).
    assert (Ht0 : 0 <= totalFrames r < 2 ^ 32 -> totalFrames r / 2 ^ 32 = 0)
      by (intros ?; apply Z.div_small; assumption).
    assert (Hu0 : 0 <= undoCount r < 2 ^ 32 -> undoCount r / 2 ^ 32 = 0)
      by (intros ?; apply Z.div_small; assumption).
    split.
    { intros Ht. rewrite (Ht0 Ht), Z.mul_0_r, Z.add_0_r. reflexivity. }
    split.
    { intros Hu. rewrite (Hu0 Hu), Z.mul_0_r, Z.add_0_r.
      apply wrapU_small. pose proof (pow_LB_ge D) as Hp.
      pose proof (LB_pos D) as HL.
      assert (2 ^ 32 <= 2 ^ LB D)
        by (destruct (LB_cases D) as [-> | ->]; simpl; lia).
      lia. }
    intros H64.
    assert (HLB : LB D = 64) by (unfold LB, long_bits; rewrite H64; reflexivity).
    rewrite HLB.
    split.
    { intros Ht. rewrite (Ht0 Ht), Z.mul_0_r, Z.add_0_r.
      rewrite wrapS_small by (simpl; lia). split; [reflexivity |]. lia. }
    split.
    { intros Hu Hge. rewrite (Hu0 Hu), Z.mul_0_r, Z.add_0_r.
      rewrite wrapU_small by (simpl; lia). lia. }
    split.
    { intros Hr Hq. rewrite Hq.
      pose proof (Z.div_mod (totalFrames s) (2 ^ 32) ltac:(lia)) as Hdm.
      replace (totalFrames s mod 2 ^ 32 + 2 ^ 32 * (totalFrames s / 2 ^ 32))
        with (totalFrames s) by lia.
      apply wrapS_small; simpl; lia. }
    { intros Hr Hq. rewrite Hq.
      pose proof (Z.div_mod (undoCount s) (2 ^ 32) ltac:(lia)) as Hdm.
      replace (undoCount s mod 2 ^ 32 + 2 ^ 32 * (undoCount s / 2 ^ 32))
        with (undoCount s) by lia.
      apply wrapU_small; simpl; lia. }
Qed.

(** C9 as amended, on the sample recording with the frame count 2^32 + 7:
    after [Close] a store with zero counters reloads 7. *)
Lemma C9_counters_witness :
  totalFrames (snd long_recording) = 2 ^ 32 + 7 /\
  exists fs1 s1 r',
    Close (fst long_recording) (snd long_recording) = (fs1, s1, true) /\
    OpenExisting decls64 fs1 closed_store rec_path = (fs1, r', true) /\
    totalFrames r' = 7.
Proof.
  split; [vm_compute; reflexivity |].
  assert (Hd : rec_path ∉ fs_denied (fst long_recording)).
  { vm_compute. intros H. discriminate H. }
  destruct (C9_counters_persist_as_four_bytes decls64 (fst long_recording)
              (snd long_recording)
              (openFILE rec_path 565 [(561%nat, repr_int 4 (2 ^ 32 + 7))])
              closed_store long_recording_synced
              ltac:(vm_compute; reflexivity) ltac:(vm_compute; reflexivity) Hd)
    as (_ & _ & _ & _ & _ & fs1 & s1 & r' & Ec & Eo & _ & _ & _ & _ & H64).
  exists fs1, s1, r'. split; [exact Ec |]. split; [exact Eo |].
  destruct (H64 eq_refl) as (Ht & _).
  destruct Ht as (Ht & _); [vm_compute; split; congruence |].
  rewrite Ht. reflexivity.
Defined.

(** ** C10: bulk read on a closed store *)

(** C10: on a closed store [BulkReadPadData] returns the empty map and the
    store as it was, whatever the arguments; an open store on a file with no
    bytes returns the empty map as well. *)
Theorem C10_BulkReadPadData_closed_is_empty D fs s padBytes0
  frameStart frameEnd port :
  recordingFile s = None ->
  BulkReadPadData D fs s padBytes0 frameStart frameEnd port
  = Some (fs, s, ∅) /\
  (forall o f,
      recordingFile o = Some f -> stream_data fs f = [] ->
      frameEnd <= 2 ^ 31 - 1 ->
      exists fs' o',
        BulkReadPadData D fs o padBytes0 frameStart frameEnd port
        = Some (fs', o', ∅)).
Proof.
  intros Hc. split.
  - unfold BulkReadPadData. rewrite Hc. reflexivity.
  - intros o f Hf He Hend. unfold BulkReadPadData. rewrite Hf.
    destruct (Z.ltb_spec (2 ^ 31 - 1) frameEnd); [lia |].
    match goal with
    | |- context [bulk_loop D port ?n ?fr (fs, f, padBytes0, ∅)] =>
        destruct (bulk_loop_empty D port n fr fs f padBytes0 He)
          as (fs' & f' & -> & _)
    end.
    eexists _, _. reflexivity.
Qed.

(** C10 on the closed sample store. *)
Lemma C10_BulkReadPadData_witness :
  recordingFile closed_store = None /\
  BulkReadPadData decls64 sample_fs closed_store (replicate 18 Byte.xff)
                  (-5) 100 1
  = Some (sample_fs, closed_store, ∅).
Proof.
  split; [reflexivity |].
  apply (C10_BulkReadPadData_closed_is_empty decls64 sample_fs closed_store
           (replicate 18 Byte.xff) (-5) 100 1 eq_refl).
Defined.

(** ** Further properties *)

(** The offsets read for an earlier frame lie before the offsets read for a
    later one. *)
Theorem frames_do_not_overlap D a b p q i j :
  decls_wf D -> valid_triple D a p i -> valid_triple D b q j -> a < b ->
  ReadKeyBuffer_seek D a p i < ReadKeyBuffer_seek D b q j.
Proof.
  intros Hwf Ha Hb Hlt.
  destruct (ReadKeyBuffer_seek_exact D a p i Hwf Ha) as (-> & _ & Hua).
  destruct (ReadKeyBuffer_seek_exact D b q j Hwf Hb) as (-> & _ & _).
  destruct Hb as (_ & Hq & Hj & _). destruct Ha as (Ha0 & Hp & _ & _).
  unfold byteOffset, frameRecordOffset in *.
  assert (0 <= inputBytesPerFrame D) by (unfold inputBytesPerFrame; lia).
  nia.
Qed.

(** Frame 3 ends before frame 4 begins in the sample layout. *)
Lemma frames_do_not_overlap_witness :
  ReadKeyBuffer_seek decls64 3 1 4 < ReadKeyBuffer_seek decls64 4 0 0.
Proof.
  apply (frames_do_not_overlap decls64 3 4 1 0 4 0 decls64_wf valid_triple_sample);
    [| lia].
  unfold valid_triple. vm_compute. intuition congruence.
Defined.

(** [Close] reports whether the store was open, leaves it closed, and
    clears the path of a store that was open; a second [Close] reports
    false and changes nothing.  The stream is flushed: the file holds the
    bytes the stream held, no other file changes, and the file system is as
    it was when the stream had nothing unwritten. *)
Theorem Close_then_closed fs s :
  snd (Close fs s) = IsFileOpen s /\
  IsFileOpen (snd (fst (Close fs s))) = false /\
  Close (fst (fst (Close fs s))) (snd (fst (Close fs s)))
  = (fst (fst (Close fs s)), snd (fst (Close fs s)), false) /\
  (IsFileOpen s = true -> filename (snd (fst (Close fs s))) = ""%string) /\
  (IsFileOpen s = false -> Close fs s = (fs, s, false)) /\
  (forall f, recordingFile s = Some f ->
     file_data (fst (fst (Close fs s))) (f_path f) = stream_data fs f /\
     (forall p, p <> f_path f ->
                fs_files (fst (fst (Close fs s))) !! p = fs_files fs !! p) /\
     fs_denied (fst (fst (Close fs s))) = fs_denied fs /\
     (f_unwritten f = [] -> fst (fst (Close fs s)) = fs)).
Proof.
  unfold Close, IsFileOpen. destruct (recordingFile s) as [f |] eqn:Hf; cbn.
  - do 4 (split; [reflexivity |]). split; [discriminate |].
    intros f0 [= <-]. split; [apply file_data_fclose |].
    split; [intros p Hp; apply fclose_other; exact Hp |].
    split; [apply fclose_denied | apply fclose_written].
  - rewrite Hf. do 3 (split; [reflexivity |]). split; [discriminate |].
    split; [reflexivity |]. intros f0 H0. discriminate H0.
Qed.

(** For arguments within the range of [int], a bulk read of an open store
    returns entries only for frames of the clamped half-open range, none of
    them negative, and no more entries than the range has frames. *)
Theorem BulkReadPadData_entries_in_range D fs s f padBytes0
  frameStart frameEnd port :
  recordingFile s = Some f ->
  frameStart <= 2 ^ 31 - 1 -> frameEnd <= 2 ^ 31 - 1 ->
  exists fs' s' data,
    BulkReadPadData D fs s padBytes0 frameStart frameEnd port
    = Some (fs', s', data) /\
    (forall k, is_Some (data !! k) -> Z.max 0 frameStart <= k < frameEnd) /\
    Z.of_nat (size data) <= Z.max 0 (frameEnd - Z.max 0 frameStart) /\
    Z.of_nat (size data) <= Z.max 0 (frameEnd - frameStart).
Proof.
  intros Hf Hs He. unfold BulkReadPadData. rewrite Hf.
  destruct (Z.ltb_spec (2 ^ 31 - 1) frameEnd) as [Hgt | _]; [lia |].
  set (start := if frameStart <? 0 then 0 else frameStart).
  assert (Hst : start = Z.max 0 frameStart).
  { unfold start. destruct (Z.ltb_spec frameStart 0); lia. }
  assert (Hw : wrapS 32 start = start) by (apply wrapS_small; simpl; lia).
  rewrite Hw.
  destruct (bulk_loop_entries D port (Z.to_nat (frameEnd - start)) start
              fs f padBytes0 ∅) as (fs' & f' & pb' & data' & -> & Hsz & Hk).
  eexists _, _, _. split; [reflexivity |].
  rewrite map_size_empty in Hsz. rewrite <- Hst.
  split; [| split; lia].
  intros k Hsome. destruct (Hk k Hsome) as [Hin | (x & Hx & ->)].
  - rewrite lookup_empty in Hin. destruct Hin as [? Hin]. discriminate Hin.
  - rewrite wrapU_small by (simpl; lia). lia.
Qed.

(** A bulk read of the range from -2 to 3 of the partial sample recording
    returns at most five entries. *)
Lemma BulkReadPadData_entries_witness :
  exists fs' s' data,
    BulkReadPadData decls64 (fst partial_recording) (snd partial_recording)
                    (replicate 18 Byte.xff) (-2) 3 0
    = Some (fs', s', data) /\
    Z.of_nat (size data) <= 5.
Proof.
  destruct (BulkReadPadData_entries_in_range decls64
              (fst partial_recording) (snd partial_recording)
              (mkFILE rec_path 575) (replicate 18 Byte.xff) (-2) 3 0)
    as (fs' & s' & data & E & _ & _ & Hsz).
  - reflexivity.
  - lia.
  - lia.
  - exists fs', s', data. split; [exact E | exact Hsz].
Defined.

(** A recording started from a snapshot, with bytes of frame 0 written and
    one frame committed, is closed and opened again by another store: the
    header validates and the frame count, the flag and the bytes are back. *)
Example scenario_close_and_reopen :
  let '(fs, s) := partial_recording in
  let '(fs1, s1) := SetTotalFrames decls64 fs s 1 in
  let '(fs2, s2, wasOpen) := Close fs1 s1 in
  let '(fs3, s3, ok) := OpenExisting decls64 fs2 closed_store rec_path in
  let '(fs4, s4, b, okr) := ReadKeyBuffer decls64 fs3 s3 Byte.x00 0 0 2 in
  wasOpen = true /\ IsFileOpen s2 = false /\ ok = true /\
  totalFrames s3 = 1 /\ fromSavestate s3 = true /\
  b = Byte.x03 /\ okr = true.
Proof. vm_compute. repeat split. Qed.

(** Three undo operations on an open store: the counter is 3 in memory;
    the third write is still in the buffer of the stream, so a store that
    opens the file now reads 2; after [Close] a store that opens the file
    reads 3. *)
Example scenario_three_undos :
  let '(fs, s) := fresh_recording in
  let '(fs1, s1) := IncrementUndoCount decls64 fs s in
  let '(fs2, s2) := IncrementUndoCount decls64 fs1 s1 in
  let '(fs3, s3) := IncrementUndoCount decls64 fs2 s2 in
  let '(fs4, s4, ok) := OpenExisting decls64 fs3 closed_store rec_path in
  let '(fs5, s5, _) := Close fs3 s3 in
  let '(fs6, s6, ok') := OpenExisting decls64 fs5 closed_store rec_path in
  undoCount s3 = 3 /\ ok = true /\ undoCount s4 = 2 /\
  ok' = true /\ undoCount s6 = 3.
Proof. vm_compute. repeat split. Qed.

(** ** One byte of a file *)

Lemma pwrite_lookup data pos bs (i : nat) :
  pwrite data pos bs !! i
  = if decide (i < pos)%nat then
      (if decide (i < length data)%nat then data !! i else Some Byte.x00)
    else if decide (i < pos + length bs)%nat then bs !! (i - pos)%nat
         else data !! i.
Proof.
  destruct (decide (i < pos)%nat) as [Hlt | Hge].
  - destruct (decide (i < length data)%nat) as [Hin | Hout].
    + apply pwrite_lookup_lt; assumption.
    + unfold pwrite. rewrite lookup_app_l
        by (rewrite length_take, length_app, length_replicate; lia).
      rewrite lookup_take_lt by lia.
      rewrite lookup_app_r by lia.
      apply lookup_replicate_2. lia.
  - destruct (decide (i < pos + length bs)%nat) as [Hin | Hout].
    + unfold pwrite.
      assert (Hp : length (take pos (data ++ replicate (pos - length data) Byte.x00))
                   = pos)
        by (rewrite length_take, length_app, length_replicate; lia).
      rewrite lookup_app_r by lia. rewrite Hp.
      apply lookup_app_l. lia.
    + apply pwrite_lookup_ge. lia.
Qed.

Lemma set_recordingFile_same s f :
  recordingFile s = Some f -> set_recordingFile (Some f) s = s.
Proof. intros H. destruct s; cbn in *. subst. reflexivity. Qed.

(** *** Reading one byte *)

(** [ReadKeyBuffer] changes nothing in the store but the stream, which it
    leaves with nothing unwritten; on an open store the file system comes
    back with the stream flushed.  It succeeds exactly when the store is
    open, the offset is not negative and the stream has a byte at the
    offset, and then returns that byte; in every other case it returns
    false and [result] is what it was (a closed store, a negative offset,
    an offset at or after the end of the file). *)
Theorem ReadKeyBuffer_outcome D fs s result frame port bufIndex :
  exists fs' s' r ok,
    ReadKeyBuffer D fs s result frame port bufIndex = (fs', s', r, ok) /\
    header s' = header s /\ filename s' = filename s /\
    totalFrames s' = totalFrames s /\ undoCount s' = undoCount s /\
    fromSavestate s' = fromSavestate s /\ IsFileOpen s' = IsFileOpen s /\
    (ok = false -> r = result) /\
    (ok = true <->
     exists f, recordingFile s = Some f /\
               0 <= ReadKeyBuffer_seek D frame port bufIndex /\
               is_Some (stream_data fs f
                        !! Z.to_nat (ReadKeyBuffer_seek D frame port bufIndex))) /\
    (forall f b,
        recordingFile s = Some f ->
        0 <= ReadKeyBuffer_seek D frame port bufIndex ->
        stream_data fs f !! Z.to_nat (ReadKeyBuffer_seek D frame port bufIndex)
        = Some b ->
        r = b /\ ok = true) /\
    (recordingFile s = None -> fs' = fs /\ s' = s) /\
    (forall f, recordingFile s = Some f ->
       flushed fs f fs' /\
       exists f', recordingFile s' = Some f' /\ f_path f' = f_path f /\
                  f_unwritten f' = []).
Proof.
  destruct (recordingFile s) as [f |] eqn:Hf.
  - assert (Hfl : forall f0 fs0 (s0 : InputRecordingFile) g,
              Some f = Some f0 -> fs0 = fclose fs f ->
              recordingFile s0 = Some g -> f_path g = f_path f ->
              f_unwritten g = [] ->
              flushed fs f0 fs0 /\
              exists f', recordingFile s0 = Some f' /\ f_path f' = f_path f0 /\
                         f_unwritten f' = []).
    { intros f0 fs0 s0 g [= <-] -> Hg Hp Hu. split; [apply fclose_flushed |].
      exists g. auto. }
    destruct (Z.lt_ge_cases (ReadKeyBuffer_seek D frame port bufIndex) 0)
      as [Hneg | Hpos].
    + rewrite (ReadKeyBuffer_negative D fs s f) by assumption.
      eexists _, _, _, _. split; [reflexivity |].
      do 5 (split; [reflexivity |]).
      split; [unfold IsFileOpen; cbn; rewrite Hf; reflexivity |].
      split; [reflexivity |]. split.
      * split; [discriminate |]. intros (f0 & _ & H0 & _). lia.
      * split; [intros f0 b _ H0 _; lia |].
        split; [discriminate |].
        intros f0 H0.
           eapply (Hfl f0); [exact H0 | reflexivity ..].
    + destruct (stream_data fs f
                !! Z.to_nat (ReadKeyBuffer_seek D frame port bufIndex))
        as [b |] eqn:Hb.
      * rewrite (ReadKeyBuffer_at D fs s f result frame port bufIndex b)
          by assumption.
        eexists _, _, _, _. split; [reflexivity |].
        do 5 (split; [reflexivity |]).
        split; [unfold IsFileOpen; cbn; rewrite Hf; reflexivity |].
        split; [discriminate |]. split.
        -- split; [| reflexivity]. intros _. exists f.
           split; [reflexivity |]. split; [exact Hpos |]. rewrite Hb. eauto.
        -- split.
           { intros f0 b0 [= <-] _ Hb0. rewrite Hb in Hb0.
             injection Hb0 as <-. split; reflexivity. }
           split; [discriminate |].
           intros f0 H0.
           eapply (Hfl f0); [exact H0 | reflexivity ..].
      * rewrite (ReadKeyBuffer_past_end D fs s f) by assumption.
        eexists _, _, _, _. split; [reflexivity |].
        do 5 (split; [reflexivity |]).
        split; [unfold IsFileOpen; cbn; rewrite Hf; reflexivity |].
        split; [reflexivity |]. split.
        -- split; [discriminate |].
           intros (f0 & [= <-] & _ & [x Hx]). rewrite Hb in Hx. discriminate Hx.
        -- split.
           { intros f0 b0 [= <-] _ Hb0. rewrite Hb in Hb0. discriminate Hb0. }
           split; [discriminate |].
           intros f0 H0.
           eapply (Hfl f0); [exact H0 | reflexivity ..].
  - rewrite (ReadKeyBuffer_closed D fs s) by assumption.
    eexists _, _, _, _. split; [reflexivity |].
    do 6 (split; [reflexivity |]).
    split; [reflexivity |]. split.
    + split; [discriminate |]. intros (f0 & H0 & _). discriminate H0.
    + split; [intros f0 b H0; discriminate H0 |].
      split; [auto |]. intros f0 H0. discriminate H0.
Qed.

(** *** Writing one byte *)

(** [WriteKeyBuffer] changes nothing in the store but the stream, which it
    leaves with nothing unwritten.  It fails on a closed store, with
    nothing changed, and on a negative offset, where the stream is flushed
    and no byte of it changes.  Otherwise it succeeds, and when it returns
    the file holds the bytes of the stream with the byte written: the byte
    at the offset is the one given, every other byte the stream had is
    unchanged, the bytes between the old end and the offset read as zero,
    the file is never shorter than the stream was, and no other file is
    touched. *)
Theorem WriteKeyBuffer_effect D fs s frame port bufIndex buf :
  exists fs' s' ok,
    WriteKeyBuffer D fs s frame port bufIndex buf = (fs', s', ok) /\
    header s' = header s /\ filename s' = filename s /\
    totalFrames s' = totalFrames s /\ undoCount s' = undoCount s /\
    fromSavestate s' = fromSavestate s /\ IsFileOpen s' = IsFileOpen s /\
    fs_denied fs' = fs_denied fs /\
    (ok = true <->
     IsFileOpen s = true /\ 0 <= WriteKeyBuffer_seek D frame port bufIndex) /\
    (recordingFile s = None -> fs' = fs /\ s' = s) /\
    (forall f, recordingFile s = Some f ->
       (exists f', recordingFile s' = Some f' /\ f_path f' = f_path f /\
                   f_unwritten f' = []) /\
       (forall p, p <> f_path f -> fs_files fs' !! p = fs_files fs !! p) /\
       (ok = false -> flushed fs f fs') /\
       (ok = true ->
        let pos := Z.to_nat (WriteKeyBuffer_seek D frame port bufIndex) in
        file_data fs' (f_path f) !! pos = Some buf /\
        (forall i : nat, i <> pos -> (i < length (stream_data fs f))%nat ->
                         file_data fs' (f_path f) !! i = stream_data fs f !! i) /\
        (forall i : nat, (length (stream_data fs f) <= i < pos)%nat ->
                         file_data fs' (f_path f) !! i = Some Byte.x00) /\
        length (file_data fs' (f_path f))
        = (length (stream_data fs f) `max` (pos + 1))%nat)).
Proof.
  destruct (recordingFile s) as [f |] eqn:Hf.
  - destruct (Z.lt_ge_cases (WriteKeyBuffer_seek D frame port bufIndex) 0)
      as [Hneg | Hpos].
    + rewrite (WriteKeyBuffer_negative D fs s f) by assumption.
      eexists _, _, _. split; [reflexivity |].
      do 5 (split; [reflexivity |]).
      split; [unfold IsFileOpen; cbn; rewrite Hf; reflexivity |].
      split; [apply fclose_denied |].
      split; [split; [discriminate |]; intros [_ H0]; lia |].
      split; [discriminate |].
      intros f0 [= <-].
      split; [eexists; split; [reflexivity | split; reflexivity] |].
      split; [intros p Hp; apply fclose_other; exact Hp |].
      split; [intros _; apply fclose_flushed | discriminate].
    + rewrite (WriteKeyBuffer_at D fs s f) by assumption.
      eexists _, _, _. split; [reflexivity |].
      do 5 (split; [reflexivity |]).
      split; [unfold IsFileOpen; cbn; rewrite Hf; reflexivity |].
      split; [reflexivity |].
      split; [split; [intros _; unfold IsFileOpen; rewrite Hf; auto | reflexivity] |].
      split; [discriminate |].
      intros f0 [= <-].
      split; [eexists; split; [reflexivity | split; reflexivity] |].
      split; [intros p Hp; apply set_stream_other; exact Hp |].
      split; [discriminate |].
      intros _ pos. subst pos.
      rewrite file_data_set_stream.
      set (pos := Z.to_nat (WriteKeyBuffer_seek D frame port bufIndex)).
      split; [apply pwrite_lookup_written |].
      split; [| split].
      * intros i Hne Hlt. rewrite pwrite_lookup.
        repeat case_decide; try reflexivity; simpl in *; lia.
      * intros i Hi. rewrite pwrite_lookup.
        repeat case_decide; try reflexivity; lia.
      * rewrite pwrite_length. reflexivity.
  - rewrite (WriteKeyBuffer_closed D fs s) by assumption.
    eexists _, _, _. split; [reflexivity |].
    do 7 (split; [reflexivity |]).
    split.
    { split; [discriminate |]. unfold IsFileOpen. rewrite Hf.
      intros [H0 _]. discriminate H0. }
    split; [auto |]. intros f0 H0. discriminate H0.
Qed.

(** *** Addresses *)

Lemma byteOffset_injective D a p i b q j :
  valid_triple D a p i -> valid_triple D b q j ->
  byteOffset D a p i = byteOffset D b q j -> a = b /\ p = q /\ i = j.
Proof.
  intros (Ha & Hp & Hi & _) (Hb & Hq & Hj & _).
  unfold byteOffset, frameRecordOffset, inputBytesPerFrame.
  set (cib := Z.of_nat (controllerInputBytes D)) in *.
  set (ports := Z.of_nat (controllerPortsSupported D)) in *.
  intros E.
  assert (E' : (a * ports + p) * cib + i = (b * ports + q) * cib + j) by lia.
  clear E.
  assert (Hcib : 0 < cib) by lia.
  assert (E1 : a * ports + p = b * ports + q /\ i = j).
  { assert (Hd : ((a * ports + p) * cib + i) / cib = a * ports + p)
      by (rewrite Z.div_add_l by lia; rewrite Z.div_small by lia; lia).
    assert (Hd' : ((b * ports + q) * cib + j) / cib = b * ports + q)
      by (rewrite Z.div_add_l by lia; rewrite Z.div_small by lia; lia).
    rewrite E' in Hd. rewrite Hd in Hd'. split; [exact Hd' |].
    rewrite Hd' in E'. lia. }
  destruct E1 as [E1 ->].
  assert (Hports : 0 < ports) by lia.
  assert (Hd : (a * ports + p) / ports = a)
    by (rewrite Z.div_add_l by lia; rewrite Z.div_small by lia; lia).
  assert (Hd' : (b * ports + q) / ports = b)
    by (rewrite Z.div_add_l by lia; rewrite Z.div_small by lia; lia).
  rewrite E1 in Hd. rewrite Hd in Hd'. subst b.
  split; [reflexivity |]. split; [lia | reflexivity].
Qed.

(** Different valid triples are read from different offsets of the file, and
    the offset of a bulk read of a block is the offset of its first byte. *)
Theorem addresses_are_distinct D a p i b q j :
  decls_wf D -> valid_triple D a p i -> valid_triple D b q j ->
  (ReadKeyBuffer_seek D a p i = ReadKeyBuffer_seek D b q j ->
   a = b /\ p = q /\ i = j) /\
  BulkReadPadData_seek D a p = ReadKeyBuffer_seek D a p 0 /\
  ReadKeyBuffer_seek D a p i = BulkReadPadData_seek D a p + i.
Proof.
  intros Hwf Ha Hb.
  destruct (ReadKeyBuffer_seek_exact D a p i Hwf Ha) as (Ea & _).
  destruct (ReadKeyBuffer_seek_exact D b q j Hwf Hb) as (Eb & _).
  assert (Ha0 : valid_triple D a p 0).
  { destruct Ha as (? & ? & ? & ?). repeat split; try assumption; lia. }
  destruct (ReadKeyBuffer_seek_exact D a p 0 Hwf Ha0) as (Ea0 & _).
  assert (E0 : BulkReadPadData_seek D a p = ReadKeyBuffer_seek D a p 0).
  { unfold BulkReadPadData_seek, ReadKeyBuffer_seek. rewrite Z.add_0_r.
    reflexivity. }
  split; [| split; [exact E0 |]].
  - rewrite Ea, Eb. apply byteOffset_injective; assumption.
  - rewrite E0, Ea, Ea0. unfold byteOffset. lia.
Qed.

Lemma valid_triple_other : valid_triple decls64 3 0 17.
Proof. unfold valid_triple. vm_compute. intuition congruence. Qed.

(** The last byte of port 0 and the fifth byte of port 1 of frame 3 are 5
    bytes apart. *)
Lemma addresses_are_distinct_witness :
  ReadKeyBuffer_seek decls64 3 1 4 = BulkReadPadData_seek decls64 3 1 + 4 /\
  ReadKeyBuffer_seek decls64 3 1 4 <> ReadKeyBuffer_seek decls64 3 0 17.
Proof.
  destruct (addresses_are_distinct decls64 3 1 4 3 0 17 decls64_wf
              valid_triple_sample valid_triple_other) as (Hinj & _ & Hoff).
  split; [exact Hoff |].
  intros E. destruct (Hinj E) as (_ & Hp & _). discriminate Hp.
Defined.

(** *** A write and the other bytes *)

(** With the block size 18 of [WriteKeyBuffer]: a write at a valid triple
    changes no byte that another valid triple addresses.  A triple that was
    read with success is read with the same byte after the write; a triple
    beyond the old end of the file that lies before the written one is read
    as zero; one that lies after it still cannot be read.  The reads after
    the write leave the file system as the write left it. *)
Theorem write_leaves_other_triples D fs s f a p i b q j buf result :
  controllerInputBytes D = 18%nat -> decls_wf D ->
  valid_triple D a p i -> valid_triple D b q j ->
  (a, p, i) <> (b, q, j) ->
  recordingFile s = Some f ->
  exists fs1 s1,
    WriteKeyBuffer D fs s a p i buf = (fs1, s1, true) /\
    (forall c fs2 s2,
        ReadKeyBuffer D fs s result b q j = (fs2, s2, c, true) ->
        exists s3, ReadKeyBuffer D fs1 s1 result b q j = (fs1, s3, c, true)) /\
    (forall fs2 s2 r,
        ReadKeyBuffer D fs s result b q j = (fs2, s2, r, false) ->
        exists s3,
          ReadKeyBuffer D fs1 s1 result b q j
          = (fs1, s3,
             if ReadKeyBuffer_seek D b q j <? ReadKeyBuffer_seek D a p i
             then Byte.x00 else result,
             ReadKeyBuffer_seek D b q j <? ReadKeyBuffer_seek D a p i)).
Proof.
  intros Hcib Hwf Ha Hb Hne Hf.
  destruct (ReadKeyBuffer_seek_exact D a p i Hwf Ha) as (Ea & Hpa & _).
  destruct (ReadKeyBuffer_seek_exact D b q j Hwf Hb) as (Eb & Hpb & _).
  pose proof (seek_write_read D a p i Hcib) as Ew.
  assert (Hdiff : ReadKeyBuffer_seek D a p i <> ReadKeyBuffer_seek D b q j).
  { rewrite Ea, Eb. intros E.
    destruct (byteOffset_injective D a p i b q j Ha Hb E) as (-> & -> & ->).
    apply Hne. reflexivity. }
  rewrite (WriteKeyBuffer_at D fs s f) by (first [exact Hf | rewrite Ew; lia]).
  eexists _, _. split; [reflexivity |].
  set (pa := Z.to_nat (WriteKeyBuffer_seek D a p i)).
  set (pb := Z.to_nat (ReadKeyBuffer_seek D b q j)).
  set (s1 := set_recordingFile (Some (mkFILE (f_path f) (pa + 1))) s).
  set (fs1 := set_stream fs (f_path f) (pwrite (stream_data fs f) pa [buf])).
  assert (Hs1 : recordingFile s1 = Some (mkFILE (f_path f) (pa + 1)))
    by reflexivity.
  assert (Hd1 : stream_data fs1 (mkFILE (f_path f) (pa + 1))
                = pwrite (stream_data fs f) pa [buf])
    by (unfold fs1; apply stream_data_set_stream; reflexivity).
  assert (Hpab : pa <> pb) by (unfold pa, pb; rewrite Ew; lia).
  assert (Hlook : stream_data fs1 (mkFILE (f_path f) (pa + 1)) !! pb
                  = if decide (pb < length (stream_data fs f))%nat
                    then stream_data fs f !! pb
                    else if decide (pb < pa)%nat then Some Byte.x00 else None).
  { rewrite Hd1, pwrite_lookup. simpl length.
    repeat case_decide; try reflexivity; try lia.
    apply lookup_ge_None. lia. }
  split.
  - intros c fs2 s2 Hread.
    destruct (stream_data fs f !! pb) as [c0 |] eqn:Hc0.
    + rewrite (ReadKeyBuffer_at D fs s f result b q j c0) in Hread
        by (first [exact Hf | rewrite Eb; lia | exact Hc0]).
      injection Hread as _ _ <-.
      pose proof (lookup_lt_Some _ _ _ Hc0) as Hlt.
      rewrite (ReadKeyBuffer_at D fs1 s1 (mkFILE (f_path f) (pa + 1)) result b q j c0).
      * eexists. reflexivity.
      * exact Hs1.
      * rewrite Eb. lia.
      * fold pb. rewrite Hlook.
        repeat case_decide; first [reflexivity | assumption | lia].
    + rewrite (ReadKeyBuffer_past_end D fs s f) in Hread
        by (first [exact Hf | rewrite Eb; lia | exact Hc0]).
      discriminate Hread.
  - intros fs2 s2 r Hread.
    destruct (stream_data fs f !! pb) as [c0 |] eqn:Hc0.
    + rewrite (ReadKeyBuffer_at D fs s f result b q j c0) in Hread
        by (first [exact Hf | rewrite Eb; lia | exact Hc0]).
      discriminate Hread.
    + apply lookup_ge_None in Hc0.
      destruct (Z.ltb_spec (ReadKeyBuffer_seek D b q j) (ReadKeyBuffer_seek D a p i))
        as [Hlt | Hge].
      * rewrite (ReadKeyBuffer_at D fs1 s1 (mkFILE (f_path f) (pa + 1)) result b q j
                   Byte.x00).
        -- eexists. reflexivity.
        -- exact Hs1.
        -- rewrite Eb. lia.
        -- fold pb. rewrite Hlook.
           repeat case_decide;
             first [reflexivity | lia | unfold pa, pb in *; rewrite Ew in *; lia].
      * rewrite (ReadKeyBuffer_past_end D fs1 s1 (mkFILE (f_path f) (pa + 1))).
        -- eexists. reflexivity.
        -- exact Hs1.
        -- rewrite Eb. lia.
        -- fold pb. rewrite Hlook.
           repeat case_decide;
             first [reflexivity | lia | unfold pa, pb in *; rewrite Ew in *; lia].
Qed.

(** On the fresh sample recording, a byte is written at frame 3, port 1,
    index 4; the last byte of port 0, which lay beyond the end of the file,
    is read as zero afterwards. *)
Lemma write_leaves_other_triples_witness :
  exists fs1 s1 s3,
    WriteKeyBuffer decls64 (fst fresh_recording) (snd fresh_recording)
                   3 1 4 Byte.x2a
    = (fs1, s1, true) /\
    ReadKeyBuffer decls64 fs1 s1 Byte.xff 3 0 17 = (fs1, s3, Byte.x00, true).
Proof.
  destruct (write_leaves_other_triples decls64 (fst fresh_recording)
              (snd fresh_recording) (mkFILE rec_path 570)
              3 1 4 3 0 17 Byte.x2a Byte.xff)
    as (fs1 & s1 & E & _ & Hfail).
  - reflexivity.
  - exact decls64_wf.
  - exact valid_triple_sample.
  - exact valid_triple_other.
  - discriminate.
  - vm_compute. reflexivity.
  - edestruct Hfail as (s3 & E3); [vm_compute; reflexivity |].
    assert (Hlt : (ReadKeyBuffer_seek decls64 3 0 17
                   <? ReadKeyBuffer_seek decls64 3 1 4) = true)
      by (vm_compute; reflexivity).
    rewrite Hlt in E3. exists fs1, s1, s3. split; assumption.
Defined.

(** *** Writing a block *)

Lemma pwrite_pwrite data pos a b :
  pwrite (pwrite data pos a) (pos + length a) b = pwrite data pos (a ++ b).
Proof.
  apply list_eq. intros i.
  rewrite !pwrite_lookup, pwrite_length, length_app.
  repeat case_decide; try lia; try reflexivity.
  - symmetry. apply lookup_app_l. lia.
  - rewrite lookup_app_r by lia. f_equal. lia.
Qed.

Lemma set_recordingFile_twice x y s :
  set_recordingFile x (set_recordingFile y s) = set_recordingFile x s.
Proof. reflexivity. Qed.

Lemma mkFILE_same f : f_unwritten f = [] -> mkFILE (f_path f) (f_pos f) = f.
Proof. destruct f as [p n u]. cbn. intros ->. reflexivity. Qed.

(** The bytes of a file after the bytes of [padData] at the indices [js]
    were written one by one, each at the offset [WriteKeyBuffer] computes. *)
Lemma foldl_pwrite_consecutive (seek : nat -> Z) (poll : nat -> byte)
  (base : nat) (n : nat) : forall (i : nat) data,
  (forall j : nat, (i <= j < i + n)%nat -> Z.to_nat (seek j) = (base + j)%nat) ->
  (0 < n)%nat ->
  foldl (fun d j => pwrite d (Z.to_nat (seek j)) [poll j]) data (seq i n)
  = pwrite data (base + i) (map poll (seq i n)).
Proof.
  induction n as [| n IH]; intros i data Hseek Hn; [lia |].
  destruct n as [| n].
  - simpl. rewrite Hseek by lia. reflexivity.
  - change (seq i (S (S n))) with (i :: seq (S i) (S n)).
    cbn [foldl map]. rewrite IH by (first [intros; apply Hseek; lia | lia]).
    rewrite Hseek by lia.
    replace (base + S i)%nat with (base + i + length [poll i])%nat
      by (simpl; lia).
    apply pwrite_pwrite.
Qed.

Lemma WriteFrame_loop_outcome D frame port pd count : forall i fs s f,
  recordingFile s = Some f ->
  exists (k : nat) fs' s' f',
    (k <= count)%nat /\
    WriteFrame_loop D fs s frame port pd i count
    = (fs', s', bool_decide (k = count)) /\
    (forall j : nat, (j < k)%nat ->
                     0 <= WriteKeyBuffer_seek D frame port (Z.of_nat (i + j))) /\
    ((k < count)%nat ->
     WriteKeyBuffer_seek D frame port (Z.of_nat (i + k)) < 0) /\
    recordingFile s' = Some f' /\ f_path f' = f_path f /\
    s' = set_recordingFile (Some f') s /\
    fs_denied fs' = fs_denied fs /\
    (forall p, p <> f_path f -> fs_files fs' !! p = fs_files fs !! p) /\
    ((0 < count)%nat ->
     f_unwritten f' = [] /\ file_data fs' (f_path f) = stream_data fs' f') /\
    (k = 0%nat -> f_unwritten f = [] -> fs' = fs /\ s' = s) /\
    stream_data fs' f'
    = foldl (fun d j => pwrite d (Z.to_nat
                                    (WriteKeyBuffer_seek D frame port (Z.of_nat j)))
                               [PollControllerData pd j])
            (stream_data fs f) (seq i k).
Proof.
  induction count as [| count IH]; intros i fs s f Hf.
  - exists 0%nat, fs, s, f. cbn.
    split; [lia |]. split; [reflexivity |].
    split; [intros; lia |]. split; [lia |].
    split; [exact Hf |]. split; [reflexivity |].
    split; [symmetry; apply set_recordingFile_same; exact Hf |].
    split; [reflexivity |]. split; [reflexivity |].
    split; [lia |]. split; [auto | reflexivity].
  - cbn [WriteFrame_loop].
    destruct (Z.lt_ge_cases (WriteKeyBuffer_seek D frame port (Z.of_nat i)) 0)
      as [Hneg | Hpos].
    + rewrite (WriteKeyBuffer_negative D fs s f) by assumption. cbn [negb].
      exists 0%nat. eexists _, _, _.
      split; [lia |]. split; [reflexivity |].
      split; [intros; lia |].
      split; [intros _; rewrite Nat.add_0_r; exact Hneg |].
      split; [reflexivity |]. split; [reflexivity |].
      split; [reflexivity |].
      split; [apply fclose_denied |].
      split; [intros p Hp; apply fclose_other; exact Hp |].
      split.
      { intros _. split; [reflexivity |].
        rewrite file_data_fclose. symmetry.
        apply stream_data_fclose; reflexivity. }
      split.
      { intros _ Hu. split; [apply fclose_written; exact Hu |].
        rewrite (mkFILE_same f Hu). apply set_recordingFile_same. exact Hf. }
      cbn [seq foldl]. apply stream_data_fclose; reflexivity.
    + rewrite (WriteKeyBuffer_at D fs s f) by assumption. cbn [negb].
      set (pos := Z.to_nat (WriteKeyBuffer_seek D frame port (Z.of_nat i))).
      set (f1 := mkFILE (f_path f) (pos + 1)).
      set (fs1 := set_stream fs (f_path f)
                    (pwrite (stream_data fs f) pos [PollControllerData pd i])).
      assert (Hd1 : stream_data fs1 f1
                    = pwrite (stream_data fs f) pos [PollControllerData pd i])
        by (apply stream_data_set_stream; reflexivity).
      destruct (IH (S i) fs1 (set_recordingFile (Some f1) s) f1 eq_refl)
        as (k & fs' & s' & f' & Hk & -> & Hnn & Hng & Hs' & Hp' & Hset & Hden
            & Hoth & Hfl & Hk0 & Hdata).
      exists (S k), fs', s', f'.
      split; [lia |].
      split; [f_equal; apply bool_decide_ext; lia |].
      split.
      { intros [| j] Hj.
        - rewrite Nat.add_0_r. exact Hpos.
        - replace (i + S j)%nat with (S i + j)%nat by lia. apply Hnn. lia. }
      split.
      { intros Hlt. replace (i + S k)%nat with (S i + k)%nat by lia.
        apply Hng. lia. }
      split; [exact Hs' |]. split; [exact Hp' |].
      split; [rewrite Hset; reflexivity |].
      split; [rewrite Hden; reflexivity |].
      split.
      { intros p Hp. rewrite Hoth by exact Hp.
        unfold fs1. apply set_stream_other. exact Hp. }
      split.
      { intros _. destruct count as [| count'].
        - assert (k = 0%nat) by lia. subst k.
          destruct (Hk0 eq_refl eq_refl) as (-> & ->).
          cbn [recordingFile set_recordingFile] in Hs'. injection Hs' as <-.
          split; [reflexivity |].
          unfold fs1 at 1. rewrite file_data_set_stream. symmetry. exact Hd1.
        - apply Hfl. lia. }
      split; [intros; lia |].
      rewrite Hdata, Hd1. reflexivity.
Qed.

(** *** Reading blocks *)

Lemma foldl_insert_lookup (g : nat -> byte) (l : list nat) :
  forall (acc : list byte) (j : nat),
    foldl (fun pd i => UpdateControllerData i (g i) pd) acc l !! j
    = if decide (j ∈ l /\ (j < length acc)%nat) then Some (g j) else acc !! j.
Proof.
  induction l as [| x l IH]; intros acc j.
  - cbn. case_decide as H; [| reflexivity].
    destruct H as [H _]. apply elem_of_nil in H. contradiction.
  - cbn [foldl]. rewrite IH. unfold UpdateControllerData.
    rewrite length_insert.
    destruct (decide (j ∈ l /\ (j < length acc)%nat)) as [[Hin Hlt] | Hno].
    + rewrite decide_True; [reflexivity |].
      split; [apply elem_of_cons; auto | exact Hlt].
    + destruct (decide (x = j)) as [-> | Hne].
      * destruct (decide (j < length acc)%nat) as [Hlt | Hge].
        -- rewrite list_lookup_insert_eq by exact Hlt.
           rewrite decide_True; [reflexivity |].
           split; [apply elem_of_cons; auto | exact Hlt].
        -- rewrite list_insert_ge by lia.
           rewrite decide_False; [reflexivity |]. intros [_ ?]. lia.
      * rewrite list_lookup_insert_ne by exact Hne.
        rewrite decide_False; [reflexivity |].
        intros [Hin Hlt]. apply elem_of_cons in Hin.
        destruct Hin as [-> | Hin]; [congruence | apply Hno; auto].
Qed.

(** The [PadData] that the loop over [padBytes] builds holds [padBytes]. *)
Lemma frameData_of_padBytes (pb : list byte) (n : nat) :
  length pb = n ->
  foldl (fun pd i => UpdateControllerData i (nth i pb Byte.x00) pd)
        (replicate n Byte.x00) (seq 0 n)
  = pb.
Proof.
  intros Hl. apply list_eq. intros j.
  rewrite foldl_insert_lookup, length_replicate.
  destruct (decide (j < n)%nat) as [Hlt | Hge].
  - rewrite decide_True
      by (split; [apply elem_of_seq; lia | exact Hlt]).
    destruct (lookup_lt_is_Some_2 pb j ltac:(lia)) as [x Hx].
    rewrite Hx. f_equal. apply nth_lookup_Some with (d := Byte.x00) in Hx.
    exact Hx.
  - rewrite decide_False by (intros [_ ?]; lia).
    transitivity (@None byte).
    + apply lookup_replicate_None. lia.
    + symmetry. apply lookup_ge_None. lia.
Qed.

Lemma overlay_length pb got :
  (length got <= length pb)%nat -> length (overlay pb got) = length pb.
Proof.
  intros H. unfold overlay. rewrite length_app, length_drop. lia.
Qed.

Lemma bulk_step_at D port k fs f pb (m : gmap Z (list byte)) :
  0 <= BulkReadPadData_seek D k port -> wrapU 32 k = k ->
  length pb = controllerInputBytes D ->
  let got := take (controllerInputBytes D)
                  (drop (Z.to_nat (BulkReadPadData_seek D k port))
                        (stream_data fs f)) in
  length (overlay pb got) = controllerInputBytes D /\
  bulk_step D port k (fs, f, pb, m)
  = (fclose fs f,
     mkFILE (f_path f) (Z.to_nat (BulkReadPadData_seek D k port) + length got),
     overlay pb got,
     match got with
     | [] => m
     | _ :: _ => match m !! k with
                 | Some _ => m
                 | None => <[k := overlay pb got]> m
                 end
     end).
Proof.
  intros Hpos Hk Hl got.
  assert (Hgl : (length got <= length pb)%nat).
  { unfold got. rewrite length_take. lia. }
  pose proof (overlay_length pb got Hgl) as Hol. rewrite Hl in Hol.
  split; [exact Hol |].
  unfold bulk_step. rewrite fseek_nonneg by exact Hpos.
  unfold fread.
  rewrite (stream_data_fclose fs f (mkFILE (f_path f) _)) by reflexivity.
  cbn [mkFILE f_path f_pos f_unwritten].
  rewrite Nat.mul_1_l. fold got. rewrite Nat.div_1_r.
  rewrite Hk. rewrite frameData_of_padBytes by exact Hol.
  destruct got as [| g0 gs]; cbn [length Nat.eqb negb]; reflexivity.
Qed.

Lemma bulk_loop_blocks D port n : forall fr fs f pb (m : gmap Z (list byte)),
  (0 < controllerInputBytes D)%nat ->
  length pb = controllerInputBytes D ->
  0 <= fr -> fr + Z.of_nat n <= 2 ^ 31 ->
  (forall k, fr <= k < fr + Z.of_nat n -> 0 <= BulkReadPadData_seek D k port) ->
  (forall k, fr <= k -> m !! k = None) ->
  exists fs' f' pb' m',
    bulk_loop D port n fr (fs, f, pb, m) = (fs', f', pb', m') /\
    (forall k, k < fr -> m' !! k = m !! k) /\
    (forall k, fr + Z.of_nat n <= k -> m' !! k = None) /\
    (forall k, fr <= k < fr + Z.of_nat n ->
       ((Z.to_nat (BulkReadPadData_seek D k port) + controllerInputBytes D
         <= length (stream_data fs f))%nat ->
        m' !! k = Some (block_at D (stream_data fs f) k port)) /\
       ((length (stream_data fs f)
         <= Z.to_nat (BulkReadPadData_seek D k port))%nat ->
        m' !! k = None)).
Proof.
  induction n as [| n IH]; intros fr fs f pb m Hc Hl Hfr Hmax Hseek Hm.
  - exists fs, f, pb, m. split; [reflexivity |].
    split; [auto |]. split; [intros; apply Hm; lia |]. intros; lia.
  - cbn [bulk_loop].
    assert (Hw : wrapU 32 fr = fr) by (apply wrapU_small; simpl; lia).
    destruct (bulk_step_at D port fr fs f pb m (Hseek fr ltac:(lia)) Hw Hl)
      as (Hl1 & ->).
    set (got := take (controllerInputBytes D)
                     (drop (Z.to_nat (BulkReadPadData_seek D fr port))
                           (stream_data fs f))) in *.
    set (m1 := match got with
               | [] => m
               | _ :: _ => match m !! fr with
                           | Some _ => m
                           | None => <[fr := overlay pb got]> m
                           end
               end).
    assert (Hm1 : forall k, k <> fr -> m1 !! k = m !! k).
    { intros k Hne. unfold m1. destruct got; [reflexivity |].
      rewrite Hm by lia. apply lookup_insert_ne. congruence. }
    assert (Hm1fr : m1 !! fr = match got with
                               | [] => None
                               | _ :: _ => Some (overlay pb got)
                               end).
    { unfold m1. destruct got; [apply Hm; lia |].
      rewrite Hm by lia. apply lookup_insert_eq. }
    set (f1 := mkFILE (f_path f)
                 (Z.to_nat (BulkReadPadData_seek D fr port) + length got)).
    assert (Hd1 : stream_data (fclose fs f) f1 = stream_data fs f)
      by (apply stream_data_fclose; reflexivity).
    destruct (IH (fr + 1) (fclose fs f) f1 (overlay pb got) m1)
      as (fs' & f' & pb' & m' & -> & Hlow & Hhigh & Hin).
    + exact Hc.
    + exact Hl1.
    + lia.
    + lia.
    + intros k Hk. apply Hseek. lia.
    + intros k Hk. rewrite Hm1 by lia. apply Hm. lia.
    + rewrite Hd1 in Hin.
      exists fs', f', pb', m'. split; [reflexivity |].
      split; [intros k Hk; rewrite Hlow by lia; apply Hm1; lia |].
      split; [intros k Hk; apply Hhigh; lia |].
      intros k Hk. destruct (decide (k = fr)) as [-> | Hne].
      * rewrite Hlow by lia. rewrite Hm1fr. split.
        -- intros Hfull.
           assert (Hgl : length got = controllerInputBytes D).
           { unfold got. rewrite length_take, length_drop. lia. }
           rewrite overlay_full by (rewrite Hgl, Hl; lia).
           assert (Hgen : forall (l X : list byte), (0 < length l)%nat ->
                     match l with [] => None | _ :: _ => Some X end = Some X).
           { intros [| ? ?] X Hlen; [simpl in Hlen; lia | reflexivity]. }
           rewrite Hgen by lia. reflexivity.
        -- intros Hpast. unfold got. rewrite drop_ge by exact Hpast.
           rewrite take_nil. reflexivity.
      * apply Hin. lia.
Qed.

(** *** Blocks *)

Lemma valid_triple_index D frame port i j :
  valid_triple D frame port i -> 0 <= j < Z.of_nat (controllerInputBytes D) ->
  valid_triple D frame port j.
Proof. intros (? & ? & ? & ?) Hj. repeat split; try assumption; lia. Qed.

Lemma BulkReadPadData_seek_exact D frame port :
  decls_wf D -> valid_triple D frame port 0 ->
  BulkReadPadData_seek D frame port = byteOffset D frame port 0 /\
  headerSize D + 1 <= byteOffset D frame port 0.
Proof.
  intros Hwf Hv.
  destruct (ReadKeyBuffer_seek_exact D frame port 0 Hwf Hv) as (E & _).
  split.
  - rewrite <- E. unfold BulkReadPadData_seek, ReadKeyBuffer_seek.
    rewrite Z.add_0_r. reflexivity.
  - destruct Hv as (Hfr & Hp & _ & _).
    unfold byteOffset, frameRecordOffset, inputBytesPerFrame. nia.
Qed.

Lemma seek_of_index D frame port (j : nat) :
  decls_wf D -> valid_triple D frame port 0 ->
  (j < controllerInputBytes D)%nat ->
  ReadKeyBuffer_seek D frame port (Z.of_nat j)
  = byteOffset D frame port 0 + Z.of_nat j.
Proof.
  intros Hwf Hv Hj.
  assert (Hvj : valid_triple D frame port (Z.of_nat j))
    by (apply (valid_triple_index D frame port 0); [exact Hv | lia]).
  destruct (ReadKeyBuffer_seek_exact D frame port _ Hwf Hvj) as (-> & _).
  unfold byteOffset. lia.
Qed.

Lemma map_nth_seq (l : list byte) :
  map (fun j => nth j l Byte.x00) (seq 0 (length l)) = l.
Proof.
  apply list_eq. intros i. rewrite list_lookup_fmap.
  destruct (decide (i < length l)%nat) as [Hlt | Hge].
  - rewrite lookup_seq_lt by exact Hlt. cbn.
    destruct (lookup_lt_is_Some_2 l i Hlt) as [x Hx]. rewrite Hx. f_equal.
    apply nth_lookup_Some with (d := Byte.x00) in Hx. exact Hx.
  - rewrite lookup_seq_ge by lia. cbn. symmetry. apply lookup_ge_None. lia.
Qed.

(** The loop of [WriteFrame] at a valid frame and port, with the block size
    18 of [WriteKeyBuffer]: every byte is accepted and the block is in the
    file at its offset. *)
Lemma WriteFrame_loop_valid D fs s f frame port padData :
  controllerInputBytes D = 18%nat -> decls_wf D ->
  valid_triple D frame port 0 ->
  recordingFile s = Some f ->
  length padData = controllerInputBytes D ->
  exists fs' s' f',
    WriteFrame_loop D fs s frame port padData 0 (controllerInputBytes D)
    = (fs', s', true) /\
    recordingFile s' = Some f' /\ f_path f' = f_path f /\
    f_unwritten f' = [] /\
    s' = set_recordingFile (Some f') s /\
    fs_denied fs' = fs_denied fs /\
    (forall p, p <> f_path f -> fs_files fs' !! p = fs_files fs !! p) /\
    file_data fs' (f_path f)
    = pwrite (stream_data fs f) (Z.to_nat (byteOffset D frame port 0)) padData.
Proof.
  intros Hcib Hwf Hv Hf Hl.
  destruct (BulkReadPadData_seek_exact D frame port Hwf Hv) as (_ & Hbase).
  assert (Hhs : 0 <= headerSize D) by (unfold headerSize; lia).
  assert (Hseek : forall j : nat, (j < controllerInputBytes D)%nat ->
            WriteKeyBuffer_seek D frame port (Z.of_nat j)
            = byteOffset D frame port 0 + Z.of_nat j).
  { intros j Hj. rewrite seek_write_read by exact Hcib.
    apply seek_of_index; assumption. }
  destruct (WriteFrame_loop_outcome D frame port padData
              (controllerInputBytes D) 0 fs s f Hf)
    as (k & fs' & s' & f' & Hk & E & _ & Hneg & Hs' & Hp' & Hset & Hden
        & Hoth & Hfl & _ & Hdata).
  assert (Hkc : k = controllerInputBytes D).
  { destruct (decide (k = controllerInputBytes D)) as [| Hne]; [assumption |].
    assert (Hlt : (k < controllerInputBytes D)%nat) by lia.
    specialize (Hneg Hlt). rewrite Nat.add_0_l, Hseek in Hneg by exact Hlt.
    lia. }
  rewrite bool_decide_eq_true_2 in E by exact Hkc.
  destruct Hfl as (Hu' & Hfile); [lia |].
  exists fs', s', f'. split; [exact E |].
  split; [exact Hs' |]. split; [exact Hp' |]. split; [exact Hu' |].
  split; [exact Hset |].
  split; [exact Hden |]. split; [exact Hoth |].
  rewrite Hfile, Hdata, Hkc.
  rewrite (foldl_pwrite_consecutive
             (fun j => WriteKeyBuffer_seek D frame port (Z.of_nat j))
             (PollControllerData padData)
             (Z.to_nat (byteOffset D frame port 0))).
  - rewrite Nat.add_0_r. f_equal. rewrite <- Hl. apply map_nth_seq.
  - intros j Hj. rewrite Hseek by lia. lia.
  - lia.
Qed.

(** The map a bulk read of an open store returns, for arguments in the range
    of [int] and frames whose records lie within the range of [long]. *)
Lemma BulkReadPadData_blocks D fs s f padBytes0 frameStart frameEnd port :
  decls_wf D -> (0 < controllerInputBytes D)%nat ->
  recordingFile s = Some f ->
  length padBytes0 = controllerInputBytes D ->
  0 <= port < Z.of_nat (controllerPortsSupported D) ->
  frameStart <= 2 ^ 31 - 1 -> frameEnd <= 2 ^ 31 - 1 ->
  headerSize D + 1 + frameEnd * inputBytesPerFrame D < 2 ^ (LB D - 1) ->
  exists fs' f' data,
    BulkReadPadData D fs s padBytes0 frameStart frameEnd port
    = Some (fs', set_recordingFile (Some f') s, data) /\
    f_path f' = f_path f /\
    (f_unwritten f = [] -> fs' = fs /\ f_unwritten f' = []) /\
    fs_denied fs' = fs_denied fs /\
    (forall p, p <> f_path f -> fs_files fs' !! p = fs_files fs !! p) /\
    (forall k, k < Z.max 0 frameStart \/ frameEnd <= k -> data !! k = None) /\
    (forall k, Z.max 0 frameStart <= k < frameEnd ->
       BulkReadPadData_seek D k port = byteOffset D k port 0 /\
       0 <= byteOffset D k port 0 /\
       ((Z.to_nat (byteOffset D k port 0) + controllerInputBytes D
         <= length (stream_data fs f))%nat ->
        data !! k = Some (block_at D (stream_data fs f) k port)) /\
       ((length (stream_data fs f) <= Z.to_nat (byteOffset D k port 0))%nat ->
        data !! k = None)).
Proof.
  intros Hwf Hc Hf Hl Hport Hs He Hmax.
  unfold BulkReadPadData. rewrite Hf.
  destruct (Z.ltb_spec (2 ^ 31 - 1) frameEnd) as [Hgt | _]; [lia |].
  set (start := if frameStart <? 0 then 0 else frameStart).
  assert (Hst : start = Z.max 0 frameStart).
  { unfold start. destruct (Z.ltb_spec frameStart 0); lia. }
  assert (Hw : wrapS 32 start = start) by (apply wrapS_small; simpl; lia).
  rewrite Hw, <- Hst.
  assert (Hib : 0 <= inputBytesPerFrame D) by (unfold inputBytesPerFrame; lia).
  assert (Hvalid : forall k, start <= k < frameEnd -> valid_triple D k port 0).
  { intros k Hk. unfold valid_triple.
    split; [lia |]. split; [exact Hport |]. split; [lia |]. nia. }
  assert (Hhs : 0 <= headerSize D) by (unfold headerSize; lia).
  destruct (bulk_loop_stream D port (Z.to_nat (frameEnd - start)) start
              fs f padBytes0 ∅)
    as (f0 & pb0 & data0 & E0 & Hp0 & Hu0 & _).
  destruct (bulk_loop_blocks D port (Z.to_nat (frameEnd - start)) start
              fs f padBytes0 ∅ Hc Hl)
    as (fs' & f' & pb' & data & E & Hlow & Hhigh & Hin).
  - lia.
  - lia.
  - intros k Hk.
    destruct (BulkReadPadData_seek_exact D k port Hwf (Hvalid k ltac:(lia)))
      as (-> & ?). lia.
  - intros k _. apply lookup_empty.
  - rewrite E. rewrite E in E0. injection E0 as -> -> _ _.
    eexists _, f0, data. split; [reflexivity |].
    split; [exact Hp0 |].
    split.
    { intros Hu. split; [| apply Hu0; exact Hu].
      destruct (Z.to_nat (frameEnd - start)); [reflexivity |].
      apply fclose_written. exact Hu. }
    split; [destruct (Z.to_nat (frameEnd - start));
            [reflexivity | apply fclose_denied] |].
    split.
    { intros p Hp. destruct (Z.to_nat (frameEnd - start)); [reflexivity |].
      apply fclose_other. exact Hp. }
    split.
    + intros k [Hk | Hk].
      * rewrite Hlow by exact Hk. apply lookup_empty.
      * destruct (Z.le_gt_cases start k) as [Hle | Hlt].
        -- apply Hhigh. lia.
        -- rewrite Hlow by lia. apply lookup_empty.
    + intros k Hk.
      destruct (BulkReadPadData_seek_exact D k port Hwf (Hvalid k Hk))
        as (Ek & Hge).
      destruct (Hin k ltac:(lia)) as (Hfull & Hpast). rewrite Ek in Hfull, Hpast.
      split; [exact Ek |]. split; [lia |]. split; assumption.
Qed.

(** *** Writing a block, reading it back *)

(** [WriteFrame] with a block size within the range of its [u16] index: the
    bytes of the block are written in order until the first one that
    [WriteKeyBuffer] refuses.  A closed store gives false with nothing
    changed; an open one gives true exactly when every byte was accepted,
    and the bytes before the refused one stay written.  When the block has
    a byte, the stream has nothing unwritten afterwards: the file holds the
    bytes of the stream. *)
Theorem WriteFrame_outcome D fs s frame port padData :
  Z.of_nat (controllerInputBytes D) <= 65535 ->
  exists fs' s' ok (k : nat),
    WriteFrame D fs s frame port padData = Some (fs', s', ok) /\
    header s' = header s /\ filename s' = filename s /\
    totalFrames s' = totalFrames s /\ undoCount s' = undoCount s /\
    fromSavestate s' = fromSavestate s /\ IsFileOpen s' = IsFileOpen s /\
    fs_denied fs' = fs_denied fs /\
    (k <= controllerInputBytes D)%nat /\
    (ok = true <-> IsFileOpen s = true /\ k = controllerInputBytes D) /\
    (forall j : nat, (j < k)%nat ->
                     0 <= WriteKeyBuffer_seek D frame port (Z.of_nat j)) /\
    (IsFileOpen s = true -> (k < controllerInputBytes D)%nat ->
     WriteKeyBuffer_seek D frame port (Z.of_nat k) < 0) /\
    (recordingFile s = None -> k = 0%nat /\ fs' = fs /\ s' = s) /\
    (forall f, recordingFile s = Some f ->
       exists f',
         recordingFile s' = Some f' /\ f_path f' = f_path f /\
         stream_data fs' f'
         = foldl (fun d j =>
                    pwrite d (Z.to_nat (WriteKeyBuffer_seek D frame port (Z.of_nat j)))
                           [PollControllerData padData j])
                 (stream_data fs f) (seq 0 k) /\
         (forall p, p <> f_path f -> fs_files fs' !! p = fs_files fs !! p) /\
         ((0 < controllerInputBytes D)%nat ->
          f_unwritten f' = [] /\
          file_data fs' (f_path f) = stream_data fs' f') /\
         (k = 0%nat -> f_unwritten f = [] -> fs' = fs /\ s' = s)).
Proof.
  intros Hu16. unfold WriteFrame.
  destruct (recordingFile s) as [f |] eqn:Hf.
  - destruct (Z.leb_spec (Z.of_nat (controllerInputBytes D)) 65535) as [_ | ?];
      [| lia].
    destruct (WriteFrame_loop_outcome D frame port padData
                (controllerInputBytes D) 0 fs s f Hf)
      as (k & fs' & s' & f' & Hk & -> & Hnn & Hneg & Hs' & Hp' & Hset & Hden
          & Hoth & Hfl & Hk0 & Hdata).
    exists fs', s', (bool_decide (k = controllerInputBytes D)), k.
    split; [reflexivity |].
    split; [rewrite Hset; reflexivity |].
    split; [rewrite Hset; reflexivity |].
    split; [rewrite Hset; reflexivity |].
    split; [rewrite Hset; reflexivity |].
    split; [rewrite Hset; reflexivity |].
    split; [unfold IsFileOpen; rewrite Hf, Hs'; reflexivity |].
    split; [exact Hden |]. split; [exact Hk |].
    split.
    { rewrite bool_decide_eq_true. unfold IsFileOpen. rewrite Hf. tauto. }
    split; [intros j Hj; apply (Hnn j Hj) |].
    split; [intros _ Hlt; apply (Hneg Hlt) |].
    split; [discriminate |].
    intros f0 [= <-]. exists f'.
    split; [exact Hs' |]. split; [exact Hp' |]. split; [exact Hdata |].
    split; [exact Hoth |]. split; [exact Hfl | exact Hk0].
  - exists fs, s, false, 0%nat.
    split; [reflexivity |].
    do 7 (split; [reflexivity |]).
    split; [lia |].
    split.
    { unfold IsFileOpen. rewrite Hf. split; [discriminate |].
      intros [H0 _]. discriminate H0. }
    split; [intros j Hj; lia |].
    split; [unfold IsFileOpen; rewrite Hf; discriminate |].
    split; [auto |].
    intros f0 Hf0. discriminate Hf0.
Qed.

(** On the fresh sample recording every byte of a block of frame 1 is
    accepted. *)
Lemma WriteFrame_outcome_witness :
  exists fs' s', WriteFrame decls64 (fst fresh_recording) (snd fresh_recording)
                            1 0 sample_pad
                 = Some (fs', s', true).
Proof.
  destruct (WriteFrame_outcome decls64 (fst fresh_recording)
              (snd fresh_recording) 1 0 sample_pad)
    as (fs' & s' & ok & k & E & _).
  - vm_compute. discriminate.
  - exists fs', s'. rewrite E. vm_compute in E.
    injection E as _ _ <-. reflexivity.
Defined.

(** With the block size 18 of [WriteKeyBuffer]: [WriteFrame] at a valid
    frame and port of an open store accepts the whole block, and when it
    returns the file holds it at the offset of the block; every byte of it
    is then read back by [ReadKeyBuffer] at its index, and, for a frame
    below 2^31 - 1, a bulk read of that one frame returns exactly the block
    that was written.  The reads leave the file system as it is. *)
Theorem WriteFrame_then_read D fs s f frame port padData padBytes0 result :
  controllerInputBytes D = 18%nat -> decls_wf D ->
  valid_triple D frame port 0 ->
  recordingFile s = Some f ->
  length padData = controllerInputBytes D ->
  length padBytes0 = controllerInputBytes D ->
  exists fs' s',
    WriteFrame D fs s frame port padData = Some (fs', s', true) /\
    file_data fs' (f_path f)
    = pwrite (stream_data fs f) (Z.to_nat (byteOffset D frame port 0)) padData /\
    (forall (i : nat) b,
        padData !! i = Some b ->
        exists s'', ReadKeyBuffer D fs' s' result frame port (Z.of_nat i)
                    = (fs', s'', b, true)) /\
    (frame + 1 <= 2 ^ 31 - 1 ->
     exists s'',
       BulkReadPadData D fs' s' padBytes0 frame (frame + 1) port
       = Some (fs', s'', {[ frame := padData ]})).
Proof.
  intros Hcib Hwf Hv Hf Hl Hl0.
  destruct (WriteFrame_loop_valid D fs s f frame port padData Hcib Hwf Hv Hf Hl)
    as (fs' & s' & f' & E & Hs' & Hp' & Hu' & _ & _ & _ & Hdata).
  destruct (BulkReadPadData_seek_exact D frame port Hwf Hv) as (Eseek & Hbase).
  assert (Hhs : 0 <= headerSize D) by (unfold headerSize; lia).
  assert (Hd' : stream_data fs' f'
                = pwrite (stream_data fs f)
                         (Z.to_nat (byteOffset D frame port 0)) padData).
  { rewrite stream_data_written by exact Hu'. rewrite Hp'. exact Hdata. }
  exists fs', s'. split.
  { unfold WriteFrame. rewrite Hf.
    destruct (Z.leb_spec (Z.of_nat (controllerInputBytes D)) 65535) as [_ | ?];
      [| lia].
    rewrite E. reflexivity. }
  split; [exact Hdata |]. split.
  - intros i b Hb. pose proof (lookup_lt_Some _ _ _ Hb) as Hi.
    pose proof (seek_of_index D frame port i Hwf Hv ltac:(lia)) as Hsi.
    rewrite (ReadKeyBuffer_at D fs' s' f' result frame port (Z.of_nat i) b).
    + rewrite (fclose_written fs' f' Hu'). eexists. reflexivity.
    + exact Hs'.
    + rewrite Hsi. lia.
    + rewrite Hd', Hsi, pwrite_lookup.
      repeat case_decide; try lia.
      rewrite <- Hb. f_equal. lia.
  - intros Hfr. destruct Hv as (Hfr0 & Hport & _ & Hmax).
    destruct (BulkReadPadData_blocks D fs' s' f' padBytes0 frame (frame + 1) port)
      as (fs'' & f'' & data & -> & _ & Hsame & _ & _ & Hout & Hin);
      try assumption; try lia.
    destruct (Hsame Hu') as (-> & _).
    eexists. f_equal. f_equal.
    apply map_eq. intros k.
    destruct (decide (k = frame)) as [-> | Hne].
    + rewrite lookup_singleton_eq.
      destruct (Hin frame ltac:(lia)) as (_ & _ & Hfull & _).
      rewrite Hfull.
      * f_equal. unfold block_at. rewrite Eseek, Hd', <- Hl.
        apply pwrite_read.
      * rewrite Hd', pwrite_length. lia.
    + rewrite lookup_singleton_ne by congruence. apply Hout. lia.
Qed.

(** On the fresh sample recording, the block written for port 0 of frame 1
    is the one a bulk read of frame 1 returns. *)
Lemma WriteFrame_then_read_witness :
  exists fs' s' s'',
    WriteFrame decls64 (fst fresh_recording) (snd fresh_recording) 1 0 sample_pad
    = Some (fs', s', true) /\
    BulkReadPadData decls64 fs' s' (replicate 18 Byte.xff) 1 2 0
    = Some (fs', s'', {[ 1 := sample_pad ]}).
Proof.
  destruct (WriteFrame_then_read decls64 (fst fresh_recording)
              (snd fresh_recording) (mkFILE rec_path 570) 1 0 sample_pad
              (replicate 18 Byte.xff) Byte.x00)
    as (fs' & s' & E & _ & _ & Hb).
  - reflexivity.
  - exact decls64_wf.
  - unfold valid_triple. vm_compute. intuition congruence.
  - vm_compute. reflexivity.
  - reflexivity.
  - reflexivity.
  - destruct Hb as (s'' & Eb); [lia |].
    exists fs', s', s''. split; assumption.
Defined.

(** For arguments within the range of [int] and frames whose records lie
    within the range of [long], a bulk read of an open store changes nothing
    in the store but the stream, flushes at most the stream (the file system
    is as it was when the stream had nothing unwritten), and for every frame
    of the clamped range: when the stream holds the whole block of the port,
    the entry of the frame is that block; when the stream ends at or before
    the offset of the block, the frame has no entry. *)
Theorem BulkReadPadData_full_blocks D fs s f padBytes0 frameStart frameEnd port :
  decls_wf D -> (0 < controllerInputBytes D)%nat ->
  recordingFile s = Some f ->
  length padBytes0 = controllerInputBytes D ->
  0 <= port < Z.of_nat (controllerPortsSupported D) ->
  frameStart <= 2 ^ 31 - 1 -> frameEnd <= 2 ^ 31 - 1 ->
  headerSize D + 1 + frameEnd * inputBytesPerFrame D < 2 ^ (LB D - 1) ->
  exists fs' s' data,
    BulkReadPadData D fs s padBytes0 frameStart frameEnd port
    = Some (fs', s', data) /\
    header s' = header s /\ filename s' = filename s /\
    totalFrames s' = totalFrames s /\ undoCount s' = undoCount s /\
    fromSavestate s' = fromSavestate s /\ IsFileOpen s' = true /\
    fs_denied fs' = fs_denied fs /\
    (forall p, p <> f_path f -> fs_files fs' !! p = fs_files fs !! p) /\
    (f_unwritten f = [] -> fs' = fs) /\
    (forall k, Z.max 0 frameStart <= k < frameEnd ->
       ((Z.to_nat (byteOffset D k port 0) + controllerInputBytes D
         <= length (stream_data fs f))%nat ->
        data !! k
        = Some (take (controllerInputBytes D)
                     (drop (Z.to_nat (byteOffset D k port 0))
                           (stream_data fs f)))) /\
       ((length (stream_data fs f) <= Z.to_nat (byteOffset D k port 0))%nat ->
        data !! k = None)).
Proof.
  intros Hwf Hc Hf Hl Hport Hs He Hmax.
  destruct (BulkReadPadData_blocks D fs s f padBytes0 frameStart frameEnd port
              Hwf Hc Hf Hl Hport Hs He Hmax)
    as (fs' & f' & data & -> & _ & Hsame & Hden & Hoth & _ & Hin).
  eexists _, _, data. split; [reflexivity |].
  do 6 (split; [reflexivity |]).
  split; [exact Hden |]. split; [exact Hoth |].
  split; [intros Hu; apply (Hsame Hu) |].
  intros k Hk. destruct (Hin k Hk) as (E & _ & Hfull & Hpast).
  split; [| exact Hpast].
  intros H. rewrite (Hfull H). unfold block_at. rewrite E. reflexivity.
Qed.

(** In the sample recording with the block of frame 1, port 0: a bulk read
    of frames 0 to 3 returns the gap of frame 0 as zeros, the block of frame
    1 as written, and nothing for frame 2. *)
Lemma BulkReadPadData_full_blocks_witness :
  exists fs' s' data,
    BulkReadPadData decls64 (fst framed_recording) (snd framed_recording)
                    (replicate 18 Byte.xff) 0 3 0
    = Some (fs', s', data) /\
    data !! 0 = Some (replicate 18 Byte.x00) /\
    data !! 1 = Some sample_pad /\
    data !! 2 = None.
Proof.
  destruct (BulkReadPadData_full_blocks decls64 (fst framed_recording)
              (snd framed_recording) (mkFILE rec_path 624)
              (replicate 18 Byte.xff) 0 3 0)
    as (fs' & s' & data & E & _ & _ & _ & _ & _ & _ & _ & _ & _ & Hk).
  - exact decls64_wf.
  - simpl. lia.
  - vm_compute. reflexivity.
  - reflexivity.
  - simpl. lia.
  - lia.
  - lia.
  - vm_compute. reflexivity.
  - exists fs', s', data. split; [exact E |].
    split; [| split].
    + destruct (Hk 0 ltac:(lia)) as (H0 & _). rewrite H0;
        [vm_compute; reflexivity |].
      vm_compute. lia.
    + destruct (Hk 1 ltac:(lia)) as (H1 & _). rewrite H1;
        [vm_compute; reflexivity |].
      vm_compute. lia.
    + destruct (Hk 2 ltac:(lia)) as (_ & H2). apply H2. vm_compute. lia.
Defined.

(** *** The header block and the frame records *)

Lemma pwrite_app_r pre rest pos bs :
  (length pre <= pos)%nat ->
  pwrite (pre ++ rest) pos bs = pre ++ pwrite rest (pos - length pre) bs.
Proof.
  intros Hle. apply list_eq. intros i.
  destruct (decide (i < length pre)%nat) as [Hi | Hi].
  - rewrite pwrite_lookup, length_app.
    rewrite decide_True by lia. rewrite decide_True by lia.
    rewrite !lookup_app_l by exact Hi. reflexivity.
  - rewrite lookup_app_r by lia.
    rewrite !pwrite_lookup, length_app.
    repeat case_decide; try lia; try reflexivity.
    + apply lookup_app_r. lia.
    + f_equal. lia.
    + apply lookup_app_r. lia.
Qed.

(** With the block size 18 of [WriteKeyBuffer]: while the in-memory header
    and counters are the ones the stream of the open store holds, a byte or
    a block written at a valid address leaves them so, and when the write
    returns they are the ones the file holds: the write lands after the
    header block and flushes the stream.  The recording then opens again
    with the same header and flag. *)
Theorem frame_writes_keep_header_block D fs s f frame port i buf padData r :
  controllerInputBytes D = 18%nat -> decls_wf D ->
  valid_triple D frame port i ->
  stream_synced D fs s -> recordingFile s = Some f ->
  length padData = controllerInputBytes D ->
  (exists fs1 s1,
      WriteKeyBuffer D fs s frame port i buf = (fs1, s1, true) /\
      file_synced D fs1 s1 /\ header_block D s1 = header_block D s) /\
  (exists fs2 s2,
      WriteFrame D fs s frame port padData = Some (fs2, s2, true) /\
      file_synced D fs2 s2 /\ header_block D s2 = header_block D s /\
      (version (header s) = Byte.x01 -> f_path f ∉ fs_denied fs ->
       exists s3, OpenExisting D fs2 r (f_path f) = (fs2, s3, true) /\
                  header s3 = header s /\
                  fromSavestate s3 = fromSavestate s)).
Proof.
  intros Hcib Hwf Hv Hsync Hf Hl.
  destruct Hsync as (f0 & rest & Hf0 & Hhwf & Hdata).
  rewrite Hf in Hf0. injection Hf0 as <-.
  pose proof (header_block_length D s Hhwf) as Hbl.
  assert (Hv0 : valid_triple D frame port 0)
    by (apply (valid_triple_index D frame port i); [exact Hv | lia]).
  destruct (BulkReadPadData_seek_exact D frame port Hwf Hv0) as (_ & Hbase).
  assert (Hhs : headerSize D + 1 = Z.of_nat (sizeof_header D + 9))
    by (unfold headerSize; lia).
  split.
  - destruct (ReadKeyBuffer_seek_exact D frame port i Hwf Hv) as (Es & _).
    assert (Hpos : Z.of_nat (sizeof_header D + 9)
                   <= WriteKeyBuffer_seek D frame port i).
    { rewrite seek_write_read by exact Hcib. rewrite Es.
      destruct Hv as (_ & _ & Hi & _). unfold byteOffset in *. lia. }
    rewrite (WriteKeyBuffer_at D fs s f) by (first [exact Hf | lia]).
    eexists _, _. split; [reflexivity |]. split; [| reflexivity].
    eexists _, _. split; [reflexivity |]. split; [reflexivity |].
    split; [exact Hhwf |].
    cbn [mkFILE f_path]. rewrite file_data_set_stream.
    rewrite Hdata. rewrite pwrite_app_r by lia. reflexivity.
  - destruct (WriteFrame_loop_valid D fs s f frame port padData
                Hcib Hwf Hv0 Hf Hl)
      as (fs2 & s2 & f2 & E & Hs2 & Hp2 & Hu2 & Hset & Hden & _ & Hd2).
    assert (Hblock : header_block D s2 = header_block D s)
      by (rewrite Hset; reflexivity).
    assert (Hsync2 : file_synced D fs2 s2).
    { exists f2, (pwrite rest (Z.to_nat (byteOffset D frame port 0)
                               - length (header_block D s)) padData).
      split; [exact Hs2 |]. split; [exact Hu2 |].
      split; [rewrite Hset; exact Hhwf |].
      rewrite Hp2, Hd2, Hdata, Hblock. apply pwrite_app_r. lia. }
    exists fs2, s2. split.
    { unfold WriteFrame. rewrite Hf.
      destruct (Z.leb_spec (Z.of_nat (controllerInputBytes D)) 65535)
        as [_ | ?]; [| lia].
      rewrite E. reflexivity. }
    split; [exact Hsync2 |]. split; [exact Hblock |].
    intros Hver Hnd.
    rewrite <- Hp2.
    rewrite (reopen_synced D fs2 s2 f2 r Hsync2 Hs2).
    + eexists. split; [reflexivity |].
      split; cbn [header fromSavestate]; rewrite Hset; reflexivity.
    + rewrite Hset. exact Hver.
    + rewrite Hp2, Hden. exact Hnd.
Qed.

(** On the fresh sample recording a block written for frame 1 leaves the
    header block in place. *)
Lemma frame_writes_keep_header_block_witness :
  exists fs2 s2,
    WriteFrame decls64 (fst fresh_recording) (snd fresh_recording) 1 0 sample_pad
    = Some (fs2, s2, true) /\
    file_synced decls64 fs2 s2.
Proof.
  destruct (frame_writes_keep_header_block decls64 (fst fresh_recording)
              (snd fresh_recording) (mkFILE rec_path 570) 1 0 0 Byte.x2a
              sample_pad closed_store)
    as (_ & fs2 & s2 & E & Hs & _).
  - reflexivity.
  - exact decls64_wf.
  - unfold valid_triple. vm_compute. intuition congruence.
  - exact (file_synced_stream _ _ _ fresh_recording_synced).
  - vm_compute. reflexivity.
  - reflexivity.
  - exists fs2, s2. split; assumption.
Defined.

(** *** WriteHeader *)

(** On a header whose arrays have their declared sizes, [WriteHeader]
    succeeds exactly on an open store and changes nothing in the store but
    the stream, which it leaves with nothing unwritten.  When it returns,
    the file holds the bytes of the stream with the header block at their
    start replaced by the in-memory one: every byte after the block is
    kept, the file is never shorter than the stream was, no other file is
    touched, and a second [WriteHeader] changes nothing. *)
Theorem WriteHeader_rewrites_header_block D fs s :
  header_wf D (header s) ->
  exists fs' s',
    WriteHeader D fs s = (fs', s', IsFileOpen s) /\
    header s' = header s /\ filename s' = filename s /\
    totalFrames s' = totalFrames s /\ undoCount s' = undoCount s /\
    fromSavestate s' = fromSavestate s /\ IsFileOpen s' = IsFileOpen s /\
    fs_denied fs' = fs_denied fs /\
    (IsFileOpen s = false -> fs' = fs /\ s' = s) /\
    (forall f, recordingFile s = Some f ->
       take (sizeof_header D + 9) (file_data fs' (f_path f)) = header_block D s /\
       drop (sizeof_header D + 9) (file_data fs' (f_path f))
       = drop (sizeof_header D + 9) (stream_data fs f) /\
       length (file_data fs' (f_path f))
       = (length (stream_data fs f) `max` (sizeof_header D + 9))%nat /\
       (forall p, p <> f_path f -> fs_files fs' !! p = fs_files fs !! p) /\
       (exists f', recordingFile s' = Some f' /\ f_path f' = f_path f /\
                   f_unwritten f' = []) /\
       WriteHeader D fs' s' = (fs', s', true)).
Proof.
  intros Hwf. pose proof (header_block_length D s Hwf) as Hbl.
  destruct (recordingFile s) as [f |] eqn:Hf.
  - rewrite (WriteHeader_open D fs s f Hf Hwf).
    eexists _, _. split; [unfold IsFileOpen; rewrite Hf; reflexivity |].
    do 5 (split; [reflexivity |]).
    split; [unfold IsFileOpen; rewrite Hf; reflexivity |].
    split; [reflexivity |].
    split; [unfold IsFileOpen; rewrite Hf; discriminate |].
    intros f0 [= <-].
    rewrite file_data_set_stream.
    split; [apply take_app_length'; symmetry; exact Hbl |].
    split; [apply drop_app_length'; symmetry; exact Hbl |].
    split; [rewrite length_app, length_drop; lia |].
    split; [intros p Hp; apply set_stream_other; exact Hp |].
    split; [eexists; split; [reflexivity | split; reflexivity] |].
    rewrite (WriteHeader_open D _ _ (mkFILE (f_path f) (sizeof_header D + 9)))
      by (first [reflexivity | exact Hwf]).
    cbn [mkFILE f_path]. rewrite stream_data_set_stream by reflexivity.
    rewrite set_stream_twice.
    change (header_block D (set_recordingFile _ s)) with (header_block D s).
    rewrite drop_app_length' by (symmetry; exact Hbl).
    reflexivity.
  - rewrite (WriteHeader_closed D fs s Hf).
    exists fs, s. split; [unfold IsFileOpen; rewrite Hf; reflexivity |].
    do 7 (split; [reflexivity |]).
    split; [auto |]. intros f Hf0. discriminate Hf0.
Qed.

(** [WriteHeader] on the fresh sample recording leaves its 570 bytes. *)
Lemma WriteHeader_rewrites_header_block_witness :
  exists fs' s',
    WriteHeader decls64 (fst fresh_recording) (snd fresh_recording)
    = (fs', s', true) /\
    length (file_data fs' rec_path) = 570%nat.
Proof.
  destruct (WriteHeader_rewrites_header_block decls64 (fst fresh_recording)
              (snd fresh_recording) sample_header_wf)
    as (fs' & s' & E & _ & _ & _ & _ & _ & _ & _ & _ & Hf).
  exists fs', s'. split; [exact E |].
  destruct (Hf (mkFILE rec_path 570) ltac:(vm_compute; reflexivity))
    as (_ & _ & Hlen & _).
  etransitivity; [exact Hlen | vm_compute; reflexivity].
Defined.

(** *** Counters over many calls *)

Lemma SetTotalFrames_open D fs s frame :
  IsFileOpen (snd (SetTotalFrames D fs s frame)) = IsFileOpen s /\
  totalFrames (snd (SetTotalFrames D fs s frame))
  = (if IsFileOpen s then Z.max (totalFrames s) frame else totalFrames s).
Proof.
  unfold IsFileOpen. destruct (recordingFile s) as [f |] eqn:Hf.
  - destruct (Z.le_gt_cases frame (totalFrames s)) as [Hle | Hgt].
    + rewrite SetTotalFrames_not_greater by exact Hle. cbn [snd].
      rewrite Hf. split; [reflexivity | lia].
    + rewrite (SetTotalFrames_greater D fs s f) by (first [exact Hf | lia]).
      cbn. split; [reflexivity | lia].
  - rewrite SetTotalFrames_closed by exact Hf. cbn [snd]. rewrite Hf.
    split; reflexivity.
Qed.

Lemma foldl_max_ge (l : list Z) : forall t,
  t <= foldl Z.max t l /\ (forall x, x ∈ l -> x <= foldl Z.max t l).
Proof.
  induction l as [| y l IH]; intros t.
  - cbn. split; [lia |]. intros x Hx. apply elem_of_nil in Hx. contradiction.
  - cbn [foldl]. destruct (IH (Z.max t y)) as (H1 & H2).
    split; [lia |]. intros x Hx. apply elem_of_cons in Hx.
    destruct Hx as [-> | Hx]; [lia | apply H2; exact Hx].
Qed.

(** A store that is told frame after frame: on an open store the frame
    count ends as the largest of its first value and the frames reported,
    in whatever order they come, and a closed store keeps its count; the
    count never decreases.  While the in-memory header and counters were
    the ones the stream of the store holds, they still are; the last count
    written may still be in the buffer of the stream, and once the store is
    closed the file starts with the header block of the store. *)
Theorem SetTotalFrames_each_max D fs s frames :
  totalFrames (snd (SetTotalFrames_each D fs s frames))
  = (if IsFileOpen s then foldl Z.max (totalFrames s) frames
     else totalFrames s) /\
  totalFrames s <= totalFrames (snd (SetTotalFrames_each D fs s frames)) /\
  (IsFileOpen s = true ->
   forall x, x ∈ frames ->
             x <= totalFrames (snd (SetTotalFrames_each D fs s frames))) /\
  IsFileOpen (snd (SetTotalFrames_each D fs s frames)) = IsFileOpen s /\
  (IsFileOpen s = false -> SetTotalFrames_each D fs s frames = (fs, s)) /\
  (stream_synced D fs s ->
   stream_synced D (fst (SetTotalFrames_each D fs s frames))
                 (snd (SetTotalFrames_each D fs s frames)) /\
   forall f',
     recordingFile (snd (SetTotalFrames_each D fs s frames)) = Some f' ->
     exists rest,
       fs_files (fst (fst (Close (fst (SetTotalFrames_each D fs s frames))
                                 (snd (SetTotalFrames_each D fs s frames)))))
       !! f_path f'
       = Some (header_block D (snd (SetTotalFrames_each D fs s frames))
               ++ rest)).
Proof.
  assert (Hmain : forall l fs0 s0,
    totalFrames (snd (SetTotalFrames_each D fs0 s0 l))
    = (if IsFileOpen s0 then foldl Z.max (totalFrames s0) l
       else totalFrames s0) /\
    IsFileOpen (snd (SetTotalFrames_each D fs0 s0 l)) = IsFileOpen s0 /\
    (IsFileOpen s0 = false -> SetTotalFrames_each D fs0 s0 l = (fs0, s0)) /\
    (stream_synced D fs0 s0 ->
     stream_synced D (fst (SetTotalFrames_each D fs0 s0 l))
                   (snd (SetTotalFrames_each D fs0 s0 l)))).
  { induction l as [| x l IH]; intros fs0 s0.
    - cbn. split; [destruct (IsFileOpen s0); reflexivity |].
      split; [reflexivity |]. split; auto.
    - unfold SetTotalFrames_each in *. cbn [foldl fst snd].
      destruct (SetTotalFrames_open D fs0 s0 x) as (Ho & Ht).
      pose proof (SetTotalFrames_synced D fs0 s0 x) as Hsy.
      destruct (SetTotalFrames D fs0 s0 x) as [fs1 s1] eqn:E1.
      cbn [fst snd] in *.
      destruct (IH fs1 s1) as (IH1 & IH2 & IH3 & IH4).
      split; [rewrite IH1, Ho, Ht; destruct (IsFileOpen s0); reflexivity |].
      split; [rewrite IH2; exact Ho |].
      split; [| intros Hs; apply IH4, Hsy, Hs].
      intros Hc. rewrite IH3 by (rewrite Ho; exact Hc).
      rewrite <- E1. apply SetTotalFrames_closed.
      unfold IsFileOpen in Hc. destruct (recordingFile s0); [discriminate |].
      reflexivity. }
  destruct (Hmain frames fs s) as (H1 & H2 & H3 & H4).
  destruct (foldl_max_ge frames (totalFrames s)) as (Hge & Hmem).
  split; [exact H1 |].
  split; [rewrite H1; destruct (IsFileOpen s); [exact Hge | lia] |].
  split; [intros Ho x Hx; rewrite H1, Ho; apply Hmem; exact Hx |].
  split; [exact H2 |]. split; [exact H3 |].
  intros Hs. split; [apply H4; exact Hs |].
  intros f' Hf'. apply Close_block; [apply H4; exact Hs | exact Hf'].
Qed.

Lemma IncrementUndoCount_fields D fs s :
  undoCount (snd (IncrementUndoCount D fs s)) = wrapU (LB D) (undoCount s + 1) /\
  IsFileOpen (snd (IncrementUndoCount D fs s)) = IsFileOpen s /\
  totalFrames (snd (IncrementUndoCount D fs s)) = totalFrames s /\
  header (snd (IncrementUndoCount D fs s)) = header s /\
  (IsFileOpen s = false -> fst (IncrementUndoCount D fs s) = fs).
Proof.
  unfold IsFileOpen. destruct (recordingFile s) as [f |] eqn:Hf.
  - rewrite (IncrementUndoCount_open D fs s f Hf). cbn.
    repeat split. discriminate.
  - rewrite (IncrementUndoCount_closed D fs s Hf). cbn. rewrite Hf.
    repeat split.
Qed.

Lemma IncrementUndoCount_times_S D (n : nat) fs s :
  IncrementUndoCount_times D (S n) fs s
  = IncrementUndoCount D (fst (IncrementUndoCount_times D n fs s))
                       (snd (IncrementUndoCount_times D n fs s)).
Proof. reflexivity. Qed.

(** [n] calls of [IncrementUndoCount]: the undo count is the first value
    plus [n], reduced modulo the width of [unsigned long]; the frame count
    and the header are untouched; a closed store leaves the file system
    alone.  While the in-memory header and counters were the ones the
    stream of the store holds, they still are; the last count written may
    still be in the buffer of the stream, and once the store is closed the
    file starts with the header block of the store. *)
Theorem IncrementUndoCount_times_adds D (n : nat) fs s :
  undoCount (snd (IncrementUndoCount_times D n fs s))
  = (if decide (n = 0%nat) then undoCount s
     else wrapU (LB D) (undoCount s + Z.of_nat n)) /\
  IsFileOpen (snd (IncrementUndoCount_times D n fs s)) = IsFileOpen s /\
  totalFrames (snd (IncrementUndoCount_times D n fs s)) = totalFrames s /\
  header (snd (IncrementUndoCount_times D n fs s)) = header s /\
  (IsFileOpen s = false -> fst (IncrementUndoCount_times D n fs s) = fs) /\
  (stream_synced D fs s ->
   stream_synced D (fst (IncrementUndoCount_times D n fs s))
                 (snd (IncrementUndoCount_times D n fs s)) /\
   forall f',
     recordingFile (snd (IncrementUndoCount_times D n fs s)) = Some f' ->
     exists rest,
       fs_files (fst (fst (Close (fst (IncrementUndoCount_times D n fs s))
                                 (snd (IncrementUndoCount_times D n fs s)))))
       !! f_path f'
       = Some (header_block D (snd (IncrementUndoCount_times D n fs s))
               ++ rest)).
Proof.
  assert (Hmain :
    undoCount (snd (IncrementUndoCount_times D n fs s))
    = (if decide (n = 0%nat) then undoCount s
       else wrapU (LB D) (undoCount s + Z.of_nat n)) /\
    IsFileOpen (snd (IncrementUndoCount_times D n fs s)) = IsFileOpen s /\
    totalFrames (snd (IncrementUndoCount_times D n fs s)) = totalFrames s /\
    header (snd (IncrementUndoCount_times D n fs s)) = header s /\
    (IsFileOpen s = false -> fst (IncrementUndoCount_times D n fs s) = fs) /\
    (stream_synced D fs s ->
     stream_synced D (fst (IncrementUndoCount_times D n fs s))
                   (snd (IncrementUndoCount_times D n fs s)))).
  { induction n as [| n IH].
    - cbn. repeat split; auto.
    - destruct IH as (IH1 & IH2 & IH3 & IH4 & IH5 & IH6).
      rewrite IncrementUndoCount_times_S.
      set (st := IncrementUndoCount_times D n fs s) in *.
      destruct (IncrementUndoCount_fields D (fst st) (snd st))
        as (F1 & F2 & F3 & F4 & F5).
      split.
      { rewrite F1, IH1.
        destruct (decide (S n = 0%nat)) as [? | _]; [lia |].
        destruct (decide (n = 0%nat)) as [-> | _].
        - reflexivity.
        - unfold wrapU. rewrite Zplus_mod_idemp_l. f_equal. lia. }
      split; [rewrite F2; exact IH2 |].
      split; [rewrite F3; exact IH3 |].
      split; [rewrite F4; exact IH4 |].
      split; [intros Hc; rewrite F5 by (rewrite IH2; exact Hc); apply IH5, Hc |].
      intros Hs. apply IncrementUndoCount_synced, IH6, Hs. }
  destruct Hmain as (H1 & H2 & H3 & H4 & H5 & H6).
  split; [exact H1 |]. split; [exact H2 |]. split; [exact H3 |].
  split; [exact H4 |]. split; [exact H5 |].
  intros Hs. split; [apply H6; exact Hs |].
  intros f' Hf'. apply Close_block; [apply H6; exact Hs | exact Hf'].
Qed.

(** *** A new recording *)

Lemma Init_wf D h : header_wf D h -> header_wf D (Init D h).
Proof.
  intros (Ha & Hg & He). unfold Init, header_wf. cbn.
  rewrite !memset_whole by lia. rewrite !length_replicate. auto.
Qed.

Lemma eqb_x01 (b : byte) : Byte.eqb b Byte.x01 = true <-> b = Byte.x01.
Proof.
  split; [apply Byte.byte_dec_bl | intros ->; reflexivity].
Qed.

(** [OpenNew] on a path that can be created: the file is there and has no
    bytes, whatever it held before; the store is open on it with the path,
    both counters at zero and the flag as given; the version and the
    emulator identity of the header are the ones the store had.  Until the
    header block is written the file does not open as a recording; once
    [WriteHeader] has stamped it, it opens exactly when the version the
    store carried is 1. *)
Theorem OpenNew_creates D fs s path b :
  path ∉ fs_denied fs ->
  exists fs' s',
    OpenNew D fs s path b = (fs', s', true) /\
    fs_files fs' !! path = Some [] /\
    (forall p, p <> path -> fs_files fs' !! p = fs_files fs !! p) /\
    fs_denied fs' = fs_denied fs /\
    recordingFile s' = Some (mkFILE path 0) /\ GetFilename s' = path /\
    GetTotalFrames s' = 0 /\ GetUndoCount s' = 0 /\ FromSaveState s' = b /\
    GetHeader s' = Init D (header s) /\
    version (GetHeader s') = version (header s) /\
    emu (GetHeader s') = emu (header s) /\
    (forall r, snd (OpenExisting D fs' r path) = false) /\
    (header_wf D (header s) ->
     exists fs2 s2,
       WriteHeader D fs' s' = (fs2, s2, true) /\
       forall r, snd (OpenExisting D fs2 r path)
                 = Byte.eqb (version (header s)) Byte.x01).
Proof.
  intros Hd. unfold OpenNew, open, wxFopen.
  destruct (decide (path ∈ fs_denied fs)) as [? | _]; [contradiction |].
  cbn [negb].
  eexists _, _. split; [reflexivity |].
  split; [apply lookup_insert_eq |].
  split; [intros p Hp; apply set_stream_other; exact Hp |].
  do 9 (split; [reflexivity |]).
  split.
  - intros r.
    destruct (OpenExisting_invalid D (set_stream fs path []) r path [])
      as (r' & -> & _).
    + exact Hd.
    + apply lookup_insert_eq.
    + left. simpl. lia.
    + reflexivity.
  - intros Hwf.
    set (s' := set_fromSavestate b _).
    assert (Hwf' : header_wf D (header s')) by (apply Init_wf; exact Hwf).
    rewrite (WriteHeader_open D _ s' (mkFILE path 0)) by (first [reflexivity | exact Hwf']).
    eexists _, _. split; [reflexivity |]. intros r.
    cbn [mkFILE f_path]. rewrite stream_data_set_stream by reflexivity.
    rewrite drop_nil, app_nil_r.
    set (fs2 := set_stream _ path (header_block D s')).
    assert (Hl2 : fs_files fs2 !! path = Some (header_block D s'))
      by apply lookup_insert_eq.
    assert (Hd2 : path ∉ fs_denied fs2) by exact Hd.
    destruct (Byte.eqb (version (header s)) Byte.x01) eqn:Ev.
    + rewrite (OpenExisting_valid D fs2 r path _ Hd2 Hl2); [reflexivity | |].
      * rewrite header_block_length by exact Hwf'. lia.
      * apply eqb_x01 in Ev. exact Ev.
    + destruct (OpenExisting_invalid D fs2 r path _ Hd2 Hl2) as (r' & -> & _);
        [| reflexivity].
      right. intros Hv. apply eqb_x01 in Hv.
      change (hd Byte.x00 (header_block D s')) with (version (header s)) in Hv.
      rewrite Hv in Ev. discriminate Ev.
Qed.

(** A recording is created at the sample path. *)
Lemma OpenNew_creates_witness :
  exists fs' s',
    OpenNew decls64 sample_fs closed_store rec_path true = (fs', s', true) /\
    fs_files fs' !! rec_path = Some [].
Proof.
  destruct (OpenNew_creates decls64 sample_fs closed_store rec_path true)
    as (fs' & s' & E & Hfile & _).
  - vm_compute. intros H. discriminate H.
  - exists fs', s'. split; assumption.
Defined.

(** *** OpenExisting that fails *)

(** [OpenExisting] never changes the file system, and a failure always
    leaves the store closed.  On a path that cannot be opened or does not
    exist, nothing else of the store changes: it keeps the path, the header
    and the counters it had.  On a file that holds a whole header block of
    another version, the call fails after the header, both counters and the
    flag of the store have been replaced by those of the file. *)
Theorem OpenExisting_failure_modes D fs s path :
  exists s' ok,
    OpenExisting D fs s path = (fs, s', ok) /\
    (ok = false -> recordingFile s' = None) /\
    (ok = true ->
     recordingFile s' = Some (mkFILE path (sizeof_header D + 9)) /\
     filename s' = path) /\
    (path ∈ fs_denied fs \/ fs_files fs !! path = None ->
     ok = false /\ s' = set_recordingFile None s) /\
    (forall data,
        path ∉ fs_denied fs -> fs_files fs !! path = Some data ->
        (sizeof_header D + 9 <= length data)%nat ->
        hd Byte.x00 data <> Byte.x01 ->
        ok = false /\
        s' = set_filename "" (set_recordingFile None
                                (loaded_store D data path s))).
Proof.
  destruct (decide (path ∈ fs_denied fs)) as [Hd | Hd].
  { exists (set_recordingFile None s), false.
    split; [unfold OpenExisting, open; rewrite wxFopen_denied by exact Hd;
            reflexivity |].
    split; [reflexivity |]. split; [discriminate |].
    split; [auto |]. intros data Hnd. contradiction. }
  destruct (fs_files fs !! path) as [data |] eqn:Hfile.
  2: { exists (set_recordingFile None s), false.
       split.
       { unfold OpenExisting, open, wxFopen.
         destruct (decide (path ∈ fs_denied fs)); [contradiction |].
         rewrite Hfile. reflexivity. }
       split; [reflexivity |]. split; [discriminate |].
       split; [auto |]. intros data _ Hsome. discriminate Hsome. }
  destruct (decide (sizeof_header D + 9 <= length data)%nat) as [Hlen | Hlen].
  - destruct (Byte.eqb (hd Byte.x00 data) Byte.x01) eqn:Ev.
    + apply eqb_x01 in Ev.
      rewrite (OpenExisting_valid D fs s path data Hd Hfile Hlen Ev).
      eexists _, _. split; [reflexivity |].
      split; [discriminate |]. split; [split; reflexivity |].
      split.
      * intros [Hin | Hnone]; [contradiction | discriminate Hnone].
      * intros data0 _ [= <-] _ Hbad. contradiction.
    + exists (set_filename "" (set_recordingFile None
                                 (loaded_store D data path s))), false.
      split.
      { unfold OpenExisting, open.
        rewrite (wxFopen_existing fs path data) by assumption.
        rewrite (verify_success D fs _ (mkFILE path 0)).
        2: reflexivity.
        2: { rewrite (stream_data_lookup fs path 0 data) by assumption.
             exact Hlen. }
        rewrite (stream_data_lookup fs path 0 data) by assumption.
        rewrite Ev. reflexivity. }
      split; [reflexivity |]. split; [discriminate |].
      split.
      * intros [Hin | Hnone]; [contradiction | discriminate Hnone].
      * intros data0 _ [= <-] _ _. split; reflexivity.
  - destruct (OpenExisting_invalid D fs s path data Hd Hfile)
      as (s' & E & Hnone & _); [left; lia |].
    exists s', false. split; [exact E |].
    split; [intros _; exact Hnone |]. split; [discriminate |].
    split.
    + intros [Hin | Hno]; [contradiction | discriminate Hno].
    + intros data0 _ [= <-] Hfull _. lia.
Qed.

(** *** Texts through the file *)

Lemma c_prefix_nonzero src : Forall (fun b => b <> Byte.x00) (c_prefix src).
Proof.
  induction src as [| c t IH]; [constructor |].
  cbn [c_prefix]. destruct (Byte.eqb c Byte.x00) eqn:E; [constructor |].
  constructor; [| exact IH].
  intros ->. discriminate E.
Qed.

Lemma c_prefix_app_nul l t :
  Forall (fun b => b <> Byte.x00) l -> c_prefix (l ++ Byte.x00 :: t) = l.
Proof.
  induction 1 as [| c l Hc Hl IH]; [reflexivity |].
  cbn [app c_prefix].
  destruct (Byte.eqb c Byte.x00) eqn:E.
  - apply Byte.byte_dec_bl in E. contradiction.
  - rewrite IH. reflexivity.
Qed.

(** The characters a reader sees in a field that a setter filled. *)
Lemma field_text_truncate cap src :
  (0 < cap)%nat ->
  field_text (truncate_and_terminate cap src) = take (cap - 1) (c_prefix src).
Proof.
  intros Hcap. unfold field_text, truncate_and_terminate.
  set (kept := take (cap - 1) (c_prefix src)).
  assert (Hk : (length kept <= cap - 1)%nat)
    by (unfold kept; rewrite length_take; lia).
  replace (cap - length kept)%nat with (S (cap - 1 - length kept)) by lia.
  cbn [replicate]. apply c_prefix_app_nul.
  unfold kept. apply Forall_take, c_prefix_nonzero.
Qed.

(** The three texts of the header are set, the header is written to the
    open file, and another store opens the file: it holds, as the text of
    each field, the characters of the text given that fit before the last
    cell of the field (a text shorter than its field comes back whole), the
    path, and the flag of the writer. *)
Theorem metadata_round_trip D fs s f a g e r :
  arrays_nonempty D -> header_wf D (header s) ->
  version (header s) = Byte.x01 ->
  recordingFile s = Some f -> f_path f ∉ fs_denied fs ->
  exists h1 h2 h3 fs1 s1 s2,
    SetAuthor D (GetHeader s) a = Some h1 /\
    SetGameName D h1 g = Some h2 /\
    SetEmulatorVersion D h2 e = Some h3 /\
    WriteHeader D fs (set_header h3 s) = (fs1, s1, true) /\
    OpenExisting D fs1 r (f_path f) = (fs1, s2, true) /\
    GetHeader s2 = h3 /\
    field_text (author (GetHeader s2))
    = take (authorCap D - 1) (c_prefix (c_str a)) /\
    field_text (gameName (GetHeader s2))
    = take (gameNameCap D - 1) (c_prefix (c_str g)) /\
    field_text (emu (GetHeader s2))
    = take (emuCap D - 1) (c_prefix (c_str e)) /\
    ((length (c_prefix (c_str a)) < authorCap D)%nat ->
     field_text (author (GetHeader s2)) = c_prefix (c_str a)) /\
    GetFilename s2 = f_path f /\ FromSaveState s2 = FromSaveState s.
Proof.
  intros (Hca & Hcg & Hce) (Ha & Hg & He) Hv Hf Hd.
  set (ta := truncate_and_terminate (authorCap D) (c_str a)).
  set (tg := truncate_and_terminate (gameNameCap D) (c_str g)).
  set (te := truncate_and_terminate (emuCap D) (c_str e)).
  set (h1 := mkHeader (version (header s)) ta (gameName (header s))
                      (emu (header s))).
  set (h2 := mkHeader (version (header s)) ta tg (emu (header s))).
  set (h3 := mkHeader (version (header s)) ta tg te).
  assert (E1h : SetAuthor D (GetHeader s) a = Some h1).
  { unfold SetAuthor, GetHeader. rewrite strcpy_safe_spec by assumption.
    reflexivity. }
  assert (E2h : SetGameName D h1 g = Some h2).
  { unfold SetGameName. cbn [gameName h1].
    rewrite strcpy_safe_spec by assumption. reflexivity. }
  assert (E3h : SetEmulatorVersion D h2 e = Some h3).
  { unfold SetEmulatorVersion. cbn [emu h2].
    rewrite strcpy_safe_spec by assumption. reflexivity. }
  exists h1, h2, h3.
  assert (Hwf3 : header_wf D h3).
  { unfold header_wf, h3, ta, tg, te. cbn.
    rewrite !truncate_and_terminate_length by assumption. auto. }
  destruct (WriteHeader_synced D fs (set_header h3 s) f Hf Hwf3)
    as (fs1 & s1 & E1 & Hsync & Hh1 & _ & _ & Hfs1 & (f1 & Hf1 & Hp1) & Hden).
  exists fs1, s1. rewrite E1.
  rewrite <- Hp1.
  rewrite (reopen_synced D fs1 s1 f1 r Hsync Hf1).
  2: { rewrite Hh1. exact Hv. }
  2: { rewrite Hp1, Hden. exact Hd. }
  eexists. split; [exact E1h |]. split; [exact E2h |].
  split; [exact E3h |]. split; [reflexivity |]. split; [reflexivity |].
  unfold GetHeader, GetFilename, FromSaveState.
  cbn [header filename fromSavestate].
  rewrite Hh1, Hfs1. cbn [header set_header h3 author gameName emu fromSavestate].
  split; [reflexivity |].
  split; [apply field_text_truncate; exact Hca |].
  split; [apply field_text_truncate; exact Hcg |].
  split; [apply field_text_truncate; exact Hce |].
  split; [| split; reflexivity].
  intros Hshort. unfold ta. rewrite field_text_truncate by exact Hca.
  apply take_ge. lia.
Qed.

(** On the fresh sample recording the author is set to a short name and the
    emulator identity to one of 60 characters: the store that opens the
    file reads the name whole and the first 49 characters of the
    identity. *)
Lemma metadata_round_trip_witness :
  exists fs1 s2,
    OpenExisting decls64 fs1 closed_store rec_path = (fs1, s2, true) /\
    field_text (author (GetHeader s2)) = c_str "speedrunner" /\
    field_text (emu (GetHeader s2))
    = c_str "PCSX2-1.7.0-dev-20210101-a-very-long-build-identi".
Proof.
  destruct (metadata_round_trip decls64 (fst fresh_recording)
              (snd fresh_recording) (mkFILE rec_path 570)
              "speedrunner" "game"
              "PCSX2-1.7.0-dev-20210101-a-very-long-build-identifier-x86_64"
              closed_store decls64_arrays sample_header_wf)
    as (h1 & h2 & h3 & fs1 & s1 & s2 & _ & _ & _ & _ & E & _ & Ha & _ & He & _).
  - reflexivity.
  - reflexivity.
  - vm_compute. intros H. discriminate H.
  - exists fs1, s2. split; [exact E |]. split; [exact Ha | exact He].
Defined.
